(** * Georgia OCGA to Akoma Ntoso converter: a shallow embedding of
    [convert_ga_to_akn.py] and the properties of its extraction engine.

    Python strings are sequences of Unicode code points, so a string is a
    list of code points ([N]).  The regular expressions of the source are
    written with a small library of backtracking matchers whose
    combinators follow the syntax of the patterns; [re.sub], [re.split],
    [re.search] and [re.match] are functions over such matchers.  The
    element tree of [xml.etree.ElementTree] is an inductive type, and the
    in-place construction of the tree ([SubElement], [set], [.text = ...])
    is written as the construction of the finished element. *)

From Stdlib Require Import String Ascii.
From Stdlib Require Import List NArith ZArith Bool Arith Lia.
From Stdlib Require Import Sorting.Sorted Permutation.
From Stdlib Require DecimalString.
Import ListNotations.

Set Implicit Arguments.
Set Warnings "-register-all,-abstract-large-number".

(* ================================================================== *)
(** * Python strings *)

Module Py.

(** A character is a Unicode code point. *)
Definition char := N.
Definition pystr := list char.

(** String literals of the source, written as Rocq strings (ASCII). *)
Definition py (s : string) : pystr :=
  map N_of_ascii (list_ascii_of_string s).

Local Open Scope N_scope.

Definition nl : char := 10.

Definition char_eqb (a b : char) : bool := N.eqb a b.

Fixpoint str_eqb (a b : pystr) : bool :=
  match a, b with
  | [], [] => true
  | x :: a', y :: b' => N.eqb x y && str_eqb a' b'
  | _, _ => false
  end.

(** [a < b] on strings: lexicographic on code points. *)
Fixpoint str_ltb (a b : pystr) : bool :=
  match a, b with
  | _, [] => false
  | [], _ :: _ => true
  | x :: a', y :: b' => N.ltb x y || (N.eqb x y && str_ltb a' b')
  end.

(** Truthiness of a string or a list: non-empty. *)
Definition truthy {A} (l : list A) : bool :=
  match l with [] => false | _ => true end.

(** ** Character classes *)

(** [str.isspace] and the class [\s] of a [str] pattern. *)
Definition is_space (c : char) : bool :=
  ((9 <=? c) && (c <=? 13)) || ((28 <=? c) && (c <=? 32))
  || (c =? 133) || (c =? 160) || (c =? 5760)
  || ((8192 <=? c) && (c <=? 8202))
  || (c =? 8232) || (c =? 8233) || (c =? 8239) || (c =? 8287)
  || (c =? 12288).

(** First code points of the blocks of ten decimal digits (general
    category Nd, Unicode 14.0): the class [\d] of a [str] pattern. *)
Definition decimal_blocks : list N :=
  [ 0x30; 0x660; 0x6f0; 0x7c0; 0x966; 0x9e6; 0xa66; 0xae6; 0xb66; 0xbe6;
    0xc66; 0xce6; 0xd66; 0xde6; 0xe50; 0xed0; 0xf20; 0x1040; 0x1090;
    0x17e0; 0x1810; 0x1946; 0x19d0; 0x1a80; 0x1a90; 0x1b50; 0x1bb0;
    0x1c40; 0x1c50; 0xa620; 0xa8d0; 0xa900; 0xa9d0; 0xa9f0; 0xaa50;
    0xabf0; 0xff10; 0x104a0; 0x10d30; 0x11066; 0x110f0; 0x11136;
    0x111d0; 0x112f0; 0x11450; 0x114d0; 0x11650; 0x116c0; 0x11730;
    0x118e0; 0x11950; 0x11c50; 0x11d50; 0x11da0; 0x16a60; 0x16ac0;
    0x16b50; 0x1d7ce; 0x1d7d8; 0x1d7e2; 0x1d7ec; 0x1d7f6; 0x1e140;
    0x1e2f0; 0x1e950; 0x1fbf0 ].

Definition is_digit (c : char) : bool :=
  existsb (fun b => (b <=? c) && (c <? b + 10)) decimal_blocks.

(** [[a-z]] and [[0-9]], [[0-9a-fA-F]]: ASCII only. *)
Definition is_lower (c : char) : bool := (97 <=? c) && (c <=? 122).
Definition is_upper (c : char) : bool := (65 <=? c) && (c <=? 90).
Definition is_ascii_digit (c : char) : bool := (48 <=? c) && (c <=? 57).
Definition is_hex_digit (c : char) : bool :=
  is_ascii_digit c || ((97 <=? c) && (c <=? 102)) || ((65 <=? c) && (c <=? 70)).

(** A literal letter under [re.IGNORECASE]: both ASCII cases, and the
    three letters that have further case-equivalent code points. *)
Definition ci_eqb (p c : char) : bool :=
  let lo := if is_upper p then p + 32 else p in
  if is_lower lo then
    (c =? lo) || (c =? lo - 32)
    || ((lo =? 115) && (c =? 383))
    || ((lo =? 107) && (c =? 8490))
    || ((lo =? 105) && ((c =? 304) || (c =? 305)))
  else c =? p.

(** ** String methods *)

Fixpoint lstrip (s : pystr) : pystr :=
  match s with
  | c :: s' => if is_space c then lstrip s' else s
  | [] => []
  end.

Definition rstrip (s : pystr) : pystr := rev (lstrip (rev s)).

(** [s.strip()] *)
Definition strip (s : pystr) : pystr := rstrip (lstrip s).

(** [s.replace(old, new)] for one-character [old] and [new]. *)
Definition replace (old new : char) (s : pystr) : pystr :=
  map (fun c => if c =? old then new else c) s.

(** [s.split(sep)] for a one-character separator; [split_go] carries the
    current field, reversed. *)
Fixpoint split_go (sep : char) (cur : pystr) (s : pystr) : list pystr :=
  match s with
  | [] => [rev cur]
  | c :: s' =>
      if c =? sep then rev cur :: split_go sep [] s'
      else split_go sep (c :: cur) s'
  end.

Definition split (sep : char) (s : pystr) : list pystr := split_go sep [] s.

(** [c in s] *)
Definition contains (c : char) (s : pystr) : bool := existsb (N.eqb c) s.

(** [str(n)] for an [int]. *)
Definition str_of_int (n : Z) : pystr :=
  py (DecimalString.NilZero.string_of_int (Z.to_int n)).

(** [f"{n:02d}"]-style padding used by [date.isoformat]. *)
Definition zfill (w : nat) (s : pystr) : pystr :=
  repeat 48 (w - length s)%nat ++ s.

End Py.
Import Py.

(* ================================================================== *)
(** * Regular expressions *)

(** A matcher gives the lengths of the matches of a pattern at the head
    of a text, in the order in which the backtracking engine of [re]
    finds them; the first one is the match [re] reports. *)
Module Re.

Definition matcher := pystr -> list nat.

(** [prefix_by eq w s]: [s] starts with [w], characters compared by [eq]. *)
Fixpoint prefix_by (eq : char -> char -> bool) (w s : pystr) : bool :=
  match w, s with
  | [], _ => true
  | p :: w', c :: s' => eq p c && prefix_by eq w' s'
  | _ :: _, [] => false
  end.

(** A literal, and a literal under [re.IGNORECASE]. *)
Definition lit (w : string) : matcher :=
  fun s => if prefix_by N.eqb (py w) s then [length (py w)] else [].

Definition lit_i (w : string) : matcher :=
  fun s => if prefix_by ci_eqb (py w) s then [length (py w)] else [].

(** One character of a class: [\s], [\d], [[a-z]], [[^>]], [.] *)
Definition set (p : char -> bool) : matcher :=
  fun s => match s with c :: _ => if p c then [1] else [] | [] => [] end.

(** Length of the longest prefix of [s] made of characters of [p]. *)
Fixpoint run (p : char -> bool) (s : pystr) : nat :=
  match s with
  | c :: s' => if p c then S (run p s') else 0
  | [] => 0
  end.

(** [p*], [p+] (greedy: longest first), [p+?] (lazy: shortest first) and
    [p{1,n}] for a class [p]. *)
Definition star (p : char -> bool) : matcher :=
  fun s => rev (List.seq 0 (S (run p s))).

Definition plus (p : char -> bool) : matcher :=
  fun s => rev (List.seq 1 (run p s)).

Definition plus_lazy (p : char -> bool) : matcher :=
  fun s => List.seq 1 (run p s).

Definition upto (n : nat) (p : char -> bool) : matcher :=
  fun s => rev (List.seq 1 (Nat.min n (run p s))).

(** Concatenation [ab], alternation [a|b], option [a?], lookahead [(?=a)]. *)
Definition cat (a b : matcher) : matcher :=
  fun s => flat_map (fun n => map (Nat.add n) (b (skipn n s))) (a s).

Definition alt (a b : matcher) : matcher :=
  fun s => a s ++ b s.

Definition eps : matcher := fun _ => [0].

Definition opt (a : matcher) : matcher := alt a eps.

Definition ahead (a : matcher) : matcher :=
  fun s => match a s with [] => [] | _ :: _ => [0] end.

Declare Scope re_scope.
Delimit Scope re_scope with re.
Infix ">>" := cat (at level 41, right associativity) : re_scope.
Infix "<|>" := alt (at level 51, right associativity) : re_scope.

(** [re.match(p, s)]: the end of the match at the start of [s]. *)
Definition re_match (m : matcher) (s : pystr) : option nat := hd_error (m s).

(** [re.match] for a pattern [pre(g)post] with one group: the text of
    the group and the end of the match. *)
Definition re_match_group (pre g post : matcher) (s : pystr)
  : option (pystr * nat) :=
  hd_error
    (flat_map (fun n1 =>
       flat_map (fun n2 =>
         map (fun n3 => (firstn n2 (skipn n1 s), n1 + n2 + n3))
             (post (skipn (n1 + n2) s)))
         (g (skipn n1 s)))
       (pre s)).

(** [re.search(p, s)]: start and length of the leftmost match. *)
Fixpoint search_from (m : matcher) (i : nat) (s : pystr) : option (nat * nat) :=
  match m s with
  | n :: _ => Some (i, n)
  | [] => match s with
          | [] => None
          | _ :: s' => search_from m (S i) s'
          end
  end.

Definition re_search (m : matcher) (s : pystr) : option (nat * nat) :=
  search_from m 0 s.

Definition nonzero (n : nat) : bool := negb (Nat.eqb n 0).

(** [re.sub(p, repl, s)]: [skip] counts the characters of the current
    match that remain to be consumed.  An empty match is replaced, and the
    engine must then advance: a non-empty match at the same position is
    taken if there is one, else the character is copied. *)
Fixpoint sub_go (m : matcher) (repl : pystr) (skip : nat) (s : pystr) : pystr :=
  match skip, s with
  | S k, _ :: s' => sub_go m repl k s'
  | S _, [] => []
  | 0, [] => match m [] with [] => [] | _ :: _ => repl end
  | 0, c :: s' =>
      match m s with
      | S n :: _ => repl ++ sub_go m repl n s'
      | 0 :: cs =>
          repl ++ match filter nonzero cs with
                  | S n :: _ => repl ++ sub_go m repl n s'
                  | _ => c :: sub_go m repl 0 s'
                  end
      | [] => c :: sub_go m repl 0 s'
      end
  end.

Definition re_sub (m : matcher) (repl : pystr) (s : pystr) : pystr :=
  sub_go m repl 0 s.

(** [re.sub(p, f, s)] for a replacement function [f] of the matched text
    that may raise ([None]). *)
Fixpoint sub_with_go (m : matcher) (f : pystr -> option pystr)
    (skip : nat) (s : pystr) : option pystr :=
  match skip, s with
  | S k, _ :: s' => sub_with_go m f k s'
  | S _, [] => Some []
  | 0, [] => match m [] with [] => Some [] | _ :: _ => f [] end
  | 0, c :: s' =>
      match m s with
      | S n :: _ =>
          match f (firstn (S n) s) with
          | Some r => option_map (app r) (sub_with_go m f n s')
          | None => None
          end
      | 0 :: cs =>
          match f [] with
          | Some r0 =>
              match filter nonzero cs with
              | S n :: _ =>
                  match f (firstn (S n) s) with
                  | Some r => option_map (fun t => r0 ++ r ++ t)
                                         (sub_with_go m f n s')
                  | None => None
                  end
              | _ => option_map (fun t => r0 ++ c :: t) (sub_with_go m f 0 s')
              end
          | None => None
          end
      | [] => option_map (cons c) (sub_with_go m f 0 s')
      end
  end.

Definition re_sub_with (m : matcher) (f : pystr -> option pystr) (s : pystr)
  : option pystr :=
  sub_with_go m f 0 s.

(** [re.split(p, s)] for a pattern without groups: [seg] is the current
    segment, reversed. *)
Fixpoint split_go (m : matcher) (skip : nat) (seg : pystr) (s : pystr)
  : list pystr :=
  match skip, s with
  | S k, _ :: s' => split_go m k seg s'
  | S _, [] => [rev seg]
  | 0, [] => match m [] with [] => [rev seg] | _ :: _ => [rev seg; []] end
  | 0, c :: s' =>
      match m s with
      | S n :: _ => rev seg :: split_go m n [] s'
      | 0 :: cs =>
          rev seg :: match filter nonzero cs with
                     | S n :: _ => [] :: split_go m n [] s'
                     | _ => split_go m 0 [c] s'
                     end
      | [] => split_go m 0 (c :: seg) s'
      end
  end.

Definition re_split (m : matcher) (s : pystr) : list pystr :=
  split_go m 0 [] s.

(** [$] without [re.MULTILINE]: the end of the text, or the place before
    a newline that ends the text. *)
Definition re_end : matcher :=
  fun s => match s with
           | [] => [0]
           | [c] => if (c =? 10)%N then [0] else []
           | _ => []
           end.

(** [re.search] for a pattern [pre(g)post] with one group: the text of
    the group in the leftmost match. *)
Fixpoint re_search_group (pre g post : matcher) (s : pystr) : option pystr :=
  match re_match_group pre g post s with
  | Some (group1, _) => Some group1
  | None =>
      match s with
      | [] => None
      | _ :: s' => re_search_group pre g post s'
      end
  end.

End Re.
Import Re.
Local Open Scope re_scope.

(* ================================================================== *)
(** * Data model *)

(** A subsection dict [{"identifier", "text", "children"}]. *)
Inductive Node := mkNode {
  identifier : pystr;
  text : pystr;
  children : list Node
}.

(** A section dict.  The builder reads every key but ["section_number"]
    with [.get(key, default)]; a dict that lacks such a key is the record
    that holds the default (["0"] for ["chapter"], empty otherwise). *)
Record SectionRecord := mkSection {
  section_number : pystr;
  title : pystr;
  body : pystr;                 (* key "text" *)
  history : pystr;
  chapter : pystr;
  chapter_title : pystr;
  subsections : list Node
}.

(** [xml.etree.ElementTree.Element] *)
Module ET.

Inductive Element := mkElement {
  tag : pystr;
  attrib : list (pystr * pystr);
  text : option pystr;
  children : list Element
}.

(** [parent.append(child)], the effect of [SubElement(parent, ...)] on
    [parent] once the child is complete. *)
Definition append (parent child : Element) : Element :=
  mkElement (tag parent) (attrib parent) (text parent)
            (children parent ++ [child]).

(** [elem.get(key)] *)
Fixpoint lookup (key : pystr) (d : list (pystr * pystr)) : option pystr :=
  match d with
  | [] => None
  | (k, v) :: d' => if str_eqb k key then Some v else lookup key d'
  end.

Definition get (e : Element) (key : string) : option pystr :=
  lookup (py key) (attrib e).

(** [list(elem.iter(tag))] without the element itself: the children
    with a given tag. *)
Definition findall (t : pystr) (e : Element) : list Element :=
  filter (fun c => str_eqb (tag c) t) (children e).

End ET.

(** An [<Index>] element of the source document: its [Level] attribute
    ([""] when absent) and, for each child element the extractor looks
    for, [None] when there is no such child and else its [.text]. *)
Record Index := mkIndex {
  Level : pystr;
  Caption : option (option pystr);
  Description : option (option pystr);
  Content : option (option pystr);
  RevisionHistory : option (option pystr)
}.

(** [datetime.date] *)
Record date := mkDate { year : N; month : N; day : N }.

Definition isoformat (d : date) : pystr :=
  zfill 4 (str_of_int (Z.of_N (year d))) ++ py "-"
  ++ zfill 2 (str_of_int (Z.of_N (month d))) ++ py "-"
  ++ zfill 2 (str_of_int (Z.of_N (day d))).

(* ================================================================== *)
(** * The converter *)

Section Converter.

(** The table [html.entities.html5] of named character references, from
    a name (without the ampersand) to its expansion. *)
Variable html5 : pystr -> option pystr.

(** [sys.get_int_max_str_digits()]: [int(s)] raises [ValueError] on a
    decimal numeral of more digits; [0] lifts the limit. *)
Variable int_max_str_digits : nat.

(** ** [html.unescape] *)

Definition invalid_charrefs : list (N * N) :=
  [ (0x00, 0xfffd); (0x0d, 0x0d); (0x80, 0x20ac); (0x81, 0x81);
    (0x82, 0x201a); (0x83, 0x0192); (0x84, 0x201e); (0x85, 0x2026);
    (0x86, 0x2020); (0x87, 0x2021); (0x88, 0x02c6); (0x89, 0x2030);
    (0x8a, 0x0160); (0x8b, 0x2039); (0x8c, 0x0152); (0x8d, 0x8d);
    (0x8e, 0x017d); (0x8f, 0x8f); (0x90, 0x90); (0x91, 0x2018);
    (0x92, 0x2019); (0x93, 0x201c); (0x94, 0x201d); (0x95, 0x2022);
    (0x96, 0x2013); (0x97, 0x2014); (0x98, 0x02dc); (0x99, 0x2122);
    (0x9a, 0x0161); (0x9b, 0x203a); (0x9c, 0x0153); (0x9d, 0x9d);
    (0x9e, 0x017e); (0x9f, 0x0178) ]%N.

Definition invalid_codepoint (c : N) : bool :=
  (((0x1 <=? c) && (c <=? 0x8)) || ((0xe <=? c) && (c <=? 0x1f))
   || ((0x7f <=? c) && (c <=? 0x9f)) || ((0xfdd0 <=? c) && (c <=? 0xfdef))
   || (c =? 0xb)
   || ((0xfffe <=? N.land c 0xffff) && (c <=? 0x10ffff)))%N.

Definition digit_value (c : char) : N :=
  (if is_ascii_digit c then c - 48
   else if 97 <=? c then c - 87 else c - 55)%N.

Definition int_of (base : N) (ds : pystr) : N :=
  fold_left (fun a c => (a * base + digit_value c)%N) ds 0%N.

(** [int(ds)] on decimal digits, with the interpreter's length limit. *)
Definition int_decimal (ds : pystr) : option N :=
  if nonzero int_max_str_digits && (int_max_str_digits <? length ds)
  then None
  else Some (int_of 10 ds).

(** [s.rstrip(';')] *)
Fixpoint lstrip_semicolon (r : pystr) : pystr :=
  match r with
  | c :: r' => if (c =? 59)%N then lstrip_semicolon r' else r
  | [] => []
  end.

Definition rstrip_semicolon (s : pystr) : pystr :=
  rev (lstrip_semicolon (rev s)).

(** The loop [for x in range(x, 1, -1)] over the prefixes of a name. *)
Fixpoint longest_prefix_ref (s : pystr) (x : nat) : option pystr :=
  match x with
  | S (S _ as x') =>
      match html5 (firstn x s) with
      | Some v => Some (v ++ skipn x s)
      | None => longest_prefix_ref s x'
      end
  | _ => None
  end.

(** [_replace_charref], on the text [s] of group 1. *)
Definition replace_charref (s : pystr) : option pystr :=
  match s with
  | 35%N :: x :: _ =>
      let num :=
        if contains x (py "xX")
        then Some (int_of 16 (rstrip_semicolon (skipn 2 s)))
        else int_decimal (rstrip_semicolon (skipn 1 s)) in
      match num with
      | None => None
      | Some num =>
          match find (fun e => (fst e =? num)%N) invalid_charrefs with
          | Some (_, r) => Some [r]
          | None =>
              if ((0xD800 <=? num) && (num <=? 0xDFFF) || (0x10FFFF <? num))%N
              then Some [0xFFFD%N]
              else if invalid_codepoint num then Some []
              else Some [num]
          end
      end
  | _ =>
      match html5 s with
      | Some v => Some v
      | None =>
          match longest_prefix_ref s (length s - 1) with
          | Some r => Some r
          | None => Some (38%N :: s)
          end
      end
  end.

(** [&(#[0-9]+;?|#[xX][0-9a-fA-F]+;?|[^\t\n\f <&#;]{1,32};?)] *)
Definition charref : matcher :=
  lit "&" >> ( lit "#" >> plus is_ascii_digit >> opt (lit ";")
           <|> lit "#" >> set (fun c => contains c (py "xX"))
                       >> plus is_hex_digit >> opt (lit ";")
           <|> upto 32 (fun c => negb (existsb (N.eqb c)
                                   (9 :: 10 :: 12 :: py " <&#;"))%N)
               >> opt (lit ";") ).

Definition unescape (s : pystr) : option pystr :=
  if negb (contains 38%N s) then Some s
  else re_sub_with charref (fun m => replace_charref (tl m)) s.

(** ** [clean_html_content] *)

Definition not_gt (c : char) : bool := negb (c =? 62)%N.

(** [<BR\s*/?>], [<P>], [</P>], [<STRONG>|</STRONG>], [<B>|</B>],
    [<FONT[^>]*>|</FONT>], all under [re.IGNORECASE]. *)
Definition re_br : matcher := lit_i "<BR" >> star is_space >> opt (lit_i "/") >> lit_i ">".
Definition re_p_open : matcher := lit_i "<P>".
Definition re_p_close : matcher := lit_i "</P>".
Definition re_strong : matcher := lit_i "<STRONG>" <|> lit_i "</STRONG>".
Definition re_b : matcher := lit_i "<B>" <|> lit_i "</B>".
Definition re_font : matcher :=
  lit_i "<FONT" >> star not_gt >> lit_i ">" <|> lit_i "</FONT>".
(** [<[^>]+>] *)
Definition re_tag : matcher := lit "<" >> plus not_gt >> lit ">".
(** [\n\s*\n+] *)
Definition re_blank_lines : matcher :=
  set (N.eqb nl) >> star is_space >> plus (N.eqb nl).

Definition clean_html_content (html_content : pystr) : option pystr :=
  match unescape html_content with
  | None => None
  | Some text =>
      let text := re_sub re_br [nl] text in
      let text := re_sub re_p_open [nl] text in
      let text := re_sub re_p_close [] text in
      let text := re_sub re_strong [] text in
      let text := re_sub re_b [] text in
      let text := re_sub re_font [] text in
      let text := re_sub re_tag [] text in
      let text := re_sub re_blank_lines [nl; nl] text in
      let text := strip text in
      Some text
  end.

(** ** [extract_section_number], [create_eid] *)

(** [(\d+-\d+-\d+(?:\.\d+)?)] *)
Definition re_section_number : matcher :=
  plus is_digit >> lit "-" >> plus is_digit >> lit "-" >> plus is_digit
  >> opt (lit "." >> plus is_digit).

Definition extract_section_number (caption : pystr) : pystr :=
  match re_search re_section_number caption with
  | Some (i, n) => firstn n (skipn i caption)
  | None => replace 46%N 45%N (replace 32%N 45%N caption)
  end.

(** [\d+-\d+-\d+], the test [parse_source_xml] makes on a caption. *)
Definition re_three_part : matcher :=
  plus is_digit >> lit "-" >> plus is_digit >> lit "-" >> plus is_digit.

Definition create_eid (section_num : pystr) : pystr :=
  py "sec_" ++ section_num.

(** ** [parse_subsections] *)

(** [\([a-z]\)] and [\(\d+\)] *)
Definition re_lettered : matcher := lit "(" >> set is_lower >> lit ")".
Definition re_numbered : matcher := lit "(" >> plus is_digit >> lit ")".

Definition filter_map {A B} (f : A -> option B) (l : list A) : list B :=
  flat_map (fun x => match f x with Some y => [y] | None => [] end) l.

(** The body of the inner loop, for one [num_part]. *)
Definition parse_child (num_part : pystr) : option Node :=
  match re_match_group (lit "(") (plus is_digit) (lit ")" >> star is_space)
                       num_part with
  | Some (num_id, e) =>
      let num_text := strip (skipn e num_part) in
      let num_text :=
        match re_search (re_lettered <|> re_numbered) num_text with
        | Some (i, _) => strip (firstn i num_text)
        | None => num_text
        end in
      Some (mkNode num_id (firstn 2000 num_text) [])
  | None => None
  end.

(** The body of the outer loop, for one [part]. *)
Definition parse_part (part : pystr) : option Node :=
  match re_match_group (lit "(") (set is_lower) (lit ")" >> star is_space)
                       part with
  | None => None
  | Some (sub_id, e) =>
      let content := skipn e part in
      let '(direct_text, remaining) :=
        match re_search re_numbered content with
        | Some (i, _) => (strip (firstn i content), skipn i content)
        | None => (strip content, [])
        end in
      let children :=
        if truthy remaining
        then filter_map parse_child
               (tl (re_split (ahead (re_numbered >> set is_space)) remaining))
        else [] in
      let direct_text :=
        match re_search re_lettered direct_text with
        | Some (i, _) => strip (firstn i direct_text)
        | None => direct_text
        end in
      Some (mkNode sub_id (firstn 2000 direct_text) children)
  end.

Definition parse_subsections (text : pystr) : list Node :=
  filter_map parse_part
    (tl (re_split (ahead (re_lettered >> set is_space)) text)).

(** ** The document tree builder *)

Definition AKN_NS : pystr := py "http://docs.oasis-open.org/legaldocml/ns/akn/3.0".

(** The qualified tag [f"{{{AKN_NS}}}name"]. *)
Definition akn (name : string) : pystr := py "{" ++ AKN_NS ++ py "}" ++ py name.

(** An element of the target namespace with the attributes set on it (in
    the order of the [set] calls), its text and its children. *)
Definition elem (name : string) (attrs : list (pystr * pystr))
    (text : option pystr) (children : list ET.Element) : ET.Element :=
  ET.mkElement (akn name) attrs text children.

(** [e.set(key, value)] on a new key. *)
Definition attr (key : string) (value : pystr) : pystr * pystr :=
  (py key, value).

(** The [subsection] element that [add_subsection_element] builds. *)
Definition subsection_element (sub : Node) (section_num : pystr) : ET.Element :=
  let sub_id := identifier sub in
  let eid := py "sec_" ++ section_num ++ py "__subsec_" ++ sub_id in
  let subsec_elem :=
    elem "subsection" [attr "eId" eid] None
      [ elem "num" [] (Some (py "(" ++ sub_id ++ py ")")) [];
        elem "content" [] None [elem "p" [] (Some (text sub)) []] ] in
  fold_left
    (fun subsec_elem child =>
       let child_id := identifier child in
       let child_eid := eid ++ py "__para_" ++ child_id in
       ET.append subsec_elem
         (elem "paragraph" [attr "eId" child_eid] None
            [ elem "num" [] (Some (py "(" ++ child_id ++ py ")")) [];
              elem "content" [] None [elem "p" [] (Some (text child)) []] ]))
    (children sub) subsec_elem.

Definition add_subsection_element (parent : ET.Element) (sub : Node)
    (section_num : pystr) : ET.Element :=
  ET.append parent (subsection_element sub section_num).

(** [^(.+?)(?=\([a-z]\))] under [re.DOTALL], matched at the start: the
    text of group 1 and the end of the match. *)
Definition re_intro (text : pystr) : option (pystr * nat) :=
  re_match_group eps (plus_lazy (fun _ => true)) (ahead re_lettered) text.

(** The [section] element that [add_section_element] builds. *)
Definition section_element (section : SectionRecord) : ET.Element :=
  let section_num := section_number section in
  let eid := create_eid section_num in
  let sec_elem :=
    elem "section" [attr "eId" eid] None [elem "num" [] (Some section_num) []] in
  let sec_elem :=
    if truthy (title section)
    then ET.append sec_elem (elem "heading" [] (Some (title section)) [])
    else sec_elem in
  let text := body section in
  let subsections := subsections section in
  let sec_elem :=
    if truthy subsections then
      let sec_elem :=
        match re_intro text with
        | Some (group1, _) =>
            ET.append sec_elem
              (elem "intro" [] None
                 [elem "p" [] (Some (firstn 500 (strip group1))) []])
        | None => sec_elem
        end in
      fold_left (fun sec_elem sub => add_subsection_element sec_elem sub section_num)
                subsections sec_elem
    else
      ET.append sec_elem
        (elem "content" [] None [elem "p" [] (Some (firstn 5000 text)) []]) in
  if truthy (history section)
  then ET.append sec_elem
         (elem "notes" [] None
            [elem "note" [attr "type" (py "history")] None
               [elem "p" [] (Some (firstn 1000 (history section))) []]])
  else sec_elem.

Definition add_section_element (parent : ET.Element) (section : SectionRecord)
  : ET.Element :=
  ET.append parent (section_element section).

(** The dict [chapters], in insertion order: [chapters[k].append(v)]
    after [chapters[k] = []] when [k] is new. *)
Fixpoint dict_append {A} (k : pystr) (v : A) (d : list (pystr * list A))
  : list (pystr * list A) :=
  match d with
  | [] => [(k, [v])]
  | (k', l) :: d' =>
      if str_eqb k' k then (k', l ++ [v]) :: d'
      else (k', l) :: dict_append k v d'
  end.

(** [sorted(d.items())]: the keys of a dict are distinct, so the pairs
    are ordered by their keys alone. *)
Fixpoint insert_item {A} (x : pystr * A) (l : list (pystr * A))
  : list (pystr * A) :=
  match l with
  | [] => [x]
  | y :: l' => if str_ltb (fst y) (fst x) then y :: insert_item x l'
               else x :: l
  end.

Definition sorted_items {A} (d : list (pystr * A)) : list (pystr * A) :=
  fold_right insert_item [] d.

(** The metadata block. [today] is the value of [date.today()]. *)
Definition meta_element (today : date) (title_num : Z) : ET.Element :=
  let t := str_of_int title_num in
  let work_uri := py "/akn/us-ga/act/ocga/title-" ++ t in
  let expr_uri := work_uri ++ py "/eng@2018-12-01" in
  let manif_uri := expr_uri ++ py "/main.xml" in
  elem "meta" [] None
    [ elem "identification" [attr "source" (py "#cosilico")] None
        [ elem "FRBRWork" [] None
            [ elem "FRBRthis" [attr "value" work_uri] None [];
              elem "FRBRuri" [attr "value" work_uri] None [];
              elem "FRBRdate" [attr "date" (py "2018-12-01");
                               attr "name" (py "publication")] None [];
              elem "FRBRauthor" [attr "href" (py "#ga-legislature")] None [];
              elem "FRBRcountry" [attr "value" (py "us-ga")] None [];
              elem "FRBRnumber" [attr "value" t] None [] ];
          elem "FRBRExpression" [] None
            [ elem "FRBRthis" [attr "value" expr_uri] None [];
              elem "FRBRuri" [attr "value" expr_uri] None [];
              elem "FRBRdate" [attr "date" (py "2018-12-01");
                               attr "name" (py "publication")] None [];
              elem "FRBRauthor" [attr "href" (py "#cosilico")] None [];
              elem "FRBRlanguage" [attr "language" (py "eng")] None [] ];
          elem "FRBRManifestation" [] None
            [ elem "FRBRthis" [attr "value" manif_uri] None [];
              elem "FRBRuri" [attr "value" manif_uri] None [];
              elem "FRBRdate" [attr "date" (isoformat today);
                               attr "name" (py "generation")] None [];
              elem "FRBRauthor" [attr "href" (py "#cosilico")] None [] ] ];
      elem "publication" [attr "date" (py "2018-12-01");
                          attr "name" (py "Official Code of Georgia Annotated");
                          attr "showAs" (py "OCGA")] None [];
      elem "references" [] None
        [ elem "TLCOrganization"
            [attr "eId" (py "ga-legislature");
             attr "href" (py "/ontology/organization/us-ga/legislature");
             attr "showAs" (py "Georgia General Assembly")] None [];
          elem "TLCOrganization"
            [attr "eId" (py "cosilico");
             attr "href" (py "https://cosilico.ai");
             attr "showAs" (py "Cosilico")] None [] ] ].

(** The loop that groups the sections by chapter. *)
Definition group_by_chapter (sections : list SectionRecord)
  : list (pystr * list SectionRecord) :=
  fold_left (fun chapters section =>
               dict_append (chapter section) section chapters)
            sections [].

(** The [chapter] element built for one item of the sorted chapters. *)
Definition chapter_element (title_num : Z) (chapter_num : pystr)
    (chapter_sections : list SectionRecord) : ET.Element :=
  let chapter_elem :=
    elem "chapter"
      [attr "eId" (py "chp_" ++ str_of_int title_num ++ py "-" ++ chapter_num)]
      None
      [elem "num" [] (Some (py "Chapter " ++ chapter_num)) []] in
  let chapter_title :=
    match chapter_sections with
    | s :: _ => chapter_title s
    | [] => []
    end in
  let chapter_elem :=
    if truthy chapter_title
    then ET.append chapter_elem (elem "heading" [] (Some chapter_title) [])
    else chapter_elem in
  fold_left add_section_element chapter_sections chapter_elem.

(** One round of the loop over the sorted chapters. *)
Definition add_chapter (title_num : Z) (body : ET.Element)
    (item : pystr * list SectionRecord) : ET.Element :=
  let '(chapter_num, chapter_sections) := item in
  if negb (truthy chapter_num) then body
  else ET.append body (chapter_element title_num chapter_num chapter_sections).

(** [create_akn_document].  [ET.register_namespace] only records the
    prefix used when the tree is serialized; it leaves the tree alone. *)
Definition create_akn_document (today : date) (title_num : Z)
    (sections : list SectionRecord) : ET.Element :=
  let meta := meta_element today title_num in
  let body := elem "body" [] None [] in
  let chapters := group_by_chapter sections in
  let body := fold_left (add_chapter title_num) (sorted_items chapters) body in
  elem "akomaNtoso" [] None [elem "act" [] None [meta; body]].

(** ** [parse_source_xml] *)

(** [elem.text.strip() if elem is not None and elem.text else ""] *)
Definition stripped_text (child : option (option pystr)) : pystr :=
  match child with
  | Some (Some t) => if truthy t then strip t else []
  | _ => []
  end.

(** The body of the loop over [root.iter("Index")] for one element:
    [Some None] when the element is skipped, [None] when the normalizer
    raises. *)
Definition parse_index (index : Index) : option (option SectionRecord) :=
  let level := Level index in
  if negb (str_eqb level (py "3") || str_eqb level (py "4")) then Some None
  else
    match Caption index with
    | Some (Some caption) =>
        if negb (truthy caption) then Some None
        else
          let caption_text := strip caption in
          match re_search re_three_part caption_text with
          | None => Some None
          | Some _ =>
              let section_number := extract_section_number caption_text in
              let title := stripped_text (Description index) in
              let content :=
                match Content index with
                | Some (Some t) =>
                    if truthy t then clean_html_content t else Some []
                | _ => Some []
                end in
              match content with
              | None => None
              | Some content =>
                  let history := stripped_text (RevisionHistory index) in
                  let parts := Py.split 45%N section_number in
                  let chapter :=
                    if (1 <? length parts) then nth 1 parts [] else [] in
                  let subsections := parse_subsections content in
                  Some (Some (mkSection section_number title content history
                                        chapter [] subsections))
              end
          end
    | _ => Some None
    end.

(** [parse_source_xml], on the [Index] elements of the document in
    document order. *)
Fixpoint parse_source_xml (root : list Index) : option (list SectionRecord) :=
  match root with
  | [] => Some []
  | index :: rest =>
      match parse_index index with
      | None => None
      | Some r =>
          match parse_source_xml rest with
          | None => None
          | Some sections =>
              Some (match r with Some s => s :: sections | None => sections end)
          end
      end
  end.

End Converter.

(* ================================================================== *)
(** * The batch driver *)

(** A file of the source directory: its name, the [Index] elements of its
    tree in document order ([None] when [ET.parse] raises), and the value
    of [date.today()] at the time the file is converted. *)
Record SourceFile := mkSourceFile {
  file_name : pystr;
  file_root : option (list Index);
  file_day : date
}.

(** The [stats] dict. *)
Record Stats := mkStats {
  titles_processed : nat;
  sections_converted : nat;
  files_written : nat
}.

(** What a run has done so far: the counters, and the calls of
    [write_text] that succeeded, in order, as pairs of a file name in the
    output directory and the text written. *)
Record Run := mkRun {
  stats : Stats;
  written : list (pystr * pystr)
}.

(** What happens to one source file in the loop of [main]. *)
Inductive Outcome :=
| Skipped
| NoSections
| Raised
| Wrote (output_file xml_str : pystr) (count : nat).

(** The value of a decimal digit of any script. *)
Definition decimal_value (c : char) : N :=
  match find (fun b => (b <=? c) && (c <? b + 10))%N decimal_blocks with
  | Some b => (c - b)%N
  | None => 0%N
  end.

(** [fnmatch] of a name against ["gov.ga.ocga.2018.title.*.xml"]. *)
Definition glob_title (n : pystr) : bool :=
  prefix_by N.eqb (py "gov.ga.ocga.2018.title.") n
  && prefix_by N.eqb (rev (py ".xml")) (rev n)
  && (length (py "gov.ga.ocga.2018.title.") + length (py ".xml")
      <=? length n).

(** Group 1 of [re.search(r"title\.(\d+)\.xml$", name)]. *)
Definition title_group (n : pystr) : option pystr :=
  re_search_group (lit "title.") (plus is_digit) (lit ".xml" >> re_end) n.

(** [f"us-ga-title-{title_num:02d}.akn.xml"] *)
Definition output_name (title_num : Z) : pystr :=
  py "us-ga-title-" ++ zfill 2 (str_of_int title_num) ++ py ".akn.xml".

(** The XML declaration that [main] puts in front of a text that lacks
    one. *)
Definition xml_declaration : pystr :=
  py "<?xml version=" ++ [34%N] ++ py "1.0" ++ [34%N]
  ++ py " encoding=" ++ [34%N] ++ py "UTF-8" ++ [34%N] ++ py "?>" ++ [nl].

Section Driver.

Variable html5 : pystr -> option pystr.
Variable int_max_str_digits : nat.

(** [pretty_print_xml]: the text [minidom] prints for a tree, [None]
    when it raises. *)
Variable pretty_print_xml : ET.Element -> option pystr.

(** [output_file.write_text(xml_str)]: [false] when the write raises. *)
Variable write_text : pystr -> pystr -> bool.

(** [int(match.group(1))], with the interpreter's length limit. *)
Definition int_title (ds : pystr) : option Z :=
  if nonzero int_max_str_digits && (int_max_str_digits <? length ds)
  then None
  else Some (Z.of_N (fold_left (fun a c => (a * 10 + decimal_value c)%N)
                               ds 0%N)).

(** The body of the [try] block: [Raised] stands for any exception, which
    the handler catches. *)
Definition convert_file (f : SourceFile) (title_num : Z) : Outcome :=
  match file_root f with
  | None => Raised
  | Some root =>
      match parse_source_xml html5 int_max_str_digits root with
      | None => Raised
      | Some sections =>
          if negb (truthy sections) then NoSections
          else
            let akn_doc :=
              create_akn_document (file_day f) title_num sections in
            let output_file := output_name title_num in
            match pretty_print_xml akn_doc with
            | None => Raised
            | Some xml_str =>
                let xml_str :=
                  if negb (prefix_by N.eqb (py "<?xml") xml_str)
                  then xml_declaration ++ xml_str else xml_str in
                if write_text output_file xml_str
                then Wrote output_file xml_str (length sections)
                else Raised
            end
      end
  end.

(** One round of the loop over the source files; [None] when [int]
    raises, which nothing catches. *)
Definition process_file (f : SourceFile) : option Outcome :=
  match title_group (file_name f) with
  | None => Some Skipped
  | Some group1 =>
      match int_title group1 with
      | None => None
      | Some title_num => Some (convert_file f title_num)
      end
  end.

Definition record_outcome (r : Run) (o : Outcome) : Run :=
  match o with
  | Wrote output_file xml_str count =>
      mkRun (mkStats (titles_processed (stats r) + 1)
                     (sections_converted (stats r) + count)
                     (files_written (stats r) + 1))
            (written r ++ [(output_file, xml_str)])
  | _ => r
  end.

(** The loop of [main]: the state it reaches, and whether it reached the
    summary ([false] when [int] raised on the way). *)
Fixpoint main_loop (xml_files : list SourceFile) (r : Run) : Run * bool :=
  match xml_files with
  | [] => (r, true)
  | f :: rest =>
      match process_file f with
      | None => (r, false)
      | Some o => main_loop rest (record_outcome r o)
      end
  end.

(** [main], on the files of the source directory: the files it writes
    and the counters of its summary.  The calls of [print] and the creation
    of the output directory are taken to succeed and are left out. *)
Definition main (source_dir : list SourceFile) : Run * bool :=
  let xml_files :=
    map snd
      (sorted_items
         (map (fun f => (file_name f, f))
              (filter (fun f => glob_title (file_name f)) source_dir))) in
  main_loop xml_files (mkRun (mkStats 0 0 0) []).

End Driver.

(* ================================================================== *)
(** * Properties *)

Arguments py : simpl never.
Arguments akn : simpl never.
Arguments AKN_NS : simpl never.

(** ** Element trees *)

Lemma append_spec (e c : ET.Element) :
  ET.append e c =
  ET.mkElement (ET.tag e) (ET.attrib e) (ET.text e) (ET.children e ++ [c]).
Proof. reflexivity. Qed.

(** A loop of [SubElement] calls on one parent appends the new elements
    in order and leaves the rest of the parent alone. *)
Lemma fold_left_append {A} (f : A -> ET.Element) (l : list A) (e : ET.Element) :
  fold_left (fun e x => ET.append e (f x)) l e =
  ET.mkElement (ET.tag e) (ET.attrib e) (ET.text e) (ET.children e ++ map f l).
Proof.
  revert e; induction l as [|x l IH]; intros e.
  - destruct e; simpl. now rewrite app_nil_r.
  - simpl fold_left. rewrite IH. simpl. now rewrite <- app_assoc.
Qed.

Definition text_len (e : ET.Element) : nat :=
  match ET.text e with Some t => length t | None => 0 end.

(** The elements reached from [e] along a path of tags, as
    [e.findall("a/b/c")] lists them. *)
Fixpoint findall_path (path : list pystr) (e : ET.Element) : list ET.Element :=
  match path with
  | [] => [e]
  | t :: path' => flat_map (findall_path path') (ET.findall t e)
  end.

(** The children of a [section] element: number, heading, then the intro
    and the subsections or the flat content, then the history note. *)
Definition heading_part (section : SectionRecord) : list ET.Element :=
  if truthy (title section)
  then [elem "heading" [] (Some (title section)) []] else [].

Definition intro_part (section : SectionRecord) : list ET.Element :=
  match re_intro (body section) with
  | Some (group1, _) =>
      [elem "intro" [] None [elem "p" [] (Some (firstn 500 (strip group1))) []]]
  | None => []
  end.

Definition content_part (section : SectionRecord) : list ET.Element :=
  [elem "content" [] None [elem "p" [] (Some (firstn 5000 (body section))) []]].

Definition notes_part (section : SectionRecord) : list ET.Element :=
  if truthy (history section)
  then [elem "notes" [] None
          [elem "note" [attr "type" (py "history")] None
             [elem "p" [] (Some (firstn 1000 (history section))) []]]]
  else [].

Lemma section_element_children (section : SectionRecord) :
  ET.children (section_element section) =
  [elem "num" [] (Some (section_number section)) []]
  ++ heading_part section
  ++ (if truthy (subsections section)
      then intro_part section
           ++ map (fun sub => subsection_element sub (section_number section))
                  (subsections section)
      else content_part section)
  ++ notes_part section.
Proof.
  unfold section_element, heading_part, intro_part, content_part, notes_part,
    add_subsection_element.
  rewrite fold_left_append.
  destruct (truthy (title section)), (truthy (subsections section)),
    (re_intro (body section)) as [[g e]|], (truthy (history section));
    cbn [ET.children ET.append elem app]; rewrite ?app_nil_r; reflexivity.
Qed.

Lemma section_element_attrib (section : SectionRecord) :
  ET.attrib (section_element section) =
  [attr "eId" (create_eid (section_number section))].
Proof.
  unfold section_element, add_subsection_element.
  rewrite fold_left_append.
  destruct (truthy (title section)), (truthy (subsections section)),
    (re_intro (body section)) as [[g e]|], (truthy (history section));
    reflexivity.
Qed.

Lemma subsection_element_spec (sub : Node) (section_num : pystr) :
  let eid := py "sec_" ++ section_num ++ py "__subsec_" ++ identifier sub in
  subsection_element sub section_num =
  elem "subsection" [attr "eId" eid] None
    ([ elem "num" [] (Some (py "(" ++ identifier sub ++ py ")")) [];
       elem "content" [] None [elem "p" [] (Some (text sub)) []] ]
     ++ map (fun child =>
               elem "paragraph"
                 [attr "eId" (eid ++ py "__para_" ++ identifier child)] None
                 [ elem "num" [] (Some (py "(" ++ identifier child ++ py ")")) [];
                   elem "content" [] None
                     [elem "p" [] (Some (text child)) []] ])
            (children sub)).
Proof.
  intros eid. unfold subsection_element. fold eid.
  now rewrite fold_left_append.
Qed.

Lemma str_eqb_refl (s : pystr) : str_eqb s s = true.
Proof. induction s; simpl; [|rewrite N.eqb_refl]; auto. Qed.

Lemma str_eqb_eq (a b : pystr) : str_eqb a b = true <-> a = b.
Proof.
  split; [|intros ->; apply str_eqb_refl].
  revert b; induction a as [|x a IH]; destruct b as [|y b]; simpl;
    try discriminate; auto.
  intros H. apply andb_true_iff in H as [H1 H2].
  apply N.eqb_eq in H1. f_equal; auto.
Qed.

Lemma str_eqb_app_same (p a b : pystr) : str_eqb (p ++ a) (p ++ b) = str_eqb a b.
Proof. induction p; simpl; [|rewrite N.eqb_refl]; auto. Qed.

Lemma py_eqb (a b : string) : str_eqb (py a) (py b) = String.eqb a b.
Proof.
  unfold py. revert b; induction a as [|x a IH]; destruct b as [|y b];
    simpl; auto.
  rewrite IH.
  destruct (Ascii.eqb_spec x y) as [->|Hne]; [now rewrite N.eqb_refl|].
  replace (N_of_ascii x =? N_of_ascii y)%N with false; [reflexivity|].
  symmetry. apply N.eqb_neq. intros H. apply Hne.
  rewrite <- (ascii_N_embedding x), <- (ascii_N_embedding y). now rewrite H.
Qed.

Lemma akn_eqb (a b : string) : str_eqb (akn a) (akn b) = String.eqb a b.
Proof. unfold akn. now rewrite !str_eqb_app_same, py_eqb. Qed.

Lemma findall_elem (t name : string) attrs text children :
  ET.findall (akn t) (elem name attrs text children) =
  filter (fun c => str_eqb (ET.tag c) (akn t)) children.
Proof. reflexivity. Qed.

Lemma tag_subsection_element sub s :
  ET.tag (subsection_element sub s) = akn "subsection".
Proof. now rewrite subsection_element_spec. Qed.

Lemma filter_tag_map {A} (f : A -> ET.Element) (t : pystr) (b : bool) (l : list A) :
  (forall x, str_eqb (ET.tag (f x)) t = b) ->
  filter (fun c => str_eqb (ET.tag c) t) (map f l) = if b then map f l else [].
Proof.
  intros H. induction l as [|x l IH]; simpl.
  - now destruct b.
  - rewrite H, IH. now destruct b.
Qed.

(** Evaluates the tag tests of [findall] on the parts of a section. *)
Ltac tag_tests :=
  repeat (rewrite ?filter_app; cbn [filter ET.tag elem app flat_map map
                                    findall_path ET.findall ET.children];
          rewrite ?akn_eqb; cbn [String.eqb Ascii.eqb Bool.eqb]).

Lemma findall_section (t : string) (section : SectionRecord) :
  ET.findall (akn t) (section_element section) =
  filter (fun c => str_eqb (ET.tag c) (akn t))
         (ET.children (section_element section)).
Proof. reflexivity. Qed.

(** ** C1 *)

(** C1: on the text ["(a) First. (1) One. (2) Two. (b) Second."] the
    hierarchy parser returns exactly two depth-1 nodes, in this order:
    [a] with text ["First."] and the two children [1] (["One."]) and [2]
    (["Two."]), then [b] with text ["Second."] and no children. *)
Theorem parse_subsections_example :
  parse_subsections (py "(a) First. (1) One. (2) Two. (b) Second.") =
  [ mkNode (py "a") (py "First.")
      [ mkNode (py "1") (py "One.") []; mkNode (py "2") (py "Two.") [] ];
    mkNode (py "b") (py "Second.") [] ].
Proof. vm_compute. reflexivity. Qed.

(** ** C2 *)

Definition eId (e : ET.Element) : option pystr := ET.get e "eId".

(** C2: the section element of a record with section number [s] has the
    identifier ["sec_" + s]; its subsection elements are those of the
    record's subsections, in order, and the one with marker [m] has the
    identifier ["sec_" + s + "__subsec_" + m]; the paragraph elements of
    that subsection are those of its children, in order, and the one with
    marker [p] has the subsection's identifier followed by ["__para_" + p].
    For section number ["48-1-2"] with the single subsection ["a"] the
    identifiers are ["sec_48-1-2"] and ["sec_48-1-2__subsec_a"]. *)
Theorem identifier_derivation :
  (forall section : SectionRecord,
     let s := section_number section in
     eId (section_element section) = Some (py "sec_" ++ s)
     /\ ET.findall (akn "subsection") (section_element section)
        = map (fun sub => subsection_element sub s) (subsections section)
     /\ forall sub : Node,
          let sub_eid := py "sec_" ++ s ++ py "__subsec_" ++ identifier sub in
          eId (subsection_element sub s) = Some sub_eid
          /\ map eId (ET.findall (akn "paragraph") (subsection_element sub s))
             = map (fun child => Some (sub_eid ++ py "__para_" ++ identifier child))
                   (children sub))
  /\ (forall title body history chapter chapter_title text,
        let section :=
          mkSection (py "48-1-2") title body history chapter chapter_title
                    [mkNode (py "a") text []] in
        eId (section_element section) = Some (py "sec_48-1-2")
        /\ map eId (ET.findall (akn "subsection") (section_element section))
           = [Some (py "sec_48-1-2__subsec_a")]).
Proof.
  assert (Hsec : forall section,
             eId (section_element section)
             = Some (py "sec_" ++ section_number section)).
  { intros section. unfold eId, ET.get. rewrite section_element_attrib.
    unfold attr. cbn [ET.lookup]. now rewrite str_eqb_refl. }
  assert (Hsub : forall sub s,
             eId (subsection_element sub s)
             = Some (py "sec_" ++ s ++ py "__subsec_" ++ identifier sub)).
  { intros sub s. unfold eId, ET.get. rewrite subsection_element_spec.
    unfold attr. cbn [ET.lookup elem ET.attrib]. now rewrite str_eqb_refl. }
  assert (Hall : forall section,
             ET.findall (akn "subsection") (section_element section)
             = map (fun sub => subsection_element sub (section_number section))
                   (subsections section)).
  { intros section. rewrite findall_section, section_element_children.
    unfold heading_part, intro_part, content_part, notes_part.
    destruct (truthy (title section)), (subsections section) as [|sub subs] eqn:Es,
      (re_intro (body section)) as [[g e]|], (truthy (history section));
      cbn [truthy]; tag_tests; rewrite ?app_nil_r; try reflexivity;
      rewrite ?tag_subsection_element, ?akn_eqb; cbn [String.eqb Ascii.eqb Bool.eqb];
      f_equal;
      (rewrite (@filter_tag_map _ _ _ true);
       [reflexivity | intros x; now rewrite tag_subsection_element, akn_eqb]). }
  split.
  - intros section s. split; [apply Hsec|]. split; [apply Hall|].
    intros sub sub_eid. split; [apply Hsub|].
    rewrite subsection_element_spec. fold sub_eid.
    rewrite findall_elem. tag_tests.
    rewrite (@filter_tag_map _ _ _ true) by (intros x; cbn [ET.tag elem]; now rewrite akn_eqb).
    rewrite map_map. apply map_ext. intros child.
    unfold eId, ET.get, attr. cbn [ET.lookup elem ET.attrib].
    now rewrite str_eqb_refl.
  - intros title body history chapter chapter_title text section.
    split; [apply Hsec|].
    rewrite Hall. cbn [subsections section map]. now rewrite Hsub.
Qed.

(** ** C3 *)

(** The [date] attribute of the manifestation's [FRBRdate]. *)
Definition generation_date (doc : ET.Element) : list (option pystr) :=
  map (fun e => ET.get e "date")
      (findall_path [akn "act"; akn "meta"; akn "identification";
                     akn "FRBRManifestation"; akn "FRBRdate"] doc).

Definition document_body (doc : ET.Element) : list ET.Element :=
  findall_path [akn "act"; akn "body"] doc.

Lemma tag_fold_add_chapter title_num l b :
  ET.tag (fold_left (add_chapter title_num) l b) = ET.tag b.
Proof.
  revert b; induction l as [|[k v] l IH]; intros b; [reflexivity|].
  simpl fold_left. rewrite IH. unfold add_chapter.
  now destruct (negb (truthy k)).
Qed.

Ltac walk_document :=
  repeat (cbn [findall_path ET.findall flat_map filter ET.children elem ET.tag
               app map];
          rewrite ?tag_fold_add_chapter;
          rewrite ?akn_eqb; cbn [String.eqb Ascii.eqb Bool.eqb]).

Lemma generation_date_spec today title_num sections :
  generation_date (create_akn_document today title_num sections)
  = [Some (isoformat today)].
Proof.
  unfold generation_date, create_akn_document, meta_element.
  walk_document.
  unfold ET.get, attr. cbn [ET.lookup elem ET.attrib].
  now rewrite str_eqb_refl.
Qed.

Lemma document_body_spec today title_num sections :
  document_body (create_akn_document today title_num sections)
  = [fold_left (add_chapter title_num)
               (sorted_items (group_by_chapter sections))
               (elem "body" [] None [])].
Proof.
  unfold document_body, create_akn_document, meta_element.
  walk_document. reflexivity.
Qed.

(** C3, as the claim states it, fails: two runs on the same title and
    the same (empty) record sequence on two consecutive days give different
    trees. *)
Lemma create_akn_document_depends_on_date :
  create_akn_document (mkDate 2026 11 3) 48 []
  <> create_akn_document (mkDate 2026 11 4) 48 [].
Proof.
  intros H. apply (f_equal generation_date) in H.
  rewrite !generation_date_spec in H. vm_compute in H. discriminate H.
Qed.

(** [e.set(key, value)] on the attributes of an element: the value of an
    existing key is replaced in place, a new key comes last. *)
Fixpoint set_attribute (key value : pystr) (d : list (pystr * pystr))
  : list (pystr * pystr) :=
  match d with
  | [] => [(key, value)]
  | (k, v) :: d' =>
      if str_eqb k key then (k, value) :: d'
      else (k, v) :: set_attribute key value d'
  end.

(** The tree [e] with [f] applied to the elements reached along a path
    of tags, and nothing else changed. *)
Fixpoint update_path (path : list pystr) (f : ET.Element -> ET.Element)
    (e : ET.Element) : ET.Element :=
  match path with
  | [] => f e
  | t :: path' =>
      ET.mkElement (ET.tag e) (ET.attrib e) (ET.text e)
        (map (fun c => if str_eqb (ET.tag c) t then update_path path' f c else c)
             (ET.children e))
  end.

(** The document [doc] with the [date] attribute of the manifestation's
    [FRBRdate] set to [d]. *)
Definition set_generation_date (d : pystr) (doc : ET.Element) : ET.Element :=
  update_path [akn "act"; akn "meta"; akn "identification";
               akn "FRBRManifestation"; akn "FRBRdate"]
    (fun e => ET.mkElement (ET.tag e) (set_attribute (py "date") d (ET.attrib e))
                           (ET.text e) (ET.children e))
    doc.

Lemma set_generation_date_spec (d1 d2 : date) (title_num : Z)
    (sections : list SectionRecord) :
  set_generation_date (isoformat d2)
    (create_akn_document d1 title_num sections)
  = create_akn_document d2 title_num sections.
Proof.
  unfold set_generation_date, create_akn_document, meta_element.
  repeat (cbn [update_path map ET.children ET.tag ET.attrib ET.text elem];
          rewrite ?tag_fold_add_chapter;
          rewrite ?akn_eqb; cbn [String.eqb Ascii.eqb Bool.eqb]).
  unfold attr. cbn [set_attribute]. now rewrite str_eqb_refl.
Qed.

(** C3 (amended): the tree built by [create_akn_document] is a function
    of the title number, the section records and the current date, and
    the date reaches one attribute only.  The manifestation's [FRBRdate]
    carries the ISO form of the current date; the tree of a run on another
    day is the tree of this run with that one attribute set to the ISO
    form of the other day, every other element, attribute and text being
    the same; so two runs on the same title and records build identical
    trees exactly when their dates have the same ISO form, and the body of
    the document does not depend on the date. *)
Theorem create_akn_document_deterministic :
  forall (d1 d2 : date) (title_num : Z) (sections : list SectionRecord),
    generation_date (create_akn_document d1 title_num sections)
      = [Some (isoformat d1)]
    /\ create_akn_document d2 title_num sections
       = set_generation_date (isoformat d2)
           (create_akn_document d1 title_num sections)
    /\ (create_akn_document d1 title_num sections
          = create_akn_document d2 title_num sections
        <-> isoformat d1 = isoformat d2)
    /\ document_body (create_akn_document d1 title_num sections)
       = document_body (create_akn_document d2 title_num sections).
Proof.
  intros d1 d2 title_num sections. split; [apply generation_date_spec|].
  split; [symmetry; apply set_generation_date_spec|]. split.
  - split.
    + intros H. apply (f_equal generation_date) in H.
      rewrite !generation_date_spec in H. now injection H.
    + intros H. unfold create_akn_document, meta_element. now rewrite H.
  - now rewrite !document_body_spec.
Qed.

(** ** C6 *)

Lemma in_filter_map {A B} (f : A -> option B) (l : list A) (y : B) :
  In y (filter_map f l) <-> exists x, In x l /\ f x = Some y.
Proof.
  unfold filter_map. rewrite in_flat_map. split.
  - intros (x & Hx & Hy). exists x. split; [exact Hx|].
    destruct (f x) as [z|]; [destruct Hy as [->|[]]; reflexivity|destruct Hy].
  - intros (x & Hx & Hy). exists x. split; [exact Hx|]. rewrite Hy. now left.
Qed.

Lemma Some_inj {A} (a b : A) : Some a = Some b -> a = b.
Proof. now intros [= ->]. Qed.

Lemma parse_child_text (num_part : pystr) (c : Node) :
  parse_child num_part = Some c ->
  length (text c) <= 2000 /\ children c = [].
Proof.
  unfold parse_child.
  destruct (re_match_group _ _ _ num_part) as [[num_id e]|]; [|discriminate].
  intros H; apply Some_inj in H; subst c. cbn [text children].
  split; [apply firstn_le_length|reflexivity].
Qed.

Lemma parse_part_text (part : pystr) (n : Node) :
  parse_part part = Some n ->
  length (text n) <= 2000
  /\ Forall (fun c => length (text c) <= 2000) (children n).
Proof.
  unfold parse_part.
  destruct (re_match_group _ _ _ part) as [[sub_id e]|]; [|discriminate].
  destruct (re_search re_numbered (skipn e part)) as [[i k]|];
    intros H; apply Some_inj in H; subst n; cbn [text children];
    (split; [apply firstn_le_length|]).
  - destruct (truthy (skipn i (skipn e part))); [|constructor].
    apply Forall_forall. intros c Hc.
    apply in_filter_map in Hc as (p & _ & Hp).
    now apply parse_child_text in Hp.
  - constructor.
Qed.

Lemma parse_subsections_text (txt : pystr) (n : Node) :
  In n (parse_subsections txt) ->
  length (text n) <= 2000
  /\ Forall (fun c => length (text c) <= 2000) (children n).
Proof.
  unfold parse_subsections. intros H.
  apply in_filter_map in H as (p & _ & Hp). now apply parse_part_text in Hp.
Qed.

Lemma findall_path_section (t : string) (path : list pystr) section :
  findall_path (akn t :: path) (section_element section) =
  flat_map (findall_path path)
    (filter (fun c => str_eqb (ET.tag c) (akn t))
            (ET.children (section_element section))).
Proof. reflexivity. Qed.

Lemma filter_subsection_elements (t : string) (s : pystr) (subs : list Node) :
  filter (fun c => str_eqb (ET.tag c) (akn t))
         (map (fun sub => subsection_element sub s) subs)
  = if String.eqb "subsection" t
    then map (fun sub => subsection_element sub s) subs else [].
Proof.
  apply filter_tag_map. intros x. now rewrite tag_subsection_element, akn_eqb.
Qed.

Lemma Forall_flat_map_intro {A B} (P : B -> Prop) (f : A -> list B) (l : list A) :
  (forall x, In x l -> Forall P (f x)) -> Forall P (flat_map f l).
Proof.
  intros H. apply Forall_forall. intros y Hy.
  apply in_flat_map in Hy as (x & Hx & Hy).
  specialize (H x Hx). rewrite Forall_forall in H. auto.
Qed.

Lemma subsection_content_p (sub : Node) (s : pystr) :
  findall_path [akn "content"; akn "p"] (subsection_element sub s)
  = [elem "p" [] (Some (text sub)) []].
Proof.
  rewrite subsection_element_spec. tag_tests.
  rewrite (@filter_tag_map _ _ _ false)
    by (intros x; cbn [ET.tag elem]; now rewrite akn_eqb).
  reflexivity.
Qed.

Lemma subsection_paragraph_p (sub : Node) (s : pystr) :
  findall_path [akn "paragraph"; akn "content"; akn "p"] (subsection_element sub s)
  = map (fun child => elem "p" [] (Some (text child)) []) (children sub).
Proof.
  rewrite subsection_element_spec. tag_tests.
  rewrite (@filter_tag_map _ _ _ true)
    by (intros x; cbn [ET.tag elem]; now rewrite akn_eqb).
  induction (children sub) as [|c l IH]; [reflexivity|].
  cbn [map flat_map]. rewrite IH. tag_tests. reflexivity.
Qed.

Ltac forall_list := repeat first [apply Forall_nil | apply Forall_cons].

Ltac section_parts section :=
  rewrite findall_path_section, section_element_children;
  unfold heading_part, intro_part, content_part, notes_part;
  destruct (truthy (title section)), (truthy (subsections section)),
    (re_intro (body section)) as [[?g ?e]|], (truthy (history section));
  rewrite ?filter_app, ?filter_subsection_elements;
  tag_tests; rewrite ?app_nil_r.

(** C6: no emitted text field exceeds its maximum, whatever the input:
    the text of every node the parser returns, and of every child of such
    a node, has at most 2000 characters; in the section element of any
    record, the intro text has at most 500 characters, the flat content at
    most 5000 and the history note at most 1000; and when the subsections
    of the record are those the parser returned for some text, the text of
    every subsection and paragraph element has at most 2000 characters. *)
Theorem truncation_laws :
  (forall (txt : pystr) (n : Node),
     In n (parse_subsections txt) ->
     length (text n) <= 2000
     /\ Forall (fun c => length (text c) <= 2000) (children n))
  /\ (forall section : SectionRecord,
        Forall (fun p => text_len p <= 500)
               (findall_path [akn "intro"; akn "p"] (section_element section))
        /\ Forall (fun p => text_len p <= 5000)
               (findall_path [akn "content"; akn "p"] (section_element section))
        /\ Forall (fun p => text_len p <= 1000)
               (findall_path [akn "notes"; akn "note"; akn "p"]
                             (section_element section)))
  /\ (forall (section : SectionRecord) (txt : pystr),
        subsections section = parse_subsections txt ->
        Forall (fun p => text_len p <= 2000)
               (findall_path [akn "subsection"; akn "content"; akn "p"]
                             (section_element section))
        /\ Forall (fun p => text_len p <= 2000)
               (findall_path [akn "subsection"; akn "paragraph";
                              akn "content"; akn "p"]
                             (section_element section))).
Proof.
  split; [exact parse_subsections_text|]. split.
  - intros section. split; [|split]; section_parts section; forall_list;
      unfold text_len; cbn [ET.text elem]; apply firstn_le_length.
  - intros section txt Hsub.
    assert (Hb : forall sub, In sub (subsections section) ->
               length (text sub) <= 2000
               /\ Forall (fun c => length (text c) <= 2000) (children sub)).
    { intros sub Hin. rewrite Hsub in Hin. now apply parse_subsections_text in Hin. }
    split; section_parts section; try apply Forall_nil;
      apply Forall_flat_map_intro; intros el Hel;
      apply in_map_iff in Hel as (sub & <- & Hin);
      destruct (Hb sub Hin) as [Ht Hc].
    all: first
      [ change (Forall (fun p => text_len p <= 2000)
                  (findall_path [akn "content"; akn "p"]
                     (subsection_element sub (section_number section))));
        rewrite subsection_content_p; forall_list; exact Ht
      | change (Forall (fun p => text_len p <= 2000)
                  (findall_path [akn "paragraph"; akn "content"; akn "p"]
                     (subsection_element sub (section_number section))));
        rewrite subsection_paragraph_p;
        apply Forall_forall; intros pe Hpe;
        apply in_map_iff in Hpe as (c & <- & Hcin);
        rewrite Forall_forall in Hc; now apply Hc ].
Qed.

(* ================================================================== *)
(** * Matchers and the languages they recognize *)

Module ReFacts.

(** A language is a set of strings. *)
Definition lang := pystr -> Prop.

Definition Leps : lang := fun w => w = [].
Definition Llit (x : string) : lang := fun w => w = py x.
Definition Lset (p : char -> bool) : lang := fun w => exists c, w = [c] /\ p c = true.
Definition Lstar (p : char -> bool) : lang := fun w => forallb p w = true.
Definition Lplus (p : char -> bool) : lang := fun w => w <> [] /\ forallb p w = true.
Definition Lcat (A B : lang) : lang :=
  fun w => exists u v, w = u ++ v /\ A u /\ B v.
Definition Lalt (A B : lang) : lang := fun w => A w \/ B w.
Definition Lopt (A : lang) : lang := Lalt A Leps.

(** [m] recognizes [L]: the candidates of [m] on a text are the lengths
    of the prefixes of the text that belong to [L]. *)
Definition recognizes (m : matcher) (L : lang) : Prop :=
  forall s n, In n (m s) <-> n <= length s /\ L (firstn n s).

Lemma firstn_add {A} (n m : nat) (l : list A) :
  firstn (n + m) l = firstn n l ++ firstn m (skipn n l).
Proof.
  revert l; induction n as [|n IH]; intros l; [reflexivity|].
  destruct l as [|x l]; simpl; [now rewrite firstn_nil|]. now rewrite IH.
Qed.

Lemma prefix_by_eq (w s : pystr) :
  prefix_by N.eqb w s = true <-> firstn (length w) s = w.
Proof.
  revert s; induction w as [|c w IH]; intros s; simpl; [tauto|].
  destruct s as [|x s]; [split; discriminate|].
  rewrite andb_true_iff, N.eqb_eq, IH. split.
  - intros [-> ->]. reflexivity.
  - intros H. injection H as -> H. auto.
Qed.

Lemma firstn_eq_length {A} (n : nat) (s w : list A) :
  firstn n s = w -> n <= length s -> length w = n.
Proof. intros <- H. now apply firstn_length_le. Qed.

Lemma recognizes_lit (x : string) : recognizes (lit x) (Llit x).
Proof.
  intros s n. unfold lit, Llit.
  destruct (prefix_by N.eqb (py x) s) eqn:E.
  - apply prefix_by_eq in E. split.
    + intros [<-|[]]. split; [|exact E].
      rewrite <- E at 1. rewrite length_firstn. apply Nat.le_min_r.
    + intros [Hn Hw]. left. now apply firstn_eq_length with s.
  - split; [intros []|]. intros [Hn Hw].
    assert (n = length (py x)) as -> by (symmetry; now apply firstn_eq_length with s).
    apply prefix_by_eq in Hw. congruence.
Qed.

Lemma recognizes_eps : recognizes eps Leps.
Proof.
  intros s n. unfold eps, Leps. split.
  - intros [<-|[]]. split; [apply Nat.le_0_l|reflexivity].
  - intros [Hn Hw]. left.
    destruct n; [reflexivity|]. destruct s; [inversion Hn|discriminate].
Qed.

Lemma recognizes_set (p : char -> bool) : recognizes (set p) (Lset p).
Proof.
  intros s n. unfold set, Lset. destruct s as [|c s].
  - split; [intros []|]. intros [Hn (c & Hw & _)].
    rewrite firstn_nil in Hw. discriminate.
  - destruct (p c) eqn:E.
    + split.
      * intros [<-|[]]. split; [simpl; lia|]. exists c. now split.
      * intros [Hn (c' & Hw & _)]. left.
        destruct n as [|[|n]]; [discriminate|reflexivity|].
        destruct s; simpl in Hn, Hw; [lia|discriminate].
    + split; [intros []|]. intros [_ (c' & Hw & Hc)].
      destruct n; [discriminate|]. simpl in Hw. injection Hw as -> _.
      congruence.
Qed.

Lemma run_le_length (p : char -> bool) (s : pystr) : run p s <= length s.
Proof. induction s as [|c s IH]; simpl; [lia|]. destruct (p c); simpl; lia. Qed.

Lemma le_run (p : char -> bool) (s : pystr) (n : nat) :
  n <= run p s <-> n <= length s /\ forallb p (firstn n s) = true.
Proof.
  revert n; induction s as [|c s IH]; intros n; simpl.
  - rewrite firstn_nil. simpl. intuition lia.
  - destruct n as [|n]; [simpl; intuition lia|]. simpl firstn. simpl forallb.
    destruct (p c); simpl.
    + rewrite <- Nat.succ_le_mono, IH. intuition lia.
    + intuition (try lia; discriminate).
Qed.

Lemma in_rev_seq (a k n : nat) : In n (rev (List.seq a k)) <-> a <= n < a + k.
Proof. now rewrite <- in_rev, in_seq. Qed.

Lemma firstn_nonempty {A} (n : nat) (s : list A) :
  n <= length s -> (firstn n s <> [] <-> 1 <= n).
Proof.
  intros H. destruct n; simpl; [intuition lia|].
  destruct s; [simpl in H; lia|]. intuition (try lia; discriminate).
Qed.

Lemma recognizes_plus (p : char -> bool) : recognizes (plus p) (Lplus p).
Proof.
  intros s n. unfold plus, Lplus. rewrite in_rev_seq. split.
  - intros [H1 H2]. assert (Hn : n <= run p s) by lia.
    apply le_run in Hn as [Hn Hp]. split; [exact Hn|]. split; [|exact Hp].
    now apply firstn_nonempty.
  - intros (Hn & Hne & Hp). apply firstn_nonempty in Hne; [|exact Hn].
    assert (n <= run p s) by (apply le_run; auto). lia.
Qed.

Lemma recognizes_plus_lazy (p : char -> bool) : recognizes (plus_lazy p) (Lplus p).
Proof.
  intros s n. rewrite <- (recognizes_plus p s n). unfold plus, plus_lazy.
  apply in_rev.
Qed.

Lemma recognizes_star (p : char -> bool) : recognizes (star p) (Lstar p).
Proof.
  intros s n. unfold star, Lstar. rewrite in_rev_seq, <- le_run. lia.
Qed.

Lemma in_cat (a b : matcher) (s : pystr) (n : nat) :
  In n ((a >> b) s) <->
  exists n1 n2, In n1 (a s) /\ In n2 (b (skipn n1 s)) /\ n = n1 + n2.
Proof.
  unfold cat. rewrite in_flat_map. split.
  - intros (n1 & H1 & H2). apply in_map_iff in H2 as (n2 & <- & H2). eauto.
  - intros (n1 & n2 & H1 & H2 & ->). exists n1. split; [exact H1|].
    apply in_map_iff. eauto.
Qed.

Lemma recognizes_cat (a b : matcher) (A B : lang) :
  recognizes a A -> recognizes b B -> recognizes (a >> b) (Lcat A B).
Proof.
  intros Ha Hb s n. rewrite in_cat. unfold Lcat. split.
  - intros (n1 & n2 & H1 & H2 & ->).
    apply Ha in H1 as [L1 A1]. apply Hb in H2 as [L2 B2].
    rewrite length_skipn in L2. split; [lia|].
    exists (firstn n1 s), (firstn n2 (skipn n1 s)). now rewrite firstn_add.
  - intros (Hn & u & v & E & Au & Bv).
    assert (Hl : length u + length v = n).
    { rewrite <- length_app, <- E. now apply firstn_length_le. }
    assert (Eu : firstn (length u) s = u).
    { rewrite <- (firstn_skipn n s).
      rewrite firstn_app, E, firstn_app, firstn_all, Nat.sub_diag.
      simpl. rewrite app_nil_r. rewrite length_app.
      replace (length u - (length u + length v)) with 0 by lia.
      simpl. now rewrite app_nil_r. }
    assert (Ev : firstn (length v) (skipn (length u) s) = v).
    { rewrite <- (firstn_skipn n s) at 1. rewrite E, <- app_assoc.
      rewrite skipn_app, skipn_all, Nat.sub_diag. simpl.
      rewrite firstn_app, firstn_all, Nat.sub_diag. simpl. apply app_nil_r. }
    exists (length u), (length v). repeat split.
    + apply Ha. rewrite Eu. split; [lia|exact Au].
    + apply Hb. rewrite Ev, length_skipn. split; [lia|exact Bv].
    + now rewrite Hl.
Qed.

Lemma recognizes_alt (a b : matcher) (A B : lang) :
  recognizes a A -> recognizes b B -> recognizes (a <|> b) (Lalt A B).
Proof.
  intros Ha Hb s n. unfold alt, Lalt. rewrite in_app_iff, (Ha s n), (Hb s n).
  tauto.
Qed.

Lemma recognizes_opt (a : matcher) (A : lang) :
  recognizes a A -> recognizes (opt a) (Lopt A).
Proof. intros Ha. apply recognizes_alt; [exact Ha|apply recognizes_eps]. Qed.

(** ** [re.search] *)

Lemma search_from_some (m : matcher) (s : pystr) (i j n : nat) :
  search_from m i s = Some (j, n) <->
  exists k, j = i + k /\ k <= length s
            /\ hd_error (m (skipn k s)) = Some n
            /\ forall k', k' < k -> m (skipn k' s) = [].
Proof.
  revert i; induction s as [|c s IH]; intros i; simpl.
  - destruct (m []) as [|n0 l] eqn:E.
    + split; [discriminate|]. intros (k & _ & Hk & Hh & _).
      assert (k = 0) as -> by lia. simpl in Hh. rewrite E in Hh. discriminate.
    + split.
      * intros [= <- <-]. exists 0. rewrite Nat.add_0_r. simpl. rewrite E.
        repeat split; auto. intros k' Hk'. lia.
      * intros (k & -> & Hk & Hh & _). assert (k = 0) as -> by lia.
        simpl in Hh. rewrite E in Hh. injection Hh as ->.
        now rewrite Nat.add_0_r.
  - destruct (m (c :: s)) as [|n0 l] eqn:E.
    + rewrite IH. split.
      * intros (k & -> & Hk & Hh & Hlt). exists (S k).
        repeat split; [lia|lia|exact Hh|].
        intros [|k'] Hk'; [exact E|]. apply Hlt. lia.
      * intros (k & -> & Hk & Hh & Hlt). destruct k as [|k].
        { simpl in Hh. rewrite E in Hh. discriminate. }
        exists k. repeat split; [lia|lia|exact Hh|].
        intros k' Hk'. apply (Hlt (S k')). lia.
    + split.
      * intros [= <- <-]. exists 0. rewrite Nat.add_0_r. simpl. rewrite E.
        repeat split; auto; [lia|]. intros k' Hk'. lia.
      * intros (k & -> & Hk & Hh & Hlt). destruct k as [|k].
        { simpl in Hh. rewrite E in Hh. injection Hh as ->.
          now rewrite Nat.add_0_r. }
        specialize (Hlt 0 ltac:(lia)). simpl in Hlt. congruence.
Qed.

Lemma search_from_none (m : matcher) (s : pystr) (i : nat) :
  search_from m i s = None <-> forall k, k <= length s -> m (skipn k s) = [].
Proof.
  revert i; induction s as [|c s IH]; intros i; simpl.
  - destruct (m []) as [|n0 l] eqn:E.
    + split; [|reflexivity]. intros _ k Hk. assert (k = 0) as -> by lia. exact E.
    + split; [discriminate|]. intros H. specialize (H 0 (Nat.le_refl 0)).
      simpl in H. congruence.
  - destruct (m (c :: s)) as [|n0 l] eqn:E.
    + rewrite IH. split.
      * intros H [|k] Hk; [exact E|]. apply H. lia.
      * intros H k Hk. apply (H (S k)). lia.
    + split; [discriminate|]. intros H. specialize (H 0 ltac:(lia)).
      simpl in H. congruence.
Qed.

End ReFacts.
Import ReFacts.

(* ================================================================== *)
(** * Section numbers *)

(** The strings that match [\d+-\d+-\d+(\.\d+)?]. *)
Definition section_number_shape : lang :=
  fun w => exists d1 d2 d3 t,
    w = d1 ++ py "-" ++ d2 ++ py "-" ++ d3 ++ t
    /\ Lplus is_digit d1 /\ Lplus is_digit d2 /\ Lplus is_digit d3
    /\ (t = [] \/ exists d4, t = py "." ++ d4 /\ Lplus is_digit d4).

(** The strings that match [\d+-\d+-\d+]. *)
Definition three_part_shape : lang :=
  fun w => exists d1 d2 d3,
    w = d1 ++ py "-" ++ d2 ++ py "-" ++ d3
    /\ Lplus is_digit d1 /\ Lplus is_digit d2 /\ Lplus is_digit d3.

Lemma recognizes_ext (m : matcher) (A B : lang) :
  recognizes m A -> (forall w, A w <-> B w) -> recognizes m B.
Proof. intros H E s n. now rewrite (H s n), E. Qed.

Ltac splits := repeat (split; [first [assumption | reflexivity]|]).

Lemma recognizes_section_number :
  recognizes re_section_number section_number_shape.
Proof.
  eapply recognizes_ext.
  - unfold re_section_number.
    repeat first [ apply recognizes_cat | apply recognizes_opt
                 | apply recognizes_lit | apply recognizes_plus ].
  - intros w. unfold section_number_shape, Lcat, Lopt, Lalt, Llit, Leps. split.
    + intros (d1 & r1 & E1 & H1 & m1 & r2 & E2 & E3 & d2 & r3 & E4 & H2
              & m2 & r4 & E5 & E6 & d3 & t & E7 & H3 & Ht).
      subst. exists d1, d2, d3, t. splits.
      destruct Ht as [(dot & d4 & E8 & E9 & H4)|E8]; subst;
        [right; eauto|now left].
    + intros (d1 & d2 & d3 & t & -> & H1 & H2 & H3 & Ht).
      exists d1, (py "-" ++ d2 ++ py "-" ++ d3 ++ t). splits.
      exists (py "-"), (d2 ++ py "-" ++ d3 ++ t). splits.
      exists d2, (py "-" ++ d3 ++ t). splits.
      exists (py "-"), (d3 ++ t). splits.
      exists d3, t. splits.
      destruct Ht as [->|(d4 & -> & H4)]; [now right|].
      left. exists (py "."), d4. auto.
Qed.

Lemma recognizes_three_part : recognizes re_three_part three_part_shape.
Proof.
  eapply recognizes_ext.
  - unfold re_three_part.
    repeat first [ apply recognizes_cat | apply recognizes_lit
                 | apply recognizes_plus ].
  - intros w. unfold three_part_shape, Lcat, Llit. split.
    + intros (d1 & r1 & E1 & H1 & m1 & r2 & E2 & E3 & d2 & r3 & E4 & H2
              & m2 & d3 & E5 & E6 & H3).
      subst. exists d1, d2, d3. splits. assumption.
    + intros (d1 & d2 & d3 & -> & H1 & H2 & H3).
      exists d1, (py "-" ++ d2 ++ py "-" ++ d3). splits.
      exists (py "-"), (d2 ++ py "-" ++ d3). splits.
      exists d2, (py "-" ++ d3). splits.
      exists (py "-"), d3. splits. assumption.
Qed.

(** A string of [L] occurs in [s] at position [i]. *)
Definition occurs (L : lang) (s : pystr) (i : nat) : Prop :=
  exists pre w post, s = pre ++ w ++ post /\ length pre = i /\ L w.

Lemma skipn_app_length {A} (pre rest : list A) :
  skipn (length pre) (pre ++ rest) = rest.
Proof. rewrite skipn_app, skipn_all, Nat.sub_diag. reflexivity. Qed.

Lemma firstn_app_length {A} (w rest : list A) :
  firstn (length w) (w ++ rest) = w.
Proof.
  rewrite firstn_app, firstn_all, Nat.sub_diag. simpl. apply app_nil_r.
Qed.

(** The candidates of a matcher at a position are non-empty exactly when
    a string of its language occurs there. *)
Lemma occurs_candidates (m : matcher) (L : lang) (s : pystr) (i : nat) :
  recognizes m L ->
  (occurs L s i <-> i <= length s /\ m (skipn i s) <> []).
Proof.
  intros Hm. split.
  - intros (pre & w & post & -> & <- & Hw). split.
    + rewrite length_app. lia.
    + rewrite skipn_app_length.
      assert (H : In (length w) (m (w ++ post))).
      { apply Hm. rewrite firstn_app_length, length_app. split; [lia|exact Hw]. }
      intros E. rewrite E in H. destruct H.
  - intros [Hi Hne]. destruct (m (skipn i s)) as [|n l] eqn:E; [congruence|].
    assert (H : In n (m (skipn i s))) by (rewrite E; now left).
    apply Hm in H as [Hn Hw].
    exists (firstn i s), (firstn n (skipn i s)), (skipn n (skipn i s)).
    rewrite !firstn_skipn. repeat split; auto. now apply firstn_length_le.
Qed.

(** ** Which match the engine reports *)

(** The first candidate is the longest one. *)
Definition hd_max (l : list nat) : Prop :=
  forall n, hd_error l = Some n -> forall n', In n' l -> n' <= n.

Lemma hd_max_nil : hd_max [].
Proof. intros n H. discriminate. Qed.

Lemma hd_max_map (k : nat) (l : list nat) :
  hd_max l -> hd_max (map (Nat.add k) l).
Proof.
  intros H n Hn n' Hn'. destruct l as [|h l]; [discriminate|].
  injection Hn as <-. apply in_map_iff in Hn' as (x & <- & Hx).
  specialize (H h eq_refl x Hx). lia.
Qed.

Lemma hd_max_plus (p : char -> bool) (s : pystr) : hd_max (plus p s).
Proof.
  intros n Hn n' Hn'. unfold plus in *. apply in_rev_seq in Hn'.
  destruct (run p s) as [|k]; [discriminate|].
  rewrite seq_S, rev_app_distr in Hn. injection Hn as <-. lia.
Qed.

Lemma cat_lit (x : string) (b : matcher) (s : pystr) :
  (lit x >> b) s =
  if prefix_by N.eqb (py x) s
  then map (Nat.add (length (py x))) (b (skipn (length (py x)) s))
  else [].
Proof.
  unfold cat, lit. destruct (prefix_by N.eqb (py x) s); simpl;
    [apply app_nil_r|reflexivity].
Qed.

Lemma flat_map_nil {A B} (f : A -> list B) (l : list A) :
  (forall x, In x l -> f x = []) -> flat_map f l = [].
Proof.
  induction l as [|x l IH]; intros H; simpl; [reflexivity|].
  rewrite (H x (or_introl eq_refl)), IH; [reflexivity|].
  intros y Hy. apply H. now right.
Qed.

(** Inside a run the next character is of the class. *)
Lemma run_skipn (p : char -> bool) (s : pystr) (j : nat) :
  j < run p s -> exists c t, skipn j s = c :: t /\ p c = true.
Proof.
  revert j; induction s as [|c s IH]; intros j; simpl; [lia|].
  destruct (p c) eqn:E; [|lia]. destruct j as [|j].
  - intros _. exists c, s. now split.
  - intros H. apply IH. lia.
Qed.

(** After the run the next character, if any, is not of the class. *)
Lemma run_end (p : char -> bool) (s : pystr) :
  match skipn (run p s) s with
  | c :: _ => p c = false
  | [] => True
  end.
Proof.
  induction s as [|c s IH]; simpl; [exact I|].
  destruct (p c) eqn:E; [exact IH|exact E].
Qed.

Lemma plus_cons (p : char -> bool) (s : pystr) :
  run p s <> 0 -> plus p s = run p s :: rev (List.seq 1 (run p s - 1)).
Proof.
  unfold plus. intros H. destruct (run p s) as [|k]; [congruence|].
  rewrite seq_S, rev_app_distr. simpl. now rewrite Nat.sub_0_r.
Qed.

(** When what follows [p+] cannot start with a character of [p], the
    whole run is taken and never given back. *)
Lemma cat_plus_commit (p : char -> bool) (b : matcher) (s : pystr) :
  (forall c t, p c = true -> b (c :: t) = []) ->
  (plus p >> b) s =
  match run p s with
  | 0 => []
  | S _ => map (Nat.add (run p s)) (b (skipn (run p s) s))
  end.
Proof.
  intros Hb. destruct (run p s) as [|k] eqn:E.
  - unfold cat, plus. now rewrite E.
  - rewrite <- E. unfold cat. rewrite plus_cons by lia. cbn [flat_map].
    rewrite flat_map_nil; [apply app_nil_r|].
    intros j Hj. apply in_rev_seq in Hj.
    destruct (@run_skipn p s j) as (c & t & -> & Hc); [lia|].
    now rewrite (Hb c t Hc).
Qed.

(** When what follows [p+] can only match the empty string in front of
    a character of [p] and always matches, the longest match comes first. *)
Lemma hd_max_plus_then (p : char -> bool) (b : matcher) (s : pystr) :
  (forall c t n, p c = true -> In n (b (c :: t)) -> n = 0) ->
  (forall t, b t <> []) ->
  (forall t, hd_max (b t)) ->
  hd_max ((plus p >> b) s).
Proof.
  intros H0 Hne Hb n Hn n' Hn'.
  apply in_cat in Hn' as (n1 & n2 & H1 & H2 & ->).
  apply in_rev_seq in H1.
  unfold cat in Hn. rewrite plus_cons in Hn by lia. cbn [flat_map] in Hn.
  destruct (b (skipn (run p s) s)) as [|h r] eqn:Eb; [now apply Hne in Eb|].
  simpl in Hn. injection Hn as <-.
  destruct (Nat.eq_dec n1 (run p s)) as [->|Hlt].
  - rewrite Eb in H2. specialize (Hb (skipn (run p s) s)).
    rewrite Eb in Hb. specialize (Hb h eq_refl n2 H2). lia.
  - destruct (@run_skipn p s n1) as (c & t & Es & Hc); [lia|].
    rewrite Es in H2. apply (H0 c t n2 Hc) in H2. lia.
Qed.

Lemma digit_not_dash (c : char) : is_digit c = true -> (45 =? c)%N = false.
Proof.
  intros H. destruct (N.eqb_spec 45 c) as [<-|]; [|reflexivity].
  vm_compute in H. discriminate.
Qed.

Lemma digit_not_dot (c : char) : is_digit c = true -> (46 =? c)%N = false.
Proof.
  intros H. destruct (N.eqb_spec 46 c) as [<-|]; [|reflexivity].
  vm_compute in H. discriminate.
Qed.

Lemma lit_dash_digit (b : matcher) (c : char) (t : pystr) :
  is_digit c = true -> (lit "-" >> b) (c :: t) = [].
Proof.
  intros H. rewrite cat_lit. change (py "-") with [45%N].
  cbn [prefix_by]. now rewrite digit_not_dash.
Qed.

Lemma lit_dot_digit (b : matcher) (c : char) (t : pystr) :
  is_digit c = true -> (lit "." >> b) (c :: t) = [].
Proof.
  intros H. rewrite cat_lit. change (py ".") with [46%N].
  cbn [prefix_by]. now rewrite digit_not_dot.
Qed.

Lemma hd_max_section_number (s : pystr) : hd_max (re_section_number s).
Proof.
  unfold re_section_number.
  rewrite cat_plus_commit by (intros; now apply lit_dash_digit).
  destruct (run is_digit s) as [|k1]; [apply hd_max_nil|]. apply hd_max_map.
  rewrite cat_lit. destruct (prefix_by _ _ _); [|apply hd_max_nil].
  apply hd_max_map.
  rewrite cat_plus_commit by (intros; now apply lit_dash_digit).
  destruct (run is_digit _) as [|k2]; [apply hd_max_nil|]. apply hd_max_map.
  rewrite cat_lit. destruct (prefix_by _ _ _); [|apply hd_max_nil].
  apply hd_max_map.
  apply hd_max_plus_then.
  - intros c t n Hc Hn. unfold opt, alt in Hn.
    rewrite lit_dot_digit in Hn by exact Hc. now destruct Hn as [<-|[]].
  - intros t. unfold opt, alt, eps. intros E.
    apply app_eq_nil in E as [_ E]. discriminate.
  - intros t n Hn n' Hn'. unfold opt, alt, eps in *.
    rewrite cat_lit in *. destruct (prefix_by _ _ t).
    + pose proof (@hd_max_map 1 _ (@hd_max_plus is_digit (skipn 1 t))) as Hm.
      change (length (py ".")) with 1 in *.
      destruct (map (Nat.add 1) (plus is_digit (skipn 1 t))) as [|h r] eqn:Em.
      * simpl in *. injection Hn as <-. now destruct Hn' as [<-|[]].
      * simpl in Hn. injection Hn as <-.
        apply in_app_iff in Hn' as [Hn'|[<-|[]]]; [|lia].
        now apply (Hm h eq_refl).
    + simpl in *. injection Hn as <-. now destruct Hn' as [<-|[]].
Qed.

(** ** C7 *)

Lemma replace_replace (caption : pystr) :
  replace 46%N 45%N (replace 32%N 45%N caption)
  = map (fun c => if ((c =? 32) || (c =? 46))%N then 45%N else c) caption.
Proof.
  unfold replace. rewrite map_map. apply map_ext. intros c.
  destruct (N.eqb_spec c 32) as [->|H32]; [reflexivity|].
  destruct (N.eqb_spec c 46); reflexivity.
Qed.

(** C7: on a caption in which a string matching [\d+-\d+-\d+(\.\d+)?]
    occurs, [extract_section_number] returns the first such match: a
    substring of that shape such that no string of that shape starts
    earlier in the caption, nor is longer and starts at the same position;
    on ["48-1-2 Definitions"] it returns ["48-1-2"]; on a caption with no
    such substring it returns the caption with every space and every
    period replaced by a hyphen. *)
Theorem extract_section_number_spec :
  (forall (caption : pystr) (i : nat),
     occurs section_number_shape caption i ->
     exists pre post,
       caption = pre ++ extract_section_number caption ++ post
       /\ section_number_shape (extract_section_number caption)
       /\ forall pre' w post',
            caption = pre' ++ w ++ post' -> section_number_shape w ->
            length pre <= length pre'
            /\ (length pre' = length pre ->
                length w <= length (extract_section_number caption)))
  /\ extract_section_number (py "48-1-2 Definitions") = py "48-1-2"
  /\ (forall caption : pystr,
        (forall i, ~ occurs section_number_shape caption i) ->
        extract_section_number caption
        = map (fun c => if ((c =? 32) || (c =? 46))%N then 45%N else c) caption).
Proof.
  split; [|split; [vm_compute; reflexivity|]].
  - intros caption i Hocc.
    apply (occurs_candidates caption i recognizes_section_number) in Hocc
      as [Hi Hne].
    unfold extract_section_number, re_search.
    destruct (search_from re_section_number 0 caption) as [[j n]|] eqn:E.
    2:{ rewrite search_from_none in E. now rewrite E in Hne. }
    apply search_from_some in E as (k & -> & Hk & Hhd & Hlt). simpl.
    assert (Hin : In n (re_section_number (skipn k caption))).
    { destruct (re_section_number (skipn k caption)); [discriminate|].
      injection Hhd as ->. now left. }
    pose proof Hin as Hin'.
    apply recognizes_section_number in Hin' as [Hn Hshape].
    exists (firstn k caption), (skipn n (skipn k caption)).
    rewrite !firstn_skipn. splits.
    intros pre' w post' Hc Hw.
    assert (Hocc : occurs section_number_shape caption (length pre'))
      by (exists pre', w, post'; auto).
    apply (occurs_candidates caption _ recognizes_section_number) in Hocc
      as [Hi' Hne'].
    rewrite (firstn_length_le _ Hk). split.
    + destruct (Nat.le_gt_cases k (length pre')) as [Hle|Hgt]; [exact Hle|].
      now rewrite (Hlt _ Hgt) in Hne'.
    + intros Hl. rewrite (firstn_length_le _ Hn).
      apply (@hd_max_section_number (skipn k caption) n Hhd).
      apply recognizes_section_number. rewrite <- Hl, Hc, skipn_app_length.
      rewrite firstn_app_length, length_app. split; [lia|exact Hw].
  - intros caption Hno. unfold extract_section_number, re_search.
    destruct (search_from re_section_number 0 caption) as [[j n]|] eqn:E.
    + apply search_from_some in E as (k & -> & Hk & Hhd & _).
      exfalso. apply (Hno k).
      apply (occurs_candidates caption k recognizes_section_number).
      split; [exact Hk|]. intros E. now rewrite E in Hhd.
    + apply replace_replace.
Qed.

(* ================================================================== *)
(** * Chapters *)

(** ** The order on strings *)

Lemma str_ltb_irrefl (a : pystr) : str_ltb a a = false.
Proof.
  induction a as [|x a IH]; simpl; [reflexivity|].
  now rewrite N.ltb_irrefl, N.eqb_refl, IH.
Qed.

Lemma str_ltb_cons (x y : char) (a b : pystr) :
  str_ltb (x :: a) (y :: b) = true <->
  (x < y)%N \/ (x = y /\ str_ltb a b = true).
Proof.
  simpl. rewrite orb_true_iff, andb_true_iff, N.ltb_lt, N.eqb_eq. tauto.
Qed.

Lemma str_ltb_trans (a b c : pystr) :
  str_ltb a b = true -> str_ltb b c = true -> str_ltb a c = true.
Proof.
  revert b c; induction a as [|x a IH]; intros [|y b] [|z c];
    try (simpl; discriminate); try (simpl; reflexivity).
  rewrite !str_ltb_cons. intros [H1|[-> H1]] [H2|[-> H2]].
  - left. lia.
  - now left.
  - now left.
  - right. split; [reflexivity|]. now apply IH with b.
Qed.

Lemma str_ltb_trichotomy (a b : pystr) :
  str_ltb a b = true \/ a = b \/ str_ltb b a = true.
Proof.
  revert b; induction a as [|x a IH]; intros [|y b]; simpl; auto.
  destruct (N.lt_trichotomy x y) as [H|[->|H]].
  - left. apply N.ltb_lt in H. now rewrite H.
  - rewrite N.ltb_irrefl, N.eqb_refl. simpl.
    destruct (IH b) as [H|[->|H]]; auto.
  - right. right. apply N.ltb_lt in H. now rewrite H.
Qed.

Lemma str_ltb_asym (a b : pystr) : str_ltb a b = true -> str_ltb b a = false.
Proof.
  intros H. destruct (str_ltb b a) eqn:E; [|reflexivity].
  rewrite <- (str_ltb_irrefl a). symmetry. now apply str_ltb_trans with b.
Qed.

(** ** [sorted(chapters.items())] *)

(** [x] does not come after [y]. *)
Definition key_le {A} (x y : pystr * A) : Prop := str_ltb (fst y) (fst x) = false.

Lemma key_le_trans {A} (x y z : pystr * A) : key_le x y -> key_le y z -> key_le x z.
Proof.
  unfold key_le. intros H1 H2.
  destruct (str_ltb (fst z) (fst x)) eqn:E; [|reflexivity].
  destruct (str_ltb_trichotomy (fst x) (fst y)) as [H|[H|H]].
  - rewrite <- H2. symmetry. now apply str_ltb_trans with (fst x).
  - rewrite <- H in H2. congruence.
  - congruence.
Qed.

Lemma insert_item_perm {A} (x : pystr * A) (l : list (pystr * A)) :
  Permutation (insert_item x l) (x :: l).
Proof.
  induction l as [|y l IH]; simpl; [reflexivity|].
  destruct (str_ltb (fst y) (fst x)); [|reflexivity].
  rewrite IH. apply perm_swap.
Qed.

Lemma sorted_items_perm {A} (d : list (pystr * A)) :
  Permutation (sorted_items d) d.
Proof.
  induction d as [|x d IH]; simpl; [reflexivity|].
  rewrite insert_item_perm. now constructor.
Qed.

Lemma insert_item_sorted {A} (x : pystr * A) (l : list (pystr * A)) :
  StronglySorted key_le l -> StronglySorted key_le (insert_item x l).
Proof.
  induction 1 as [|y l Hs IH Hy]; simpl.
  - repeat constructor.
  - destruct (str_ltb (fst y) (fst x)) eqn:E.
    + constructor; [exact IH|].
      rewrite (insert_item_perm x l). constructor; [|exact Hy].
      unfold key_le. now apply str_ltb_asym.
    + constructor; [now constructor|].
      constructor; [exact E|].
      eapply Forall_impl; [|exact Hy]. intros z Hz.
      now apply key_le_trans with y.
Qed.

Lemma sorted_items_sorted {A} (d : list (pystr * A)) :
  StronglySorted key_le (sorted_items d).
Proof.
  induction d as [|x d IH]; simpl; [constructor|].
  now apply insert_item_sorted.
Qed.

(** Distinct keys in sorted order are strictly increasing. *)
Lemma sorted_keys_increasing {A} (l : list (pystr * A)) :
  StronglySorted key_le l -> NoDup (map fst l) ->
  StronglySorted (fun a b => str_ltb a b = true) (map fst l).
Proof.
  induction 1 as [|x l Hs IH Hx]; simpl; intros Hnd; [constructor|].
  inversion Hnd as [|? ? Hnin Hnd']; subst.
  constructor; [now apply IH|].
  apply Forall_forall. intros k Hk.
  apply in_map_iff in Hk as (y & <- & Hy).
  rewrite Forall_forall in Hx. specialize (Hx y Hy). unfold key_le in Hx.
  destruct (str_ltb_trichotomy (fst x) (fst y)) as [H|[H|H]];
    [exact H| |congruence].
  exfalso. apply Hnin. rewrite H. now apply in_map.
Qed.

Lemma StronglySorted_filter {A} (R : A -> A -> Prop) (f : A -> bool) (l : list A) :
  StronglySorted R l -> StronglySorted R (filter f l).
Proof.
  induction 1 as [|x l Hs IH Hx]; simpl; [constructor|].
  destruct (f x); [|exact IH]. constructor; [exact IH|].
  apply Forall_forall. intros y Hy. apply filter_In in Hy as [Hy _].
  rewrite Forall_forall in Hx. auto.
Qed.

(** ** The dict of chapters *)

Lemma dict_append_keys {A} (k : pystr) (v : A) (d : list (pystr * list A)) (k' : pystr) :
  In k' (map fst (dict_append k v d)) <-> k' = k \/ In k' (map fst d).
Proof.
  induction d as [|[k0 l0] d IH]; simpl; [intuition|].
  destruct (str_eqb k0 k) eqn:E; simpl.
  - apply str_eqb_eq in E. subst. intuition.
  - rewrite IH. intuition.
Qed.

Lemma dict_append_nodup {A} (k : pystr) (v : A) (d : list (pystr * list A)) :
  NoDup (map fst d) -> NoDup (map fst (dict_append k v d)).
Proof.
  induction d as [|[k0 l0] d IH]; simpl; intros H.
  - constructor; [intros []|constructor].
  - inversion H as [|? ? Hnin Hnd]; subst.
    destruct (str_eqb k0 k) eqn:E; simpl; [exact H|].
    constructor; [|now apply IH].
    rewrite dict_append_keys. intros [->|Hin]; [|contradiction].
    now rewrite str_eqb_refl in E.
Qed.

Lemma dict_append_in {A} (k : pystr) (v : A) (d : list (pystr * list A))
    (k' : pystr) (l' : list A) :
  NoDup (map fst d) ->
  In (k', l') (dict_append k v d) ->
  (k' <> k /\ In (k', l') d)
  \/ (k' = k /\ ((exists l, In (k, l) d /\ l' = l ++ [v])
                 \/ (~ In k (map fst d) /\ l' = [v]))).
Proof.
  induction d as [|[k0 l0] d IH]; simpl; intros Hnd.
  - intros [[= <- <-]|[]]. right. split; [reflexivity|]. right. tauto.
  - inversion Hnd as [|? ? Hnin Hnd']; subst.
    destruct (str_eqb k0 k) eqn:E; simpl.
    + apply str_eqb_eq in E. subst k0. intros [[= <- <-]|Hin].
      * right. split; [reflexivity|]. left. exists l0. auto.
      * left. split; [|now right]. intros ->. apply Hnin.
        now apply (in_map fst) in Hin.
    + assert (Hne : k0 <> k).
      { intros ->. now rewrite str_eqb_refl in E. }
      intros [[= <- <-]|Hin]; [left; auto|].
      destruct (IH Hnd' Hin) as [[H1 H2]|[-> [(l & H1 & H2)|[H1 H2]]]].
      * left. auto.
      * right. split; [reflexivity|]. left. exists l. auto.
      * right. split; [reflexivity|]. right. split; [|exact H2].
        intros [H|H]; [now apply Hne|now apply H1].
Qed.

Definition in_chapter (k : pystr) (s : SectionRecord) : bool :=
  str_eqb (chapter s) k.

(** The dict built by the grouping loop: its keys are distinct, they are
    the chapter keys of the records, and each key holds the records of
    that chapter in their original order. *)
Lemma group_by_chapter_spec (sections : list SectionRecord) :
  let d := group_by_chapter sections in
  NoDup (map fst d)
  /\ (forall k l, In (k, l) d -> l = filter (in_chapter k) sections /\ l <> [])
  /\ (forall s, In s sections -> In (chapter s) (map fst d)).
Proof.
  unfold group_by_chapter.
  induction sections as [|x sections IH] using rev_ind; simpl.
  - split; [constructor|]. split; [intros k l []|intros s []].
  - rewrite fold_left_app. simpl.
    destruct IH as (Hnd & Hl & Hk).
    set (d := fold_left _ sections []) in *.
    split; [now apply dict_append_nodup|]. split.
    + intros k l Hin. rewrite filter_app. simpl. unfold in_chapter at 2.
      apply dict_append_in in Hin
        as [[Hne Hin]|[-> [(l0 & Hin & ->)|[Hnin ->]]]]; [| | |exact Hnd].
      * destruct (Hl k l Hin) as [-> Hne'].
        replace (str_eqb (chapter x) k) with false; [now rewrite app_nil_r|].
        symmetry. destruct (str_eqb (chapter x) k) eqn:E; [|reflexivity].
        apply str_eqb_eq in E. congruence.
      * destruct (Hl _ l0 Hin) as [-> _]. rewrite str_eqb_refl.
        split; [reflexivity|]. intros E. now apply app_eq_nil in E as [_ E].
      * rewrite str_eqb_refl. split; [|discriminate].
        replace (filter (in_chapter (chapter x)) sections) with (@nil SectionRecord);
          [reflexivity|].
        symmetry. destruct (filter _ sections) as [|s r] eqn:E; [reflexivity|].
        assert (Hs : In s (filter (in_chapter (chapter x)) sections))
          by (rewrite E; now left).
        apply filter_In in Hs as [Hs Hc]. exfalso. apply Hnin.
        apply str_eqb_eq in Hc. rewrite <- Hc. now apply Hk.
    + intros s Hs. rewrite dict_append_keys.
      apply in_app_iff in Hs as [Hs|[<-|[]]]; [right; now apply Hk|now left].
Qed.

Lemma fold_add_chapter (title_num : Z) (items : list (pystr * list SectionRecord))
    (body : ET.Element) :
  fold_left (add_chapter title_num) items body =
  ET.mkElement (ET.tag body) (ET.attrib body) (ET.text body)
    (ET.children body
     ++ map (fun item => chapter_element title_num (fst item) (snd item))
            (filter (fun item => truthy (fst item)) items)).
Proof.
  revert body; induction items as [|[k l] items IH]; intros body.
  - destruct body; simpl. now rewrite app_nil_r.
  - simpl fold_left. rewrite IH. cbn [filter fst snd add_chapter].
    destruct (truthy k); cbn [negb map]; [|reflexivity].
    rewrite append_spec. cbn [ET.tag ET.attrib ET.text ET.children].
    now rewrite <- app_assoc.
Qed.

(** Dropping items of a dict leaves its keys distinct. *)
Lemma keys_filter_nodup {V} (keep : pystr * V -> bool) (d : list (pystr * V)) :
  NoDup (map fst d) -> NoDup (map fst (filter keep d)).
Proof.
  intros Hd. induction d as [|item d IH]; [constructor|].
  cbn [map] in Hd. apply NoDup_cons_iff in Hd as [Hfresh Hd].
  cbn [filter]. destruct (keep item); [|now apply IH].
  cbn [map]. apply NoDup_cons; [|now apply IH].
  intros Hin. apply Hfresh. apply in_map_iff in Hin as (other & E & Ho).
  apply filter_In in Ho as [Ho _]. rewrite <- E. now apply in_map.
Qed.

Lemma tag_section_element (section : SectionRecord) :
  ET.tag (section_element section) = akn "section".
Proof.
  unfold section_element, add_subsection_element.
  rewrite fold_left_append.
  destruct (truthy (title section)), (truthy (subsections section)),
    (re_intro (body section)) as [[g e]|], (truthy (history section));
    reflexivity.
Qed.

(** The sections of a chapter element are those of the records it was
    built from, in the same order. *)
Lemma chapter_element_sections (title_num : Z) (k : pystr)
    (chapter_sections : list SectionRecord) :
  ET.findall (akn "section") (chapter_element title_num k chapter_sections)
  = map section_element chapter_sections.
Proof.
  unfold chapter_element, add_section_element. rewrite fold_left_append.
  unfold ET.findall. cbn [ET.children]. rewrite filter_app.
  rewrite (@filter_tag_map _ _ _ true)
    by (intros x; now rewrite tag_section_element, akn_eqb).
  destruct (truthy _); tag_tests; reflexivity.
Qed.

(** ** C8 *)

(** C8: the body of the document holds one chapter element for each
    non-empty chapter key of the records and none for the empty key; the
    chapter elements come in strictly increasing order of their keys; the
    chapter element of a key is built from the records with that key, and
    its section elements are those of these records in their original
    order. *)
Theorem chapters_grouped_and_sorted :
  forall (today : date) (title_num : Z) (sections : list SectionRecord),
  exists keys : list pystr,
    map ET.children
        (document_body (create_akn_document today title_num sections))
    = [map (fun k => chapter_element title_num k
                       (filter (in_chapter k) sections)) keys]
    /\ StronglySorted (fun a b => str_ltb a b = true) keys
    /\ (forall k, In k keys <->
                  k <> [] /\ exists s, In s sections /\ chapter s = k)
    /\ (forall k,
          ET.findall (akn "section")
            (chapter_element title_num k (filter (in_chapter k) sections))
          = map section_element (filter (in_chapter k) sections)).
Proof.
  intros today title_num sections.
  destruct (group_by_chapter_spec sections) as (Hnd & Hl & Hk).
  set (d := group_by_chapter sections) in *.
  pose proof (sorted_items_perm d) as Hperm.
  set (items := filter (fun item : pystr * list SectionRecord => truthy (fst item))
                       (sorted_items d)).
  exists (map fst items). split; [|split; [|split]].
  - rewrite document_body_spec, fold_add_chapter. fold d. fold items.
    cbn [map ET.children elem app]. f_equal.
    rewrite map_map. apply map_ext_in. intros [k l] Hin. cbn [fst snd].
    apply filter_In in Hin as [Hin _].
    apply (Permutation_in _ Hperm) in Hin.
    now destruct (Hl k l Hin) as [-> _].
  - apply sorted_keys_increasing.
    + apply StronglySorted_filter, sorted_items_sorted.
    + apply keys_filter_nodup.
      apply (Permutation_NoDup (Permutation_sym (Permutation_map fst Hperm))).
      exact Hnd.
  - intros k. split.
    + intros Hin. apply in_map_iff in Hin as ([k' l] & <- & Hin).
      apply filter_In in Hin as [Hin Ht]. cbn [fst] in *.
      split; [now destruct k'|].
      apply (Permutation_in _ Hperm) in Hin.
      destruct (Hl k' l Hin) as [-> Hne].
      destruct (filter (in_chapter k') sections) as [|s r] eqn:E; [congruence|].
      assert (Hs : In s (filter (in_chapter k') sections)) by (rewrite E; now left).
      apply filter_In in Hs as [Hs Hc]. apply str_eqb_eq in Hc. eauto.
    + intros [Hne (s & Hs & <-)].
      specialize (Hk s Hs). apply in_map_iff in Hk as ([k l] & E & Hin).
      cbn [fst] in E. subst k. apply in_map_iff. exists (chapter s, l).
      split; [reflexivity|]. apply filter_In. split.
      * apply (Permutation_in _ (Permutation_sym Hperm)). exact Hin.
      * cbn [fst]. now destruct (chapter s).
  - intros k. apply chapter_element_sections.
Qed.

(* ================================================================== *)
(** * The extractor *)

Lemma search_none_occurs (m : matcher) (L : lang) (s : pystr) :
  recognizes m L ->
  (re_search m s = None <-> forall i, ~ occurs L s i).
Proof.
  intros Hm. unfold re_search. rewrite search_from_none. split.
  - intros H i Hocc. apply (occurs_candidates s i Hm) in Hocc as [Hi Hne].
    now apply Hne, H.
  - intros H k Hk. destruct (m (skipn k s)) eqn:E; [reflexivity|].
    exfalso. apply (H k). apply (occurs_candidates s k Hm).
    split; [exact Hk|]. now rewrite E.
Qed.

Lemma three_part_section_number (w : pystr) :
  three_part_shape w -> section_number_shape w.
Proof.
  intros (d1 & d2 & d3 & -> & H1 & H2 & H3).
  exists d1, d2, d3, []. rewrite app_nil_r. splits. now left.
Qed.

(** A caption that passes the extractor's test has a section number. *)
Lemma three_part_found (caption : pystr) :
  re_search re_three_part caption <> None ->
  re_search re_section_number caption <> None.
Proof.
  intros H3 Hs. apply H3.
  apply (search_none_occurs caption recognizes_three_part).
  rewrite (search_none_occurs caption recognizes_section_number) in Hs.
  intros i (pre & w & post & E & Hl & Hw). apply (Hs i).
  exists pre, w, post. splits. now apply three_part_section_number.
Qed.

Lemma extract_section_number_shape (caption : pystr) :
  re_search re_section_number caption <> None ->
  section_number_shape (extract_section_number caption).
Proof.
  unfold extract_section_number, re_search. intros H.
  destruct (search_from re_section_number 0 caption) as [[i n]|] eqn:E;
    [|congruence].
  apply search_from_some in E as (k & -> & Hk & Hhd & _). simpl.
  apply (recognizes_section_number (skipn k caption) n).
  destruct (re_section_number (skipn k caption)); [discriminate|].
  injection Hhd as ->. now left.
Qed.

(** ** [str.split] on the first two fields *)

Lemma split_go_field (sep : char) (d rest cur : pystr) :
  forallb (fun c => negb (c =? sep)%N) d = true ->
  Py.split_go sep cur (d ++ sep :: rest)
  = (rev cur ++ d) :: Py.split_go sep [] rest.
Proof.
  revert cur; induction d as [|c d IH]; intros cur H; simpl.
  - now rewrite N.eqb_refl, app_nil_r.
  - simpl in H. apply andb_true_iff in H as [Hc Hd].
    apply negb_true_iff in Hc. rewrite Hc, IH by exact Hd.
    simpl. now rewrite <- app_assoc.
Qed.

Lemma digits_no_dash (d : pystr) :
  Lplus is_digit d -> forallb (fun c => negb (c =? 45)%N) d = true.
Proof.
  intros [_ H]. rewrite forallb_forall in *. intros c Hc.
  specialize (H c Hc). apply digit_not_dash in H.
  now rewrite N.eqb_sym, H.
Qed.

Lemma split_section_number (d1 d2 rest : pystr) :
  Lplus is_digit d1 -> Lplus is_digit d2 ->
  exists tail,
    Py.split 45%N (d1 ++ py "-" ++ d2 ++ py "-" ++ rest) = d1 :: d2 :: tail.
Proof.
  intros H1 H2. unfold Py.split. change (py "-") with [45%N]. simpl app.
  rewrite split_go_field by now apply digits_no_dash.
  rewrite split_go_field by now apply digits_no_dash.
  simpl. eauto.
Qed.

(** What [parse_index] stores in a record. *)
Lemma parse_index_some html5 limit (index : Index) (r : SectionRecord) :
  parse_index html5 limit index = Some (Some r) ->
  exists caption content,
    re_search re_three_part caption <> None
    /\ r = mkSection (extract_section_number caption)
             (stripped_text (Description index)) content
             (stripped_text (RevisionHistory index))
             (let parts := Py.split 45%N (extract_section_number caption) in
              if 1 <? length parts then nth 1 parts [] else [])
             [] (parse_subsections content).
Proof.
  unfold parse_index.
  destruct (negb _); [discriminate|].
  destruct (Caption index) as [[caption|]|]; try discriminate.
  destruct (negb (truthy caption)); [discriminate|].
  destruct (re_search re_three_part (strip caption)) as [p|] eqn:E;
    [|discriminate].
  match goal with |- context [match ?c with Some _ => _ | None => None end] =>
    destruct c as [content|] end; [|discriminate].
  intros H. apply Some_inj, Some_inj in H. subst r.
  exists (strip caption), content. split; [congruence|reflexivity].
Qed.

Lemma parse_source_xml_in html5 limit (root : list Index)
    (sections : list SectionRecord) (r : SectionRecord) :
  parse_source_xml html5 limit root = Some sections ->
  In r sections ->
  exists index, In index root /\ parse_index html5 limit index = Some (Some r).
Proof.
  revert sections; induction root as [|index root IH]; intros sections; simpl.
  - intros [= <-] [].
  - destruct (parse_index html5 limit index) as [o|] eqn:E; [|discriminate].
    destruct (parse_source_xml html5 limit root) as [rest|]; [|discriminate].
    intros H Hin. apply Some_inj in H. subst sections.
    destruct o as [s|].
    + destruct Hin as [<-|Hin]; [exists index; auto|].
      destruct (IH rest eq_refl Hin) as (i & Hi & Hp). exists i. auto.
    + destruct (IH rest eq_refl Hin) as (i & Hi & Hp). exists i. auto.
Qed.

(** ** C10 *)

(** C10: every record that [parse_source_xml] returns has a section
    number of the shape [\d+-\d+-\d+(\.\d+)?], obtained from a caption on
    which the search of [extract_section_number] succeeds (the fallback is
    not taken); its chapter is the second field of that number, a
    non-empty string of digits; so every key of the sorted chapter dict
    that the builder makes of these records is non-empty, and the builder
    never takes the branch that drops a chapter. *)
Theorem extractor_section_numbers :
  forall (html5 : pystr -> option pystr) (int_max_str_digits : nat)
         (root : list Index) (sections : list SectionRecord),
    parse_source_xml html5 int_max_str_digits root = Some sections ->
    Forall (fun r =>
              section_number_shape (section_number r)
              /\ (exists caption,
                    re_search re_section_number caption <> None
                    /\ section_number r = extract_section_number caption)
              /\ (exists d1 d2 rest,
                    section_number r = d1 ++ py "-" ++ d2 ++ py "-" ++ rest
                    /\ Lplus is_digit d1 /\ Lplus is_digit d2
                    /\ chapter r = d2)
              /\ chapter r <> [])
           sections
    /\ Forall (fun item => truthy (fst item) = true)
              (sorted_items (group_by_chapter sections)).
Proof.
  intros html5 limit root sections Hparse.
  assert (Hrec : forall r, In r sections ->
             section_number_shape (section_number r)
             /\ (exists caption,
                   re_search re_section_number caption <> None
                   /\ section_number r = extract_section_number caption)
             /\ (exists d1 d2 rest,
                   section_number r = d1 ++ py "-" ++ d2 ++ py "-" ++ rest
                   /\ Lplus is_digit d1 /\ Lplus is_digit d2
                   /\ chapter r = d2)
             /\ chapter r <> []).
  { intros r Hr.
    eapply parse_source_xml_in in Hr as (index & _ & Hi); [|exact Hparse].
    apply parse_index_some in Hi as (caption & content & H3 & ->).
    cbn [section_number chapter].
    pose proof (three_part_found _ H3) as Hs.
    pose proof (extract_section_number_shape _ Hs) as Hshape.
    split; [exact Hshape|]. split; [exists caption; auto|].
    destruct Hshape as (d1 & d2 & d3 & t & E & H1 & H2 & _).
    destruct (@split_section_number d1 d2 (d3 ++ t) H1 H2) as (tail & Hsplit).
    rewrite E, Hsplit. cbn -[py].
    split; [exists d1, d2, (d3 ++ t); auto|]. apply H2. }
  split; [now apply Forall_forall|].
  apply Forall_forall. intros [k l] Hin. cbn [fst].
  apply (Permutation_in _ (sorted_items_perm _)) in Hin.
  destruct (group_by_chapter_spec sections) as (_ & Hl & _).
  destruct (Hl k l Hin) as [-> Hne].
  destruct (filter (in_chapter k) sections) as [|s r] eqn:E; [congruence|].
  assert (Hs : In s (filter (in_chapter k) sections)) by (rewrite E; now left).
  apply filter_In in Hs as [Hs Hc]. apply str_eqb_eq in Hc. subst k.
  destruct (Hrec s Hs) as (_ & _ & _ & Hne'). now destruct (chapter s).
Qed.

(* ================================================================== *)
(** * Substitution *)

Lemma sub_go_skip (m : matcher) (r : pystr) (k : nat) (s : pystr) :
  sub_go m r k s = sub_go m r 0 (skipn k s) \/ (length s < k /\ sub_go m r k s = []).
Proof.
  revert s; induction k as [|k IH]; intros s; [now left|].
  destruct s as [|c s]; [right; simpl; split; [lia|reflexivity]|].
  simpl sub_go. simpl skipn. destruct (IH s) as [H|[H1 H2]]; [now left|].
  right. simpl. split; [lia|exact H2].
Qed.

Lemma sub_go_match (m : matcher) (r : pystr) (c : char) (s : pystr) (n : nat) :
  hd_error (m (c :: s)) = Some (S n) ->
  sub_go m r 0 (c :: s) = r ++ sub_go m r n s.
Proof.
  simpl sub_go. destruct (m (c :: s)) as [|[|k] l]; try discriminate.
  now intros [= ->].
Qed.

Lemma sub_go_nomatch (m : matcher) (r : pystr) (c : char) (s : pystr) :
  m (c :: s) = [] -> sub_go m r 0 (c :: s) = c :: sub_go m r 0 s.
Proof. simpl sub_go. now intros ->. Qed.

(** Without a match anywhere the text is left as it is. *)
Lemma re_sub_id (m : matcher) (r : pystr) (s : pystr) :
  (forall i, m (skipn i s) = []) -> re_sub m r s = s.
Proof.
  unfold re_sub. induction s as [|c s IH]; intros H.
  - specialize (H 0). simpl in *. now rewrite H.
  - rewrite sub_go_nomatch by apply (H 0). f_equal. apply IH.
    intros i. apply (H (S i)).
Qed.

(* ================================================================== *)
(** * Tags *)

(** A text that starts with a match of [<[^>]+>]. *)
Definition tag_at (s : pystr) : bool :=
  match s with
  | a :: c :: r => (a =? 60)%N && not_gt c && contains 62%N r
  | _ => false
  end.

(** No match of [<[^>]+>] starts anywhere in the text. *)
Definition no_tag (s : pystr) : Prop := forall i, tag_at (skipn i s) = false.

(** The claim's words: an opening angle bracket, one or more characters
    other than the closing one, then a closing angle bracket. *)
Definition has_tag (s : pystr) : Prop :=
  exists a b c,
    s = a ++ [60%N] ++ b ++ [62%N] ++ c
    /\ b <> [] /\ Forall (fun ch => ch <> 62%N) b.

Lemma contains_In (c : char) (s : pystr) : contains c s = true <-> In c s.
Proof.
  unfold contains. rewrite existsb_exists. split.
  - intros (x & Hx & E). apply N.eqb_eq in E. now subst.
  - intros H. exists c. split; [exact H|apply N.eqb_refl].
Qed.

Lemma no_tag_cons (c : char) (s : pystr) :
  no_tag (c :: s) <-> tag_at (c :: s) = false /\ no_tag s.
Proof.
  split.
  - intros H. split; [apply (H 0)|]. intros i. apply (H (S i)).
  - intros [H0 H] [|i]; [exact H0|apply H].
Qed.

Lemma no_tag_nil : no_tag [].
Proof. intros i. now rewrite skipn_nil. Qed.

Lemma no_tag_skipn (k : nat) (s : pystr) : no_tag s -> no_tag (skipn k s).
Proof. intros H i. rewrite skipn_skipn. apply H. Qed.

Lemma tag_at_app (s w : pystr) : tag_at s = true -> tag_at (s ++ w) = true.
Proof.
  destruct s as [|a [|c r]]; try discriminate. simpl.
  rewrite !andb_true_iff, !contains_In, in_app_iff. tauto.
Qed.

Lemma no_tag_app_l (s w : pystr) : no_tag (s ++ w) -> no_tag s.
Proof.
  intros H i. destruct (tag_at (skipn i s)) eqn:E; [|reflexivity].
  destruct (Nat.le_gt_cases i (length s)) as [Hi|Hi].
  - apply tag_at_app with (w := w) in E.
    specialize (H i). rewrite skipn_app in H.
    replace (i - length s) with 0 in H by lia. simpl in H. congruence.
  - rewrite skipn_all2 in E by lia. discriminate.
Qed.

Lemma no_tag_not_has_tag (s : pystr) : no_tag s -> ~ has_tag s.
Proof.
  intros H (a & b & c & -> & Hb & Hgt).
  specialize (H (length a)). rewrite skipn_app_length in H.
  destruct b as [|x b]; [congruence|]. simpl in H.
  inversion Hgt as [|? ? Hx _]; subst.
  unfold not_gt in H. apply N.eqb_neq in Hx. rewrite Hx in H. simpl in H.
  assert (Hin : contains 62%N (b ++ 62%N :: c) = true).
  { apply contains_In, in_app_iff. right. now left. }
  rewrite Hin in H. discriminate.
Qed.

(** The candidates of [<[^>]+>]. *)
Lemma lit_gt_after_run (r : pystr) :
  lit ">" (skipn (run not_gt r) r) = if contains 62%N r then [1] else [].
Proof.
  induction r as [|c r IH]; [reflexivity|]. simpl run. unfold not_gt at 1.
  destruct (N.eqb_spec c 62) as [->|Hne]; simpl negb; cbv iota.
  - reflexivity.
  - simpl skipn. rewrite IH. unfold contains. cbn [existsb].
    replace (62 =? c)%N with false; [reflexivity|].
    symmetry. apply N.eqb_neq. congruence.
Qed.

Lemma re_tag_cases (s : pystr) :
  re_tag s = if tag_at s then [2 + run not_gt (tl s)] else [].
Proof.
  unfold re_tag. rewrite cat_lit. change (py "<") with [60%N].
  destruct s as [|a s]; [reflexivity|]. cbn [prefix_by length skipn tl].
  rewrite andb_true_r, N.eqb_sym.
  destruct (a =? 60)%N eqn:Ea.
  2:{ unfold tag_at. destruct s; [reflexivity|]. now rewrite Ea. }
  rewrite cat_plus_commit.
  2:{ intros c t Hc. unfold lit. change (py ">") with [62%N].
      cbn [prefix_by]. unfold not_gt in Hc. apply negb_true_iff in Hc.
      now rewrite N.eqb_sym, Hc. }
  destruct s as [|c r]; [reflexivity|].
  unfold tag_at. cbn [run]. rewrite Ea. cbn [andb].
  destruct (not_gt c) eqn:Ec; [|reflexivity].
  cbn [skipn]. rewrite lit_gt_after_run.
  destruct (contains 62%N r); [|reflexivity].
  cbn [map andb]. f_equal. lia.
Qed.

Lemma re_tag_nil (s : pystr) : re_tag s = [] <-> tag_at s = false.
Proof. rewrite re_tag_cases. destruct (tag_at s); split; congruence. Qed.

(** Copying a character in front of a substituted rest cannot start a tag
    when it did not start one in the text. *)
Lemma tag_at_copy (c : char) (s o : pystr) :
  tag_at (c :: s) = false ->
  (In 62%N o -> In 62%N s) ->
  (forall r, s = 62%N :: r -> exists r', o = 62%N :: r') ->
  (s = [] -> o = []) ->
  tag_at (c :: o) = false.
Proof.
  intros Ht Hin Hhd Hnil. unfold tag_at in *.
  destruct o as [|x y]; [reflexivity|].
  destruct s as [|d r]; [now specialize (Hnil eq_refl)|].
  destruct (c =? 60)%N; [|reflexivity]. cbn [andb] in *.
  destruct (not_gt d) eqn:Ed; cbn [andb] in Ht.
  - destruct (contains 62%N y) eqn:Ey; [|apply andb_false_r].
    exfalso. apply contains_In in Ey.
    destruct (Hin (or_intror Ey)) as [->|Hr]; [discriminate Ed|].
    apply contains_In in Hr. congruence.
  - unfold not_gt in Ed. apply negb_false_iff, N.eqb_eq in Ed. subst d.
    destruct (Hhd r eq_refl) as (r' & [= E1 E2]). subst x. reflexivity.
Qed.

(** After [re.sub(r"<[^>]+>", "", text)] no tag is left. *)
Lemma sub_tag_spec (s : pystr) (k : nat) :
  no_tag (sub_go re_tag [] k s)
  /\ (forall c, In c (sub_go re_tag [] k s) -> In c s).
Proof.
  revert k; induction s as [|c s IH]; intros k.
  - destruct k; simpl; (split; [apply no_tag_nil|auto]).
  - destruct k as [|k].
    + pose proof (re_tag_cases (c :: s)) as Hc.
      destruct (tag_at (c :: s)) eqn:E.
      * rewrite (@sub_go_match _ _ _ _ (1 + run not_gt (tl (c :: s))))
          by now rewrite Hc.
        simpl app. destruct (IH (1 + run not_gt (tl (c :: s)))) as [H1 H2].
        split; [exact H1|]. intros x Hx. right. auto.
      * rewrite sub_go_nomatch by exact Hc.
        destruct (IH 0) as [H1 H2]. split.
        -- apply no_tag_cons. split; [|exact H1].
           apply tag_at_copy with (s := s); auto.
           ++ intros r ->. rewrite sub_go_nomatch; [eauto|].
              apply re_tag_nil. unfold tag_at. now destruct r.
           ++ now intros ->.
        -- intros x [<-|Hx]; [now left|right; auto].
    + simpl sub_go. destruct (IH k) as [H1 H2]. split; [exact H1|].
      intros x Hx. right. auto.
Qed.

Lemma no_tag_app_neutral (repl o : pystr) :
  Forall (fun c => c <> 60%N) repl -> no_tag o -> no_tag (repl ++ o).
Proof.
  induction 1 as [|x repl Hx _ IH]; intros Ho; [exact Ho|].
  simpl. apply no_tag_cons. split; [|now apply IH].
  unfold tag_at. apply N.eqb_neq in Hx. rewrite Hx.
  now destruct (_ ++ _).
Qed.

(** A substitution whose matches start with a character other than the
    angle brackets, and whose replacement has no angle bracket, makes no
    tag. *)
Lemma sub_neutral_spec (m : matcher) (repl : pystr) :
  (forall s n, hd_error (m s) = Some n ->
               exists n' c t, n = S n' /\ s = c :: t /\ c <> 60%N /\ c <> 62%N) ->
  Forall (fun c => c <> 60%N) repl -> ~ In 62%N repl ->
  forall s k,
    (no_tag s -> no_tag (sub_go m repl k s))
    /\ (In 62%N (sub_go m repl k s) -> In 62%N s).
Proof.
  intros Hm Hlt Hgt.
  assert (Hnil : forall s, (forall c t, s = c :: t -> c = 60%N \/ c = 62%N) ->
                           m s = []).
  { intros s Hs. destruct (m s) as [|n l] eqn:E; [reflexivity|].
    destruct (Hm s n) as (n' & c & t & _ & -> & H1 & H2); [now rewrite E|].
    destruct (Hs c t eq_refl); contradiction. }
  induction s as [|c s IH]; intros k.
  - assert (E : sub_go m repl k [] = []).
    { destruct k; simpl; [|reflexivity]. rewrite Hnil; [reflexivity|].
      intros c t [=]. }
    rewrite E. split; [intros _; apply no_tag_nil|intros []].
  - destruct k as [|k].
    + destruct (m (c :: s)) as [|n l] eqn:E.
      * rewrite sub_go_nomatch by exact E. destruct (IH 0) as [H1 H2]. split.
        -- intros Hs. apply no_tag_cons in Hs as [Hc Hs].
           apply no_tag_cons. split; [|auto].
           apply tag_at_copy with (s := s); auto.
           ++ intros r ->. rewrite sub_go_nomatch; [eauto|].
              apply Hnil. intros c' t [= <- <-]. now right.
           ++ intros ->. simpl. rewrite Hnil; [reflexivity|]. intros c' t [=].
        -- intros [<-|Hx]; [now left|right; auto].
      * destruct (Hm (c :: s) n) as (n' & c' & t & -> & _ & _ & _);
          [now rewrite E|].
        rewrite (@sub_go_match _ _ _ _ n') by now rewrite E.
        destruct (IH n') as [H1 H2]. split.
        -- intros Hs. apply no_tag_cons in Hs as [_ Hs].
           apply no_tag_app_neutral; auto.
        -- intros Hx. apply in_app_iff in Hx as [Hx|Hx]; [contradiction|].
           right. auto.
    + simpl sub_go. destruct (IH k) as [H1 H2]. split.
      * intros Hs. apply no_tag_cons in Hs as [_ Hs]. auto.
      * intros Hx. right. auto.
Qed.

(** ** [str.strip] keeps a substring *)

Lemma lstrip_skipn (s : pystr) : exists k, lstrip s = skipn k s.
Proof.
  induction s as [|c s [k IH]]; [now exists 0|]. simpl.
  destruct (is_space c); [exists (S k); exact IH|now exists 0].
Qed.

Lemma rstrip_app (s : pystr) : exists w, s = rstrip s ++ w.
Proof.
  unfold rstrip. destruct (lstrip_skipn (rev s)) as [k Hk].
  exists (rev (firstn k (rev s))).
  rewrite Hk, <- rev_app_distr, firstn_skipn. now rewrite rev_involutive.
Qed.

Lemma no_tag_strip (s : pystr) : no_tag s -> no_tag (strip s).
Proof.
  intros H. unfold strip. destruct (rstrip_app (lstrip s)) as [w Hw].
  apply no_tag_app_l with w. rewrite <- Hw.
  destruct (lstrip_skipn s) as [k ->]. now apply no_tag_skipn.
Qed.

(* ================================================================== *)
(** * Blank lines *)

(** Position of the last newline in the run of whitespace at the start
    of a text. *)
Fixpoint last_nl (r : pystr) : option nat :=
  match r with
  | [] => None
  | c :: r' =>
      if is_space c then
        match last_nl r' with
        | Some j => Some (S j)
        | None => if N.eqb nl c then Some 0 else None
        end
      else None
  end.

(** The match of [\n\s*\n+] at the start of a text: from the newline to
    the last newline of the whitespace that follows it. *)
Definition blank_len (s : pystr) : option nat :=
  match s with
  | c :: r => if N.eqb nl c then option_map (fun j => S (S j)) (last_nl r)
              else None
  | [] => None
  end.

Lemma cat_set_cons (p : char -> bool) (b : matcher) (c : char) (r : pystr) :
  (set p >> b) (c :: r) = if p c then map S (b r) else [].
Proof.
  unfold cat, set. destruct (p c); [|reflexivity]. simpl. apply app_nil_r.
Qed.

Lemma flat_map_map_S (g : nat -> list nat) (l : list nat) :
  flat_map (fun n => map S (g n)) l = map S (flat_map g l).
Proof.
  induction l as [|x l IH]; simpl; [reflexivity|]. now rewrite IH, map_app.
Qed.

Lemma flat_map_map {A B C} (f : B -> list C) (h : A -> B) (l : list A) :
  flat_map f (map h l) = flat_map (fun x => f (h x)) l.
Proof. induction l as [|x l IH]; simpl; [reflexivity|]. now rewrite IH. Qed.

Lemma map_add_0 (l : list nat) : map (Nat.add 0) l = l.
Proof. apply map_id. Qed.

Lemma cat_star_cons (p : char -> bool) (b : matcher) (c : char) (r : pystr) :
  (star p >> b) (c :: r) =
  if p c then map S ((star p >> b) r) ++ b (c :: r) else b (c :: r).
Proof.
  unfold cat, star. cbn [run]. destruct (p c).
  - set (k := run p r).
    replace (List.seq 0 (S (S k))) with (0 :: map S (List.seq 0 (S k)))
      by (rewrite seq_shift; reflexivity).
    cbn [rev]. rewrite <- map_rev, flat_map_app, flat_map_map.
    cbn [flat_map skipn]. rewrite app_nil_r, map_add_0. f_equal.
    rewrite <- flat_map_map_S. apply flat_map_ext. intros n.
    cbn [skipn]. now rewrite map_map.
  - cbn [List.seq rev app flat_map skipn]. now rewrite app_nil_r, map_add_0.
Qed.

Lemma is_space_nl (c : char) : N.eqb nl c = true -> is_space c = true.
Proof. intros H. apply N.eqb_eq in H. now subst. Qed.

Lemma last_nl_none_run (r : pystr) :
  last_nl r = None -> run (N.eqb nl) r = 0.
Proof.
  destruct r as [|c r]; [reflexivity|]. cbn [last_nl run].
  destruct (N.eqb nl c) eqn:E; [|reflexivity].
  rewrite (is_space_nl _ E). now destruct (last_nl r).
Qed.

Lemma hd_star_plus_nl (r : pystr) :
  hd_error ((star is_space >> plus (N.eqb nl)) r) = option_map S (last_nl r).
Proof.
  induction r as [|c r IH]; [reflexivity|].
  rewrite cat_star_cons. cbn [last_nl].
  destruct (is_space c) eqn:Ec.
  - destruct ((star is_space >> plus (N.eqb nl)) r) as [|x l] eqn:El.
    + destruct (last_nl r) as [j|] eqn:Ej; [discriminate|].
      cbn [map app]. unfold plus. cbn [run].
      destruct (N.eqb nl c); [|reflexivity].
      now rewrite (last_nl_none_run _ Ej).
    + cbn [map app hd_error] in *.
      destruct (last_nl r) as [j|]; [|discriminate].
      cbn [option_map] in *. congruence.
  - unfold plus. cbn [run].
    destruct (N.eqb nl c) eqn:E; [|reflexivity].
    apply is_space_nl in E. congruence.
Qed.

Lemma hd_error_map {A B} (f : A -> B) (l : list A) :
  hd_error (map f l) = option_map f (hd_error l).
Proof. now destruct l. Qed.

Lemma hd_blank_lines (s : pystr) :
  hd_error (re_blank_lines s) = blank_len s.
Proof.
  unfold re_blank_lines, blank_len. destruct s as [|c r]; [reflexivity|].
  rewrite cat_set_cons. destruct (N.eqb nl c); [|reflexivity].
  rewrite hd_error_map, hd_star_plus_nl. now destruct (last_nl r).
Qed.

Lemma hd_error_none {A} (l : list A) : hd_error l = None -> l = [].
Proof. now destruct l. Qed.

Lemma last_nl_skipn (r : pystr) (j : nat) :
  last_nl r = Some j -> last_nl (skipn (S j) r) = None.
Proof.
  revert j; induction r as [|c r IH]; intros j; [discriminate|].
  cbn [last_nl]. destruct (is_space c); [|discriminate].
  destruct (last_nl r) as [j'|] eqn:E.
  - intros [= <-]. now apply IH.
  - destruct (N.eqb nl c); [|discriminate]. intros [= <-]. exact E.
Qed.

Lemma last_nl_zero (r : pystr) :
  last_nl r = Some 0 -> exists r2, r = nl :: r2 /\ last_nl r2 = None.
Proof.
  destruct r as [|c r]; [discriminate|]. cbn [last_nl].
  destruct (is_space c); [|discriminate].
  destruct (last_nl r) as [j|] eqn:E; [discriminate|].
  destruct (N.eqb_spec nl c) as [<-|]; [|discriminate]. eauto.
Qed.

Definition collapse (s : pystr) : pystr := re_sub re_blank_lines [nl; nl] s.

Lemma blank_nomatch (c : char) (s : pystr) :
  blank_len (c :: s) = None ->
  sub_go re_blank_lines [nl; nl] 0 (c :: s)
  = c :: sub_go re_blank_lines [nl; nl] 0 s.
Proof.
  intros H. apply sub_go_nomatch, hd_error_none. now rewrite hd_blank_lines.
Qed.

(** Whitespace without a newline stays without one. *)
Lemma last_nl_collapse (u : pystr) :
  last_nl u = None -> last_nl (sub_go re_blank_lines [nl; nl] 0 u) = None.
Proof.
  induction u as [|c u IH]; [reflexivity|]. cbn [last_nl].
  destruct (is_space c) eqn:Ec.
  - destruct (last_nl u) as [j|]; [discriminate|].
    destruct (N.eqb nl c) eqn:En; [discriminate|]. intros _.
    rewrite blank_nomatch by (unfold blank_len; now rewrite En).
    cbn [last_nl]. now rewrite Ec, IH, En.
  - intros _. rewrite blank_nomatch.
    + cbn [last_nl]. now rewrite Ec.
    + unfold blank_len. destruct (N.eqb nl c) eqn:En; [|reflexivity].
      apply is_space_nl in En. congruence.
Qed.

(** Every newline is followed by whitespace that has no newline, or
    whose only newline comes first. *)
Fixpoint collapsed (o : pystr) : Prop :=
  match o with
  | [] => True
  | c :: r => (c = nl -> last_nl r = None \/ last_nl r = Some 0) /\ collapsed r
  end.

Lemma blank_len_cases (c : char) (s : pystr) :
  blank_len (c :: s) = None
  \/ exists j, N.eqb nl c = true /\ last_nl s = Some j.
Proof.
  unfold blank_len. destruct (N.eqb nl c); [|now left].
  destruct (last_nl s) as [j|]; [right; eauto|now left].
Qed.

Lemma blank_match (c : char) (s : pystr) (j : nat) :
  N.eqb nl c = true -> last_nl s = Some j ->
  sub_go re_blank_lines [nl; nl] 0 (c :: s)
  = nl :: nl :: sub_go re_blank_lines [nl; nl] (S j) s.
Proof.
  intros Hc Hj. apply (@sub_go_match re_blank_lines [nl; nl] c s (S j)).
  rewrite hd_blank_lines. unfold blank_len. now rewrite Hc, Hj.
Qed.

Lemma last_nl_sub_go_skip (s : pystr) (j : nat) :
  last_nl s = Some j ->
  last_nl (sub_go re_blank_lines [nl; nl] (S j) s) = None.
Proof.
  intros Hj.
  destruct (sub_go_skip re_blank_lines [nl; nl] (S j) s) as [->|[_ ->]];
    [|reflexivity].
  apply last_nl_collapse. now apply last_nl_skipn.
Qed.

Lemma last_nl_nl_cons (o : pystr) :
  last_nl o = None -> last_nl (nl :: o) = Some 0.
Proof. intros H. cbn [last_nl]. rewrite H. reflexivity. Qed.

(** The output of [re.sub(r"\n\s*\n+", "\n\n", text)] is collapsed. *)
Lemma collapsed_sub_go (s : pystr) (k : nat) :
  collapsed (sub_go re_blank_lines [nl; nl] k s).
Proof.
  revert k; induction s as [|c s IH]; intros k.
  - destruct k; exact I.
  - destruct k as [|k]; [|apply IH].
    destruct (blank_len_cases c s) as [E|(j & Hc & Hj)].
    + rewrite blank_nomatch by exact E. cbn [collapsed]. split; [|apply IH].
      intros ->. left. apply last_nl_collapse.
      unfold blank_len in E. rewrite N.eqb_refl in E.
      now destruct (last_nl s).
    + rewrite (@blank_match c s j Hc Hj).
      pose proof (@last_nl_sub_go_skip s j Hj) as Hn.
      cbn [collapsed]. split; [|split; [|apply IH]].
      * intros _. right. now apply last_nl_nl_cons.
      * intros _. now left.
Qed.

(** On a collapsed text the substitution changes nothing. *)
Lemma collapse_collapsed (o : pystr) : collapsed o -> collapse o = o.
Proof.
  unfold collapse, re_sub. induction o as [|c r IH]; [reflexivity|].
  intros [Hc Hr]. specialize (IH Hr).
  destruct (blank_len_cases c r) as [E|(j & Hnl & Hj)].
  - rewrite blank_nomatch by exact E. now rewrite IH.
  - apply N.eqb_eq in Hnl. subst c.
    destruct (Hc eq_refl) as [H|H]; [congruence|].
    rewrite H in Hj. apply Some_inj in Hj. subst j.
    rewrite (@blank_match nl r 0 (N.eqb_refl nl) H).
    destruct (@last_nl_zero r H) as (r2 & -> & Hr2).
    cbn [sub_go].
    rewrite blank_nomatch in IH
      by (unfold blank_len; now rewrite N.eqb_refl, Hr2).
    apply (f_equal (@tl char)) in IH. cbn [tl] in IH. now rewrite IH.
Qed.

(** ** [str.strip] *)

Lemma collapsed_skipn (k : nat) (o : pystr) : collapsed o -> collapsed (skipn k o).
Proof.
  revert o; induction k as [|k IH]; intros o H; [exact H|].
  destruct o as [|c o]; [exact I|]. apply IH, H.
Qed.

Lemma forallb_rev {A} (f : A -> bool) (l : list A) :
  forallb f (rev l) = forallb f l.
Proof.
  induction l as [|x l IH]; [reflexivity|]. simpl.
  rewrite forallb_app, IH. simpl. rewrite andb_true_r. apply andb_comm.
Qed.

Lemma lstrip_all_space (a : pystr) : forallb is_space a = true -> lstrip a = [].
Proof.
  induction a as [|x a IH]; [reflexivity|]. cbn [forallb lstrip].
  destruct (is_space x); [exact IH|discriminate].
Qed.

Lemma lstrip_app_one (a : pystr) (c : char) :
  lstrip (a ++ [c]) =
  if forallb is_space a then (if is_space c then [] else [c])
  else lstrip a ++ [c].
Proof.
  induction a as [|x a IH]; [reflexivity|]. cbn [app forallb lstrip].
  destruct (is_space x); [exact IH|reflexivity].
Qed.

Lemma rstrip_all_space (s : pystr) : forallb is_space s = true -> rstrip s = [].
Proof.
  intros H. unfold rstrip. rewrite lstrip_all_space; [reflexivity|].
  now rewrite forallb_rev.
Qed.

Lemma rstrip_cons (c : char) (s : pystr) :
  rstrip (c :: s) =
  if is_space c && forallb is_space s then [] else c :: rstrip s.
Proof.
  unfold rstrip. cbn [rev]. rewrite lstrip_app_one, forallb_rev.
  destruct (forallb is_space s) eqn:E.
  - rewrite andb_true_r, lstrip_all_space by now rewrite forallb_rev.
    now destruct (is_space c).
  - rewrite andb_false_r, rev_app_distr. reflexivity.
Qed.

Lemma last_nl_rstrip (s : pystr) :
  forallb is_space s = false -> last_nl (rstrip s) = last_nl s.
Proof.
  induction s as [|c s IH]; [discriminate|]. intros H. rewrite rstrip_cons.
  cbn [forallb] in H. destruct (is_space c) eqn:Ec; cbn [andb] in *.
  - rewrite H. cbn [last_nl]. now rewrite Ec, (IH H).
  - cbn [last_nl]. now rewrite Ec.
Qed.

Lemma collapsed_rstrip (s : pystr) : collapsed s -> collapsed (rstrip s).
Proof.
  induction s as [|c s IH]; [intros _; exact I|]. intros [Hc Hs].
  rewrite rstrip_cons.
  destruct (is_space c && forallb is_space s); [exact I|].
  cbn [collapsed]. split; [|auto]. intros Hnl.
  destruct (forallb is_space s) eqn:Ef.
  - rewrite rstrip_all_space by exact Ef. now left.
  - rewrite last_nl_rstrip by exact Ef. auto.
Qed.

Lemma collapsed_strip (s : pystr) : collapsed s -> collapsed (strip s).
Proof.
  intros H. unfold strip. apply collapsed_rstrip.
  destruct (lstrip_skipn s) as [k ->]. now apply collapsed_skipn.
Qed.

Lemma lstrip_idem (s : pystr) : lstrip (lstrip s) = lstrip s.
Proof.
  induction s as [|c s IH]; [reflexivity|]. cbn [lstrip].
  destruct (is_space c) eqn:E; [exact IH|]. cbn [lstrip]. now rewrite E.
Qed.

Lemma rstrip_idem (s : pystr) : rstrip (rstrip s) = rstrip s.
Proof. unfold rstrip. now rewrite rev_involutive, lstrip_idem. Qed.

Lemma lstrip_rstrip_lstrip (s : pystr) :
  lstrip (rstrip (lstrip s)) = rstrip (lstrip s).
Proof.
  induction s as [|c s IH]; [reflexivity|]. cbn [lstrip].
  destruct (is_space c) eqn:E; [exact IH|].
  rewrite rstrip_cons, E. cbn [andb lstrip]. now rewrite E.
Qed.

Lemma strip_idem (s : pystr) : strip (strip s) = strip s.
Proof. unfold strip. now rewrite lstrip_rstrip_lstrip, rstrip_idem. Qed.

(* ================================================================== *)
(** * The normalizer *)

(** ** The whitelisted tags are tags *)

Lemma ne_nil_in {A} (l : list A) : l <> [] <-> exists x, In x l.
Proof.
  destruct l as [|x l]; split; try congruence.
  - intros [x []].
  - intros _. exists x. now left.
Qed.

Lemma In_skipn {A} (x : A) (n : nat) (l : list A) : In x (skipn n l) -> In x l.
Proof.
  intros H. rewrite <- (firstn_skipn n l). apply in_app_iff. now right.
Qed.

Lemma prefix_ci_gt (r s : pystr) :
  prefix_by ci_eqb r s = true -> In 62%N r -> In 62%N s.
Proof.
  revert s; induction r as [|p r IH]; intros s H []; destruct s as [|c s];
    try discriminate; cbn [prefix_by] in H;
    apply andb_true_iff in H as [Hc Hr].
  - subst p. change (ci_eqb 62%N c) with (c =? 62)%N in Hc.
    apply N.eqb_eq in Hc. now left.
  - right. now apply IH.
Qed.

(** A literal that opens like a tag: [<] and then a character that does
    not match [>]. *)
Definition tag_word (w : pystr) : bool :=
  match w with
  | a :: p :: _ => (a =? 60)%N && negb (ci_eqb p 62%N)
  | _ => false
  end.

Lemma tag_at_intro (a c : char) (r : pystr) :
  a = 60%N -> c <> 62%N -> In 62%N r -> tag_at (a :: c :: r) = true.
Proof.
  intros -> Hc Hr. unfold tag_at, not_gt.
  apply N.eqb_neq in Hc. rewrite Hc. apply contains_In in Hr. now rewrite Hr.
Qed.

Lemma prefix_ci_head (w s : pystr) :
  prefix_by ci_eqb w s = true -> tag_word w = true ->
  exists c r, s = 60%N :: c :: r /\ c <> 62%N
              /\ prefix_by ci_eqb (skipn 2 w) r = true.
Proof.
  destruct w as [|a [|p w]]; try discriminate.
  destruct s as [|a' [|c r]]; cbn [prefix_by tag_word]; intros H Hw;
    try (now rewrite ?andb_false_r in H).
  apply andb_true_iff in H as [Ha H]. apply andb_true_iff in H as [Hp H].
  apply andb_true_iff in Hw as [Hw1 Hw2]. apply N.eqb_eq in Hw1. subst a.
  change (ci_eqb 60%N a') with (a' =? 60)%N in Ha. apply N.eqb_eq in Ha.
  subst a'. exists c, r. split; [reflexivity|]. split; [|exact H].
  intros ->. rewrite Hp in Hw2. discriminate.
Qed.

Lemma lit_i_tag (w : string) (s : pystr) :
  tag_word (py w) = true -> In 62%N (skipn 2 (py w)) ->
  lit_i w s <> [] -> tag_at s = true.
Proof.
  intros Hw Hgt. unfold lit_i.
  destruct (prefix_by ci_eqb (py w) s) eqn:E; [|congruence]. intros _.
  destruct (prefix_ci_head _ _ E Hw) as (c & r & -> & Hc & Hr).
  apply tag_at_intro; auto. now apply prefix_ci_gt with (skipn 2 (py w)).
Qed.

(** What a matcher matches holds a [>]. *)
Definition ends_gt (b : matcher) : Prop := forall v, b v <> [] -> In 62%N v.

Lemma ends_gt_lit : ends_gt (lit_i ">").
Proof.
  intros v. unfold lit_i. change (py ">") with [62%N].
  destruct v as [|c v]; [intros H; exfalso; now apply H|].
  cbn [prefix_by]. change (ci_eqb 62%N c) with (c =? 62)%N.
  destruct (N.eqb_spec c 62) as [->|]; [now left|].
  intros H; exfalso; now apply H.
Qed.

Lemma ends_gt_cat (a b : matcher) : ends_gt b -> ends_gt (a >> b).
Proof.
  intros Hb v Hv. apply ne_nil_in in Hv as [n Hn].
  apply in_cat in Hn as (n1 & n2 & _ & H2 & _).
  apply In_skipn with n1. apply Hb. apply ne_nil_in. eauto.
Qed.

Lemma cat_lit_i (x : string) (b : matcher) (s : pystr) :
  (lit_i x >> b) s =
  if prefix_by ci_eqb (py x) s
  then map (Nat.add (length (py x))) (b (skipn (length (py x)) s))
  else [].
Proof.
  unfold cat, lit_i. destruct (prefix_by ci_eqb (py x) s); simpl;
    [apply app_nil_r|reflexivity].
Qed.

Lemma lit_i_cat_tag (w : string) (b : matcher) (s : pystr) :
  tag_word (py w) = true -> 2 <= length (py w) -> ends_gt b ->
  (lit_i w >> b) s <> [] -> tag_at s = true.
Proof.
  intros Hw Hl Hb. rewrite cat_lit_i.
  destruct (prefix_by ci_eqb (py w) s) eqn:E; [|congruence]. intros Hne.
  destruct (prefix_ci_head _ _ E Hw) as (c & r & -> & Hc & _).
  apply tag_at_intro; auto.
  assert (Hin : In 62%N (skipn (length (py w)) (60%N :: c :: r))).
  { apply Hb. intros Hn. apply Hne.
    apply (f_equal (map (Nat.add (length (py w))))) in Hn. exact Hn. }
  destruct (length (py w)) as [|[|n]]; [lia|lia|].
  cbn [skipn] in Hin. now apply In_skipn with n.
Qed.

Lemma alt_ne (a b : matcher) (s : pystr) :
  (a <|> b) s <> [] -> a s <> [] \/ b s <> [].
Proof.
  unfold alt. destruct (a s); [now right|left; discriminate].
Qed.

Ltac tag_literal :=
  first [ apply lit_i_tag;
          [vm_compute; reflexivity | vm_compute; intuition congruence]
        | apply lit_i_cat_tag;
          [vm_compute; reflexivity | vm_compute; lia
          | repeat first [apply ends_gt_lit | apply ends_gt_cat] ] ].

(** Every match of a whitelisted pattern starts a match of [<[^>]+>]. *)
Lemma whitelist_tag_at (m : matcher) (s : pystr) :
  In m [re_br; re_p_open; re_p_close; re_strong; re_b; re_font] ->
  m s <> [] -> tag_at s = true.
Proof.
  intros Hm. repeat (destruct Hm as [<-|Hm]); [| | | | | |destruct Hm].
  - unfold re_br. tag_literal.
  - unfold re_p_open. tag_literal.
  - unfold re_p_close. tag_literal.
  - unfold re_strong. intros H. apply alt_ne in H as [H|H]; revert H; tag_literal.
  - unfold re_b. intros H. apply alt_ne in H as [H|H]; revert H; tag_literal.
  - unfold re_font. intros H. apply alt_ne in H as [H|H]; revert H; tag_literal.
Qed.

(** ** [html.unescape] returns *)

Section Unescape.

Variable html5 : pystr -> option pystr.
Variable int_max_str_digits : nat.

Lemma unescape_no_ampersand (y : pystr) :
  contains 38%N y = false -> unescape html5 int_max_str_digits y = Some y.
Proof. intros H. unfold unescape. now rewrite H. Qed.

Lemma lstrip_semicolon_length (r : pystr) :
  length (lstrip_semicolon r) <= length r.
Proof.
  induction r as [|c r IH]; [reflexivity|]. cbn [lstrip_semicolon].
  destruct (c =? 59)%N; simpl; lia.
Qed.

Lemma rstrip_semicolon_length (s : pystr) :
  length (rstrip_semicolon s) <= length s.
Proof.
  unfold rstrip_semicolon. rewrite length_rev.
  rewrite <- (length_rev s). apply lstrip_semicolon_length.
Qed.

(** Only a decimal reference of more digits than the limit raises. *)
Lemma replace_charref_total (g : pystr) :
  int_max_str_digits = 0 \/ length g <= int_max_str_digits ->
  exists r, replace_charref html5 int_max_str_digits g = Some r.
Proof.
  intros Hl. unfold replace_charref.
  destruct g as [|a [|x g]].
  - destruct (html5 []); [eauto|]. destruct (longest_prefix_ref _ _ _); eauto.
  - repeat match goal with
           | |- context [match ?a with _ => _ end] => destruct a
           end; eauto.
  - assert (Hd : exists num,
               int_decimal int_max_str_digits
                 (rstrip_semicolon (skipn 1 (a :: x :: g))) = Some num).
    { unfold int_decimal.
      pose proof (rstrip_semicolon_length (skipn 1 (a :: x :: g))) as Hr.
      cbn [skipn] in *. cbn [length] in Hl.
      destruct Hl as [Hz|Hl]; [rewrite Hz; eexists; reflexivity|].
      replace (int_max_str_digits <? length (rstrip_semicolon (x :: g)))
        with false.
      - rewrite andb_false_r. eauto.
      - symmetry. apply Nat.ltb_ge. simpl in Hr. lia. }
    destruct Hd as [num Hd].
    assert (Hnum : forall num : N,
               exists r,
                 match find (fun e => (fst e =? num)%N) invalid_charrefs with
                 | Some (_, r) => Some [r]
                 | None =>
                     if ((0xD800 <=? num) && (num <=? 0xDFFF)
                         || (0x10FFFF <? num))%N
                     then Some [0xFFFD%N]
                     else if invalid_codepoint num then Some [] else Some [num]
                 end = Some r).
    { intros n. destruct (find _ _) as [[? r]|]; [eauto|].
      destruct (_ || _); [eauto|]. destruct (invalid_codepoint n); eauto. }
    assert (Hnamed : exists r,
               match html5 (a :: x :: g) with
               | Some v => Some v
               | None =>
                   match longest_prefix_ref html5 (a :: x :: g)
                           (length (a :: x :: g) - 1) with
                   | Some r => Some r
                   | None => Some (38%N :: a :: x :: g)
                   end
               end = Some r).
    { destruct (html5 _); [eauto|]. destruct (longest_prefix_ref _ _ _); eauto. }
    destruct (N.eq_dec a 35) as [->|Hne].
    + destruct (contains x (py "xX")); [apply Hnum|].
      rewrite Hd. apply Hnum.
    + destruct a as [|p]; [exact Hnamed|].
      repeat (destruct p as [p|p|]; try exact Hnamed). congruence.
Qed.

Lemma sub_with_go_total (m : matcher) (f : pystr -> option pystr) (s : pystr) :
  (forall t, length t <= length s -> exists r, f t = Some r) ->
  forall k, exists o, sub_with_go m f k s = Some o.
Proof.
  induction s as [|c s IH]; intros Hf k.
  - destruct k; cbn [sub_with_go]; [|eauto].
    destruct (m []); [eauto|]. apply Hf. reflexivity.
  - assert (IH' : forall k, exists o, sub_with_go m f k s = Some o).
    { apply IH. intros t Ht. apply Hf. simpl. lia. }
    assert (Hfn : forall n, exists r, f (firstn n (c :: s)) = Some r).
    { intros n. apply Hf. rewrite length_firstn. lia. }
    destruct k as [|k]; cbn [sub_with_go]; [|apply IH'].
    destruct (m (c :: s)) as [|[|n] l].
    + destruct (IH' 0) as [o ->]. cbn. eauto.
    + destruct (Hf [] ltac:(simpl; lia)) as [r0 ->].
      destruct (filter nonzero l) as [|[|n] l'].
      * destruct (IH' 0) as [o ->]. cbn. eauto.
      * destruct (IH' 0) as [o ->]. cbn. eauto.
      * destruct (Hfn (S n)) as [r ->]. destruct (IH' n) as [o ->]. cbn. eauto.
    + destruct (Hfn (S n)) as [r ->]. destruct (IH' n) as [o ->]. cbn. eauto.
Qed.

Lemma unescape_total (x : pystr) :
  int_max_str_digits = 0 \/ length x <= int_max_str_digits ->
  exists u, unescape html5 int_max_str_digits x = Some u.
Proof.
  intros Hl. unfold unescape. destruct (negb _); [eauto|].
  apply sub_with_go_total. intros t Ht. apply replace_charref_total.
  destruct Hl as [Hl|Hl]; [now left|right].
  destruct t; simpl in *; lia.
Qed.

(** ** The shape of the output *)

Lemma clean_html_content_spec (x out : pystr) :
  clean_html_content html5 int_max_str_digits x = Some out ->
  exists t, out = strip (collapse (re_sub re_tag [] t)).
Proof.
  unfold clean_html_content.
  destruct (unescape html5 int_max_str_digits x) as [u|]; [|discriminate].
  intros H. apply Some_inj in H. subst out. eexists. reflexivity.
Qed.

Lemma clean_html_content_total (x : pystr) :
  int_max_str_digits = 0 \/ length x <= int_max_str_digits ->
  exists out, clean_html_content html5 int_max_str_digits x = Some out.
Proof.
  intros Hl. unfold clean_html_content.
  destruct (unescape_total x Hl) as [u ->]. eauto.
Qed.

End Unescape.

Lemma blank_lines_neutral (s : pystr) (n : nat) :
  hd_error (re_blank_lines s) = Some n ->
  exists n' c t, n = S n' /\ s = c :: t /\ c <> 60%N /\ c <> 62%N.
Proof.
  rewrite hd_blank_lines. unfold blank_len. destruct s as [|c r]; [discriminate|].
  destruct (N.eqb_spec nl c) as [<-|]; [|discriminate].
  destruct (last_nl r) as [j|]; [|discriminate]. intros [= <-].
  exists (S j), nl, r. repeat split; discriminate.
Qed.

Lemma no_tag_clean (t : pystr) : no_tag (strip (collapse (re_sub re_tag [] t))).
Proof.
  apply no_tag_strip. unfold collapse, re_sub.
  apply (@sub_neutral_spec re_blank_lines [nl; nl]).
  - exact blank_lines_neutral.
  - repeat constructor; discriminate.
  - intros [H|[H|[]]]; discriminate.
  - apply sub_tag_spec.
Qed.

(** ** C9 *)

(** C9: whatever the table of named references and the limit on decimal
    numerals, the output of [clean_html_content] holds no substring made
    of an opening angle bracket, one or more characters other than the
    closing one, and a closing angle bracket: this holds for every input
    (so for the inputs with only whitelisted tags, entity-encoded or not);
    and the function returns on every input when the limit is lifted or
    the input is not longer than the limit. *)
Theorem clean_html_content_no_tags :
  forall (html5 : pystr -> option pystr) (int_max_str_digits : nat)
         (x : pystr),
    (forall out, clean_html_content html5 int_max_str_digits x = Some out ->
                 ~ has_tag out)
    /\ (int_max_str_digits = 0 \/ length x <= int_max_str_digits ->
        exists out, clean_html_content html5 int_max_str_digits x = Some out).
Proof.
  intros html5 limit x. split.
  - intros out H. apply clean_html_content_spec in H as [t ->].
    apply no_tag_not_has_tag, no_tag_clean.
  - apply clean_html_content_total.
Qed.

(** ** C4 *)

(** A numeric reference to the ampersand is decoded once per pass. *)
Lemma clean_html_content_ampersand (html5 : pystr -> option pystr) :
  clean_html_content html5 4300 (py "&#38;#38;") = Some (py "&#38;")
  /\ clean_html_content html5 4300 (py "&#38;") = Some (py "&").
Proof. split; vm_compute; reflexivity. Qed.

(** C4, as the claim states it, fails on the input ["&#38;#38;"]: the
    normalizer returns ["&#38;"], and on that it returns ["&"]. *)
Lemma clean_html_content_not_idempotent :
  ~ (forall html5 : pystr -> option pystr,
       clean_html_content html5 4300 (py "&#38;#38;") = Some (py "&#38;") ->
       clean_html_content html5 4300 (py "&#38;") = Some (py "&#38;")).
Proof.
  intros H.
  destruct (clean_html_content_ampersand (fun _ => None)) as [H1 H2].
  specialize (H _ H1). rewrite H2 in H. vm_compute in H. discriminate H.
Qed.

(** C4 (amended): when the normalizer returns a text that
    [html.unescape] leaves as it is, it returns that text unchanged when
    applied to it; every text without an ampersand is such a text, and so
    is a text whose ampersands start no character reference. *)
Theorem clean_html_content_idempotent :
  forall (html5 : pystr -> option pystr) (int_max_str_digits : nat)
         (x y : pystr),
    clean_html_content html5 int_max_str_digits x = Some y ->
    (unescape html5 int_max_str_digits y = Some y ->
     clean_html_content html5 int_max_str_digits y = Some y)
    /\ (contains 38%N y = false ->
        unescape html5 int_max_str_digits y = Some y).
Proof.
  intros html5 limit x y Hx.
  split; [intros Hy|apply unescape_no_ampersand].
  apply clean_html_content_spec in Hx as [t Ht].
  assert (Hnt : no_tag y) by (rewrite Ht; apply no_tag_clean).
  assert (Hco : collapsed y).
  { rewrite Ht. apply collapsed_strip. apply collapsed_sub_go. }
  assert (Hst : strip y = y) by (rewrite Ht; apply strip_idem).
  assert (Hid : forall m r,
             (forall s, m s <> [] -> tag_at s = true) -> re_sub m r y = y).
  { intros m r Hm. apply re_sub_id. intros i.
    destruct (m (skipn i y)) eqn:E; [reflexivity|].
    specialize (Hm (skipn i y)). rewrite E in Hm.
    rewrite (Hnt i) in Hm. discriminate Hm. discriminate. }
  assert (Hw : forall m r,
             In m [re_br; re_p_open; re_p_close; re_strong; re_b; re_font] ->
             re_sub m r y = y).
  { intros m r Hm. apply Hid. intros s. now apply whitelist_tag_at. }
  unfold clean_html_content. rewrite Hy.
  cbv zeta.
  rewrite (Hw re_br) by (simpl; tauto).
  rewrite (Hw re_p_open) by (simpl; tauto).
  rewrite (Hw re_p_close) by (simpl; tauto).
  rewrite (Hw re_strong) by (simpl; tauto).
  rewrite (Hw re_b) by (simpl; tauto).
  rewrite (Hw re_font) by (simpl; tauto).
  rewrite (Hid re_tag)
    by (intros s Hs; destruct (tag_at s) eqn:E; [reflexivity|];
        now apply re_tag_nil in E).
  fold (collapse y). rewrite (@collapse_collapsed y Hco). now rewrite Hst.
Qed.

Lemma clean_html_content_idempotent_witness :
  let html5 := fun name : pystr =>
                 if str_eqb name (py "amp;") then Some (py "&") else None in
  let y := py "Smith & Jones" in
  clean_html_content html5 4300 (py "<B>Smith</B> &amp; Jones") = Some y
  /\ unescape html5 4300 y = Some y
  /\ clean_html_content html5 4300 y = Some y.
Proof.
  intros html5 y.
  assert (H1 : clean_html_content html5 4300
                 (py "<B>Smith</B> &amp; Jones") = Some y)
    by (vm_compute; reflexivity).
  assert (H2 : unescape html5 4300 y = Some y) by (vm_compute; reflexivity).
  split; [exact H1|]. split; [exact H2|].
  exact (proj1 (@clean_html_content_idempotent _ _ _ _ H1) H2).
Defined.

Lemma clean_html_content_no_tags_witness :
  (forall out,
     clean_html_content (fun _ => None) 4300
       (py "&#60;b&#62;Hi&#60;/b&#62;<FONT size=2>!</FONT>") = Some out ->
     ~ has_tag out)
  /\ clean_html_content (fun _ => None) 4300
       (py "&#60;b&#62;Hi&#60;/b&#62;<FONT size=2>!</FONT>") = Some (py "Hi!").
Proof.
  split; [|vm_compute; reflexivity].
  exact (proj1 (clean_html_content_no_tags (fun _ => None) 4300
                  (py "&#60;b&#62;Hi&#60;/b&#62;<FONT size=2>!</FONT>"))).
Defined.

(* ================================================================== *)
(** * Intro text and flat content *)

(** ** The lettered markers of the parser *)

(** A text that starts with [\([a-z]\)\s]. *)
Definition marker_at (t : pystr) : bool :=
  match t with
  | a :: x :: b :: w :: _ =>
      (40 =? a)%N && is_lower x && (41 =? b)%N && is_space w
  | _ => false
  end.

Lemma lettered_marker_cases (t : pystr) :
  (re_lettered >> set is_space) t = if marker_at t then [4] else [].
Proof.
  unfold re_lettered. unfold cat at 1. rewrite !cat_lit.
  change (py "(") with [40%N]. change (py ")") with [41%N].
  destruct t as [|a t]; [reflexivity|]. cbn [prefix_by length skipn].
  rewrite andb_true_r. unfold marker_at.
  destruct (40 =? a)%N; [|now destruct t as [|? [|? [|? ?]]]].
  destruct t as [|x t]; [reflexivity|]. rewrite cat_set_cons.
  destruct (is_lower x); [|now destruct t as [|? [|? ?]]].
  unfold lit. change (py ")") with [41%N].
  destruct t as [|b t]; [reflexivity|]. cbn [prefix_by]. rewrite andb_true_r.
  destruct (41 =? b)%N; [|now destruct t as [|? ?]].
  cbn [map flat_map length skipn Nat.add app]. unfold set.
  destruct t as [|w t]; [reflexivity|].
  now destruct (is_space w).
Qed.

Lemma ahead_marker (t : pystr) :
  ahead (re_lettered >> set is_space) t = if marker_at t then [0] else [].
Proof. unfold ahead. rewrite lettered_marker_cases. now destruct (marker_at t). Qed.

Lemma split_ahead_cons (seg : pystr) (c : char) (s : pystr) :
  Re.split_go (ahead (re_lettered >> set is_space)) 0 seg (c :: s) =
  if marker_at (c :: s)
  then rev seg :: Re.split_go (ahead (re_lettered >> set is_space)) 0 [c] s
  else Re.split_go (ahead (re_lettered >> set is_space)) 0 (c :: seg) s.
Proof.
  cbn [Re.split_go]. rewrite ahead_marker. now destruct (marker_at (c :: s)).
Qed.

(** Two markers are at least four characters apart. *)
Lemma marker_at_prefix (u v : pystr) :
  marker_at (u ++ v) = true -> marker_at v = true -> u <> [] ->
  marker_at u = true.
Proof.
  intros Huv Hv Hu. unfold marker_at in Hv.
  destruct v as [|a' [|x' [|b' [|w' v]]]]; try discriminate.
  apply andb_true_iff in Hv as [Hv _]. apply andb_true_iff in Hv as [Hv _].
  apply andb_true_iff in Hv as [Ha' _]. apply N.eqb_eq in Ha'. subst a'.
  destruct u as [|a [|x [|b [|w u]]]]; [congruence| | | |exact Huv];
    unfold marker_at in Huv; cbn [app] in Huv;
    repeat (apply andb_true_iff in Huv as [Huv ?]); discriminate.
Qed.

Lemma split_markers (s seg : pystr) :
  Forall (fun p => marker_at p = true)
         (tl (Re.split_go (ahead (re_lettered >> set is_space)) 0 seg s))
  /\ (marker_at (rev seg ++ s) = true -> seg <> [] ->
      marker_at (hd [] (Re.split_go (ahead (re_lettered >> set is_space))
                                    0 seg s)) = true).
Proof.
  revert seg; induction s as [|c s IH]; intros seg.
  - cbn [Re.split_go]. rewrite ahead_marker. cbn [marker_at tl hd].
    split; [constructor|]. now rewrite app_nil_r.
  - rewrite split_ahead_cons. destruct (marker_at (c :: s)) eqn:E.
    + destruct (IH [c]) as [H1 H2]. cbn [tl hd]. split.
      * specialize (H2 E ltac:(discriminate)).
        destruct (Re.split_go _ 0 [c] s) as [|p ps]; [constructor|].
        constructor; [exact H2|exact H1].
      * intros Hm Hne. apply marker_at_prefix with (c :: s); auto.
        intros Hr. apply Hne. now apply (f_equal (@rev char)) in Hr;
          rewrite rev_involutive in Hr.
    + destruct (IH (c :: seg)) as [H1 H2]. split; [exact H1|].
      intros Hm _. apply H2; [|discriminate].
      cbn [rev]. now rewrite <- app_assoc.
Qed.

Lemma split_go_ne (m : matcher) (k : nat) (seg s : pystr) :
  Re.split_go m k seg s <> [].
Proof.
  revert k seg; induction s as [|c s IH]; intros k seg.
  - destruct k; cbn [Re.split_go]; [destruct (m [])|]; discriminate.
  - destruct k as [|k]; cbn [Re.split_go]; [|apply IH].
    destruct (m (c :: s)) as [|[|n] l]; [apply IH|discriminate|discriminate].
Qed.

Lemma split_no_marker (s seg : pystr) :
  tl (Re.split_go (ahead (re_lettered >> set is_space)) 0 seg s) = []
  <-> forall i, marker_at (skipn i s) = false.
Proof.
  revert seg; induction s as [|c s IH]; intros seg.
  - cbn [Re.split_go]. rewrite ahead_marker. cbn [marker_at tl]. split; auto.
    intros _ i. now rewrite skipn_nil.
  - rewrite split_ahead_cons. destruct (marker_at (c :: s)) eqn:E.
    + cbn [tl]. split.
      * intros H. now apply split_go_ne in H.
      * intros H. specialize (H 0). cbn [skipn] in H. congruence.
    + rewrite IH. split.
      * intros H [|i]; [exact E|apply H].
      * intros H i. apply (H (S i)).
Qed.

Lemma star_ne (p : char -> bool) (s : pystr) : star p s <> [].
Proof.
  unfold star. rewrite seq_S, rev_app_distr. discriminate.
Qed.

Lemma lit_open (a : char) (t : pystr) :
  lit "(" (a :: t) = if (40 =? a)%N then [1] else [].
Proof.
  unfold lit. change (py "(") with [40%N]. cbn [prefix_by length].
  now rewrite andb_true_r.
Qed.

(** A part that starts with a marker gives a node. *)
Lemma parse_part_marker (part : pystr) :
  marker_at part = true -> exists n, parse_part part = Some n.
Proof.
  intros H. unfold marker_at in H.
  destruct part as [|a [|x [|b [|w r]]]]; try discriminate.
  apply andb_true_iff in H as [H Hw]. apply andb_true_iff in H as [H Hb].
  apply andb_true_iff in H as [Ha Hx].
  assert (Hg : exists e,
             re_match_group (lit "(") (set is_lower)
               (lit ")" >> star is_space) (a :: x :: b :: w :: r)
             = Some ([x], e)).
  { unfold re_match_group. rewrite lit_open, Ha.
    cbn [flat_map skipn set]. rewrite Hx. cbn [flat_map app Nat.add skipn]. rewrite cat_lit.
    change (py ")") with [41%N]. cbn [prefix_by length skipn]. rewrite Hb.
    cbn [andb]. rewrite !app_nil_r, map_map.
    destruct (star is_space (w :: r)) as [|n l] eqn:Es;
      [now apply star_ne in Es|].
    cbn [map hd_error firstn]. eauto. }
  destruct Hg as [e Hg]. unfold parse_part. rewrite Hg.
  destruct (re_search re_numbered _) as [[i k]|]; eexists; reflexivity.
Qed.

Lemma filter_map_nil {A B} (f : A -> option B) (l : list A) :
  Forall (fun x => exists y, f x = Some y) l ->
  (filter_map f l = [] <-> l = []).
Proof.
  intros H. destruct H as [|x l [y Hy] _]; [tauto|].
  unfold filter_map. cbn [flat_map]. rewrite Hy. split; discriminate.
Qed.

(** [parse_subsections] returns no node exactly when no lettered marker
    followed by whitespace occurs in the text. *)
Lemma parse_subsections_nil (text : pystr) :
  parse_subsections text = []
  <-> forall i, (re_lettered >> set is_space) (skipn i text) = [].
Proof.
  unfold parse_subsections, re_split. rewrite filter_map_nil.
  - rewrite split_no_marker. split; intros H i; specialize (H i).
    + rewrite lettered_marker_cases. now rewrite H.
    + rewrite lettered_marker_cases in H. now destruct (marker_at _).
  - destruct (split_markers text []) as [H _].
    eapply Forall_impl; [|exact H]. intros p. apply parse_part_marker.
Qed.

(** ** The intro pattern of the builder *)

Lemma hd_flat_map_seq {B} (F : nat -> list B) (a k j : nat) (y : B) :
  a <= j < a + k -> (forall i, a <= i < j -> F i = []) ->
  hd_error (F j) = Some y ->
  hd_error (flat_map F (List.seq a k)) = Some y.
Proof.
  revert a; induction k as [|k IH]; intros a Hj Hlt Hy; [lia|].
  cbn [List.seq flat_map]. destruct (Nat.eq_dec a j) as [->|Hne].
  - destruct (F j); [discriminate|exact Hy].
  - rewrite (Hlt a) by lia. cbn [app]. apply IH; [lia| |exact Hy].
    intros i Hi. apply Hlt. lia.
Qed.

Lemma run_any (s : pystr) : run (fun _ => true) s = length s.
Proof. induction s; simpl; auto. Qed.

Lemma re_intro_some (text pre rest : pystr) :
  text = pre ++ rest -> pre <> [] -> re_lettered rest <> [] ->
  (forall i, 1 <= i < length pre -> re_lettered (skipn i text) = []) ->
  re_intro text = Some (pre, length pre).
Proof.
  intros -> Hpre Hrest Hno. unfold re_intro, re_match_group, eps, plus_lazy.
  cbn [flat_map skipn Nat.add]. rewrite app_nil_r, run_any.
  apply hd_flat_map_seq with (length pre).
  - rewrite length_app. destruct pre; [congruence|]. simpl. lia.
  - intros i Hi. unfold ahead. now rewrite (Hno i Hi).
  - unfold ahead. rewrite skipn_app_length, firstn_app_length.
    destruct (re_lettered rest); [congruence|].
    cbn [map hd_error]. now rewrite Nat.add_0_r.
Qed.

Lemma re_intro_none (text : pystr) :
  (forall i, 1 <= i -> re_lettered (skipn i text) = []) ->
  re_intro text = None.
Proof.
  intros Hno. unfold re_intro, re_match_group, eps, plus_lazy.
  cbn [flat_map skipn Nat.add]. rewrite app_nil_r.
  rewrite flat_map_nil; [reflexivity|].
  intros i Hi. apply in_seq in Hi. unfold ahead. rewrite (Hno i) by lia.
  reflexivity.
Qed.

(** ** C5 *)

Definition intro_block (t : pystr) : ET.Element :=
  elem "intro" [] None [elem "p" [] (Some (firstn 500 (strip t))) []].

Definition example_section (text : pystr) : SectionRecord :=
  mkSection (py "48-1-2") (py "Definitions") text [] (py "1") []
            (parse_subsections text).

(** C5, as the claim states it, fails: a record whose text starts with
    its first marker has subsections and no intro block; and an intro text
    is stripped of the whitespace around it, so it is not everything in
    front of the marker. *)
Lemma intro_block_counterexample :
  (subsections (example_section (py "(a) Means this.")) <> []
   /\ ET.findall (akn "intro")
        (section_element (example_section (py "(a) Means this."))) = [])
  /\ ET.findall (akn "intro")
       (section_element (example_section (py "Intro. (a) Means this.")))
     = [elem "intro" [] None [elem "p" [] (Some (py "Intro.")) []]].
Proof.
  split; [split|]; [vm_compute; discriminate| |];
    vm_compute; reflexivity.
Qed.

(** C5 (amended): in the section element of a record with subsections,
    when the text has the form [pre ++ rest] with [pre] non-empty, a
    lettered marker [(x)] at the start of [rest] and none starting inside
    [pre], the children are the number, the heading if any, one intro block
    holding [pre] stripped of surrounding whitespace and cut to 500
    characters, the subsection elements in order, and the history note if
    any; when no lettered marker starts after the first character of the
    text there is no intro block; for a record without subsections the
    children are the number, the heading if any, one flat content block
    holding the text cut to 5000 characters, and the history note if any;
    and [parse_subsections] returns no subsection exactly when the text has
    no lettered marker followed by whitespace. *)
Theorem intro_and_content_blocks :
  (forall (section : SectionRecord) (pre rest : pystr),
     subsections section <> [] ->
     body section = pre ++ rest -> pre <> [] -> re_lettered rest <> [] ->
     (forall i, i < length pre -> re_lettered (skipn i (body section)) = []) ->
     ET.children (section_element section)
     = [elem "num" [] (Some (section_number section)) []]
       ++ heading_part section
       ++ [intro_block pre]
       ++ map (fun sub => subsection_element sub (section_number section))
              (subsections section)
       ++ notes_part section)
  /\ (forall section : SectionRecord,
        subsections section <> [] ->
        (forall i, 1 <= i -> re_lettered (skipn i (body section)) = []) ->
        ET.children (section_element section)
        = [elem "num" [] (Some (section_number section)) []]
          ++ heading_part section
          ++ map (fun sub => subsection_element sub (section_number section))
                 (subsections section)
          ++ notes_part section)
  /\ (forall section : SectionRecord,
        subsections section = [] ->
        ET.children (section_element section)
        = [elem "num" [] (Some (section_number section)) []]
          ++ heading_part section
          ++ [elem "content" [] None
                [elem "p" [] (Some (firstn 5000 (body section))) []]]
          ++ notes_part section)
  /\ (forall text : pystr,
        parse_subsections text = []
        <-> forall i, (re_lettered >> set is_space) (skipn i text) = []).
Proof.
  split; [|split; [|split]].
  - intros section pre rest Hsub Hbody Hpre Hrest Hno.
    rewrite section_element_children. unfold intro_part, intro_block.
    rewrite (@re_intro_some (body section) pre rest Hbody Hpre Hrest)
      by (intros i Hi; apply Hno; lia).
    destruct (subsections section); [congruence|]. cbn [truthy].
    now rewrite <- app_assoc.
  - intros section Hsub Hno.
    rewrite section_element_children. unfold intro_part.
    rewrite (@re_intro_none (body section) Hno).
    destruct (subsections section); [congruence|]. reflexivity.
  - intros section Hsub. rewrite section_element_children, Hsub. reflexivity.
  - exact parse_subsections_nil.
Qed.

Lemma intro_and_content_blocks_witness :
  let section := example_section (py "Intro. (a) Means this.") in
  ET.children (section_element section)
  = [elem "num" [] (Some (section_number section)) []]
    ++ heading_part section
    ++ [intro_block (py "Intro. ")]
    ++ map (fun sub => subsection_element sub (section_number section))
           (subsections section)
    ++ notes_part section.
Proof.
  intros section.
  apply (proj1 intro_and_content_blocks section (py "Intro. ")
               (py "(a) Means this.")).
  - vm_compute. discriminate.
  - vm_compute. reflexivity.
  - vm_compute. discriminate.
  - vm_compute. discriminate.
  - intros i Hi. change (length (py "Intro. ")) with 7 in Hi.
    do 7 (destruct i as [|i]; [vm_compute; reflexivity|]). lia.
Defined.

(** ** A witness for C10 *)

Definition example_root : list Index :=
  [ mkIndex (py "3") (Some (Some (py "48-1-2")))
            (Some (Some (py "Definitions")))
            (Some (Some (py "(a) Means this."))) None ].

Lemma extractor_section_numbers_witness :
  parse_source_xml (fun _ => None) 4300 example_root
  = Some [example_section (py "(a) Means this.")]
  /\ Forall (fun item => truthy (fst item) = true)
            (sorted_items
               (group_by_chapter [example_section (py "(a) Means this.")])).
Proof.
  assert (H : parse_source_xml (fun _ => None) 4300 example_root
              = Some [example_section (py "(a) Means this.")])
    by (vm_compute; reflexivity).
  split; [exact H|].
  exact (proj2 (@extractor_section_numbers _ _ _ _ H)).
Defined.

(* ================================================================== *)
(** * Further properties of the parser *)

(** ** The markers of a text and the nodes of its parse *)

(** The letters of the lettered markers followed by whitespace, in the
    order of the text. *)
Fixpoint marker_letters (s : pystr) : list pystr :=
  match s with
  | [] => []
  | _ :: s' => (if marker_at s then [firstn 1 s'] else []) ++ marker_letters s'
  end.

Lemma marker_at_length (p : pystr) : marker_at p = true -> 4 <= length p.
Proof.
  destruct p as [|a [|x [|b [|w r]]]]; try discriminate. simpl. lia.
Qed.

(** A segment that starts at a marker keeps the four characters of the
    marker. *)
Lemma split_first4 (s seg : pystr) :
  marker_at (rev seg ++ s) = true -> seg <> [] ->
  firstn 4 (hd [] (Re.split_go (ahead (re_lettered >> set is_space)) 0 seg s))
  = firstn 4 (rev seg ++ s).
Proof.
  revert seg; induction s as [|c s IH]; intros seg Hm Hne.
  - cbn [Re.split_go]. rewrite ahead_marker. cbn [marker_at hd].
    now rewrite app_nil_r.
  - rewrite split_ahead_cons. destruct (marker_at (c :: s)) eqn:E.
    + cbn [hd]. assert (Hr : marker_at (rev seg) = true).
      { apply marker_at_prefix with (c :: s); auto. intros Hr. apply Hne.
        apply (f_equal (@rev char)) in Hr. now rewrite rev_involutive in Hr. }
      apply marker_at_length in Hr. rewrite firstn_app.
      replace (4 - length (rev seg)) with 0 by lia. cbn [firstn].
      now rewrite app_nil_r.
    + rewrite IH; cbn [rev]; rewrite <- ?app_assoc; auto. discriminate.
Qed.

Lemma firstn4_letter (a b : pystr) :
  firstn 4 a = firstn 4 b -> firstn 1 (tl a) = firstn 1 (tl b).
Proof.
  destruct a as [|a0 [|a1 a]], b as [|b0 [|b1 b]]; cbn; try congruence;
    try (destruct a; discriminate); try (destruct b; discriminate).
Qed.

Lemma split_letters (s seg : pystr) :
  map (fun p => firstn 1 (tl p))
      (tl (Re.split_go (ahead (re_lettered >> set is_space)) 0 seg s))
  = marker_letters s.
Proof.
  revert seg; induction s as [|c s IH]; intros seg.
  - cbn [Re.split_go]. rewrite ahead_marker. reflexivity.
  - rewrite split_ahead_cons. cbn [marker_letters].
    destruct (marker_at (c :: s)) eqn:E; [|apply IH].
    cbn [tl]. specialize (IH [c]).
    pose proof (@split_first4 s [c] E ltac:(discriminate)) as H4.
    destruct (Re.split_go _ 0 [c] s) as [|p ps] eqn:Es;
      [now apply split_go_ne in Es|].
    cbn [tl hd map app] in *. rewrite IH. f_equal.
    now apply firstn4_letter in H4.
Qed.

Lemma parse_part_identifier (part : pystr) :
  marker_at part = true ->
  exists n, parse_part part = Some n /\ identifier n = firstn 1 (tl part).
Proof.
  intros H. unfold marker_at in H.
  destruct part as [|a [|x [|b [|w r]]]]; try discriminate.
  apply andb_true_iff in H as [H Hw]. apply andb_true_iff in H as [H Hb].
  apply andb_true_iff in H as [Ha Hx].
  assert (Hg : exists e,
             re_match_group (lit "(") (set is_lower)
               (lit ")" >> star is_space) (a :: x :: b :: w :: r)
             = Some ([x], e)).
  { unfold re_match_group. rewrite lit_open, Ha.
    cbn [flat_map skipn set]. rewrite Hx.
    cbn [flat_map app Nat.add skipn]. rewrite cat_lit.
    change (py ")") with [41%N]. cbn [prefix_by length skipn]. rewrite Hb.
    cbn [andb]. rewrite !app_nil_r, map_map.
    destruct (star is_space (w :: r)) as [|n l] eqn:Es;
      [now apply star_ne in Es|].
    cbn [map hd_error firstn]. eauto. }
  destruct Hg as [e Hg]. unfold parse_part. rewrite Hg.
  destruct (re_search re_numbered _) as [[i k]|]; eexists; split; reflexivity.
Qed.

Lemma filter_map_all {A B} (f : A -> option B) (g : A -> B) (l : list A) :
  Forall (fun x => f x = Some (g x)) l -> filter_map f l = map g l.
Proof.
  induction 1 as [|x l Hx _ IH]; [reflexivity|].
  unfold filter_map in *. cbn [flat_map map]. now rewrite Hx, IH.
Qed.

(** X1: the nodes follow the markers: the identifiers of the nodes that
    [parse_subsections] returns are the letters of the lettered markers of
    the text (an opening bracket, a lowercase letter, a closing bracket and
    a whitespace character), in text order. *)
Theorem parse_subsections_identifiers (text : pystr) :
  map identifier (parse_subsections text) = marker_letters text.
Proof.
  unfold parse_subsections, re_split.
  rewrite <- (split_letters text []).
  destruct (split_markers text []) as [H _].
  induction H as [|p ps Hp _ IH]; [reflexivity|].
  destruct (parse_part_identifier _ Hp) as (n & Hn & Hid).
  unfold filter_map in *. cbn [flat_map map]. rewrite Hn. cbn [app map].
  now rewrite Hid, IH.
Qed.

(** ** Text in front of the first marker *)

Lemma split_before_marker (pre rest seg : pystr) :
  (forall i, i < length pre -> marker_at (skipn i (pre ++ rest)) = false) ->
  Re.split_go (ahead (re_lettered >> set is_space)) 0 seg (pre ++ rest)
  = Re.split_go (ahead (re_lettered >> set is_space)) 0 (rev pre ++ seg) rest.
Proof.
  revert seg; induction pre as [|c pre IH]; intros seg Hno; [reflexivity|].
  cbn [app]. rewrite split_ahead_cons.
  pose proof (Hno 0 ltac:(simpl; lia)) as H0. cbn [skipn app] in H0.
  rewrite H0, IH.
  - cbn [rev]. now rewrite <- app_assoc.
  - intros i Hi. apply (Hno (S i)). simpl. lia.
Qed.

(** X2: the text in front of the first lettered marker has no part in
    the result of [parse_subsections]. *)
Theorem parse_subsections_skips_intro (pre rest : pystr) :
  marker_at rest = true ->
  (forall i, i < length pre -> marker_at (skipn i (pre ++ rest)) = false) ->
  parse_subsections (pre ++ rest) = parse_subsections rest.
Proof.
  intros Hm Hno. unfold parse_subsections, re_split.
  rewrite split_before_marker by exact Hno.
  destruct rest as [|c s]; [discriminate|].
  rewrite !split_ahead_cons, Hm. reflexivity.
Qed.

Lemma parse_subsections_skips_intro_witness :
  parse_subsections (py "Intro. " ++ py "(a) First. (b) Second.")
  = parse_subsections (py "(a) First. (b) Second.").
Proof.
  apply parse_subsections_skips_intro; [vm_compute; reflexivity|].
  intros i Hi. change (length (py "Intro. ")) with 7 in Hi.
  do 7 (destruct i as [|i]; [vm_compute; reflexivity|]). lia.
Defined.

(** ** The shape of the tree *)

Lemma hd_error_in {A} (l : list A) (x : A) : hd_error l = Some x -> In x l.
Proof. destruct l; [discriminate|]. intros [= ->]. now left. Qed.

Lemma re_match_group_in (pre g post : matcher) (s t : pystr) (e : nat) :
  re_match_group pre g post s = Some (t, e) ->
  exists n1 n2 n3,
    In n1 (pre s) /\ In n2 (g (skipn n1 s))
    /\ In n3 (post (skipn (n1 + n2) s))
    /\ t = firstn n2 (skipn n1 s) /\ e = n1 + n2 + n3.
Proof.
  unfold re_match_group. intros H. apply hd_error_in in H.
  apply in_flat_map in H as (n1 & H1 & H).
  apply in_flat_map in H as (n2 & H2 & H).
  apply in_map_iff in H as (n3 & [= <- <-] & H3).
  exists n1, n2, n3. auto.
Qed.

Lemma parse_child_shape (num_part : pystr) (c : Node) :
  parse_child num_part = Some c ->
  Lplus is_digit (identifier c) /\ children c = [].
Proof.
  unfold parse_child.
  destruct (re_match_group _ _ _ num_part) as [[num_id e]|] eqn:E;
    [|discriminate].
  intros H. apply Some_inj in H. subst c. cbn [identifier children].
  split; [|reflexivity].
  apply re_match_group_in in E as (n1 & n2 & n3 & _ & H2 & _ & -> & _).
  now apply recognizes_plus in H2.
Qed.

(** X3: [parse_subsections] returns a tree of two levels: a node is named
    by one lowercase letter, a child by a non-empty string of digits, and a
    child has no children. *)
Theorem parse_subsections_shape (text : pystr) (n : Node) :
  In n (parse_subsections text) ->
  (exists x, identifier n = [x] /\ is_lower x = true)
  /\ Forall (fun c => Lplus is_digit (identifier c) /\ children c = [])
            (children n).
Proof.
  unfold parse_subsections. intros H.
  apply in_filter_map in H as (part & _ & H). unfold parse_part in H.
  destruct (re_match_group _ _ _ part) as [[sub_id e]|] eqn:E; [|discriminate].
  apply re_match_group_in in E as (n1 & n2 & n3 & _ & H2 & _ & Hid & _).
  apply recognizes_set in H2 as [_ (x & Hx & Hl)]. rewrite Hx in Hid.
  destruct (re_search re_numbered (skipn e part)) as [[i k]|];
    apply Some_inj in H; subst n; cbn [identifier children];
    (split; [exists x; now split|]).
  - destruct (truthy _); [|constructor].
    apply Forall_forall. intros c Hc.
    apply in_filter_map in Hc as (p & _ & Hp). now apply parse_child_shape in Hp.
  - constructor.
Qed.

Lemma parse_subsections_shape_witness :
  (exists x, identifier (mkNode (py "b") (py "Second.") []) = [x]
             /\ is_lower x = true)
  /\ Forall (fun c => Lplus is_digit (identifier c) /\ children c = [])
            (children (mkNode (py "b") (py "Second.") [])).
Proof.
  apply (@parse_subsections_shape
           (py "(a) First. (1) One. (2) Two. (b) Second.")).
  vm_compute. right. left. reflexivity.
Defined.

(** ** No marker is left in a text field *)

(** No match of [m] starts anywhere in [s]. *)
Definition free_of (m : matcher) (s : pystr) : Prop :=
  forall i, m (skipn i s) = [].

Lemma free_of_search (m : matcher) (s : pystr) :
  free_of m s <-> re_search m s = None.
Proof.
  unfold re_search. rewrite search_from_none. split.
  - intros H k _. apply H.
  - intros H i. destruct (Nat.le_gt_cases i (length s)) as [Hi|Hi];
      [now apply H|].
    rewrite skipn_all2 by lia. rewrite <- (skipn_all s). now apply H.
Qed.

Lemma free_of_sub (m : matcher) (L : lang) (a s b : pystr) :
  recognizes m L -> free_of m (a ++ s ++ b) -> free_of m s.
Proof.
  intros Hm. rewrite !free_of_search, !(search_none_occurs _ Hm).
  intros H i (pre & w & post & -> & Hl & Hw).
  apply (H (length a + i)). exists (a ++ pre), w, (post ++ b).
  rewrite length_app, <- !app_assoc. auto.
Qed.

Lemma free_of_firstn m L k s : recognizes m L -> free_of m s -> free_of m (firstn k s).
Proof.
  intros Hm H. apply (@free_of_sub m L [] (firstn k s) (skipn k s) Hm).
  cbn [app]. now rewrite firstn_skipn.
Qed.

Lemma strip_sub (s : pystr) : exists a b, s = a ++ strip s ++ b.
Proof.
  unfold strip. destruct (rstrip_app (lstrip s)) as [w Hw].
  destruct (lstrip_skipn s) as [k Hk].
  exists (firstn k s), w. rewrite <- Hw, Hk. now rewrite firstn_skipn.
Qed.

Lemma free_of_strip m L s : recognizes m L -> free_of m s -> free_of m (strip s).
Proof.
  intros Hm H. destruct (strip_sub s) as (a & b & E).
  apply (@free_of_sub m L a (strip s) b Hm). now rewrite <- E.
Qed.

(** In front of the leftmost match there is no match. *)
Lemma search_prefix_free (m : matcher) (L : lang) (s : pystr) (i n : nat) :
  recognizes m L -> (forall w, L w -> w <> []) ->
  re_search m s = Some (i, n) -> free_of m (firstn i s).
Proof.
  intros Hm Hne Hs. apply search_from_some in Hs as (k & -> & Hk & _ & Hlt).
  cbn [Nat.add]. rewrite free_of_search, (search_none_occurs _ Hm).
  intros j (pre & w & post & E & Hl & Hw).
  assert (Hlen : length pre + length w + length post = k).
  { rewrite <- (firstn_length_le s Hk), E, !length_app. lia. }
  assert (Hw' : length w <> 0).
  { intros H0. apply (Hne w Hw). now apply length_zero_iff_nil. }
  assert (Hocc : occurs L s j).
  { exists pre, w, (post ++ skipn k s). split; [|auto].
    rewrite <- (firstn_skipn k s) at 1. rewrite E, <- !app_assoc. reflexivity. }
  apply (occurs_candidates s j Hm) in Hocc as [_ Hc].
  apply Hc, Hlt. lia.
Qed.

Definition Llettered : lang := Lcat (Llit "(") (Lcat (Lset is_lower) (Llit ")")).
Definition Lnumbered : lang := Lcat (Llit "(") (Lcat (Lplus is_digit) (Llit ")")).

Lemma recognizes_lettered : recognizes re_lettered Llettered.
Proof.
  unfold re_lettered, Llettered.
  repeat first [apply recognizes_cat | apply recognizes_lit | apply recognizes_set].
Qed.

Lemma recognizes_numbered : recognizes re_numbered Lnumbered.
Proof.
  unfold re_numbered, Lnumbered.
  repeat first [apply recognizes_cat | apply recognizes_lit | apply recognizes_plus].
Qed.

Lemma Lcat_lit_ne (x : string) (B : lang) (w : pystr) :
  py x <> [] -> Lcat (Llit x) B w -> w <> [].
Proof.
  intros Hx (u & v & -> & -> & _) E. apply app_eq_nil in E as [E _]. auto.
Qed.

Lemma free_of_alt (a b : matcher) (s : pystr) :
  free_of (a <|> b) s <-> free_of a s /\ free_of b s.
Proof.
  unfold free_of, alt. split.
  - intros H. split; intros i; specialize (H i);
      apply app_eq_nil in H; tauto.
  - intros [Ha Hb] i. now rewrite Ha, Hb.
Qed.

Definition marker_free (s : pystr) : Prop :=
  free_of re_lettered s /\ free_of re_numbered s.

Lemma marker_free_firstn (k : nat) (s : pystr) :
  marker_free s -> marker_free (firstn k s).
Proof.
  intros [H1 H2]. split.
  - now apply free_of_firstn with Llettered; [apply recognizes_lettered|].
  - now apply free_of_firstn with Lnumbered; [apply recognizes_numbered|].
Qed.

Lemma marker_free_strip (s : pystr) : marker_free s -> marker_free (strip s).
Proof.
  intros [H1 H2]. split.
  - now apply free_of_strip with Llettered; [apply recognizes_lettered|].
  - now apply free_of_strip with Lnumbered; [apply recognizes_numbered|].
Qed.

Lemma parse_child_marker_free (num_part : pystr) (c : Node) :
  parse_child num_part = Some c -> marker_free (text c).
Proof.
  unfold parse_child.
  destruct (re_match_group _ _ _ num_part) as [[num_id e]|]; [|discriminate].
  intros H. apply Some_inj in H. subst c. cbn [text].
  apply marker_free_firstn.
  set (t := strip (skipn e num_part)).
  destruct (re_search (re_lettered <|> re_numbered) t) as [[i k]|] eqn:E.
  - apply marker_free_strip. apply free_of_alt.
    apply (@search_prefix_free _ (Lalt Llettered Lnumbered) t i k).
    + apply recognizes_alt; [apply recognizes_lettered|apply recognizes_numbered].
    + intros w [Hw|Hw]; revert Hw; apply Lcat_lit_ne; discriminate.
    + exact E.
  - apply free_of_alt. now apply free_of_search.
Qed.

(** X4: in the result of [parse_subsections] the text of a node and of a
    child holds neither a lettered marker [(x)] nor a numbered marker
    [(n)]: what follows the next marker is cut off. *)
Theorem parse_subsections_marker_free (text0 : pystr) (n : Node) :
  In n (parse_subsections text0) ->
  marker_free (text n) /\ Forall (fun c => marker_free (text c)) (children n).
Proof.
  unfold parse_subsections. intros H.
  apply in_filter_map in H as (part & _ & H). unfold parse_part in H.
  destruct (re_match_group _ _ _ part) as [[sub_id e]|]; [|discriminate].
  set (content := skipn e part) in *.
  assert (Hc : forall l, Forall (fun c => marker_free (text c))
                                (filter_map parse_child l)).
  { intros l. apply Forall_forall. intros c Hin.
    apply in_filter_map in Hin as (p & _ & Hp).
    now apply parse_child_marker_free in Hp. }
  assert (Hcut : forall d, free_of re_numbered d ->
             marker_free
               (match re_search re_lettered d with
                | Some (i, _) => strip (firstn i d)
                | None => d
                end)).
  { intros d Hd. destruct (re_search re_lettered d) as [[i k]|] eqn:E.
    - apply marker_free_strip. split.
      + apply (@search_prefix_free _ Llettered d i k);
          [apply recognizes_lettered| |exact E].
        intros w. apply Lcat_lit_ne. discriminate.
      + now apply free_of_firstn with Lnumbered; [apply recognizes_numbered|].
    - split; [now apply free_of_search|exact Hd]. }
  destruct (re_search re_numbered content) as [[i k]|] eqn:E;
    apply Some_inj in H; subst n; cbn [text children].
  - split.
    + apply marker_free_firstn. apply Hcut.
      apply free_of_strip with Lnumbered; [apply recognizes_numbered|].
      apply (@search_prefix_free _ Lnumbered content i k);
        [apply recognizes_numbered| |exact E].
      intros w. apply Lcat_lit_ne. discriminate.
    + destruct (truthy _); [apply Hc|constructor].
  - split; [|constructor].
    apply marker_free_firstn. apply Hcut.
    apply free_of_strip with Lnumbered; [apply recognizes_numbered|].
    now apply free_of_search.
Qed.

Lemma parse_subsections_marker_free_witness :
  marker_free (text (mkNode (py "b") (py "Second.") []))
  /\ Forall (fun c => marker_free (text c))
            (children (mkNode (py "b") (py "Second.") [])).
Proof.
  apply (@parse_subsections_marker_free
           (py "(a) First. (1) One. (2) Two. (b) Second.")).
  vm_compute. right. left. reflexivity.
Defined.

(* ================================================================== *)
(** * Further properties of the section number and of the normalizer *)

Lemma section_number_shape_ne (w : pystr) : section_number_shape w -> w <> [].
Proof.
  intros (d1 & d2 & d3 & t & -> & [H1 _] & _) E.
  apply app_eq_nil in E as [E _]. auto.
Qed.

(** X5: the section number that [extract_section_number] gives for a
    non-empty caption is not empty; when the pattern is not found it has
    the length of the caption and holds no space and no period. *)
Theorem extract_section_number_nonempty (caption : pystr) :
  (caption <> [] -> extract_section_number caption <> [])
  /\ (re_search re_section_number caption = None ->
      length (extract_section_number caption) = length caption
      /\ ~ In 32%N (extract_section_number caption)
      /\ ~ In 46%N (extract_section_number caption)).
Proof.
  assert (Hfb : re_search re_section_number caption = None ->
                extract_section_number caption
                = map (fun c => if ((c =? 32) || (c =? 46))%N then 45%N else c)
                      caption).
  { intros E. unfold extract_section_number. rewrite E. apply replace_replace. }
  split.
  - intros Hne. destruct (re_search re_section_number caption) as [p|] eqn:E.
    + apply section_number_shape_ne, extract_section_number_shape. congruence.
    + rewrite (Hfb eq_refl). destruct caption; [congruence|discriminate].
  - intros E. rewrite (Hfb E). split; [apply length_map|].
    split; intros Hin; apply in_map_iff in Hin as (c & Hc & _);
      destruct ((c =? 32) || (c =? 46))%N eqn:Ec; try discriminate;
      subst c; vm_compute in Ec; discriminate.
Qed.

Lemma lstrip_head (s : pystr) (c : char) (r : pystr) :
  lstrip s = c :: r -> is_space c = false.
Proof.
  induction s as [|x s IH]; [discriminate|]. cbn [lstrip].
  destruct (is_space x) eqn:E; [exact IH|]. now intros [= <- _].
Qed.

Lemma last_nl_two (b : pystr) : exists j, last_nl (nl :: nl :: b) = Some (S j).
Proof.
  assert (H : exists j, last_nl (nl :: b) = Some j).
  { cbn [last_nl]. change (is_space nl) with true. cbv iota.
    destruct (last_nl b); rewrite ?N.eqb_refl; eauto. }
  destruct H as [j Hj]. exists j.
  change (last_nl (nl :: nl :: b))
    with (if is_space nl
          then match last_nl (nl :: b) with
               | Some j => Some (S j)
               | None => if N.eqb nl nl then Some 0 else None
               end
          else None).
  now rewrite Hj.
Qed.

(** X6: the text that [clean_html_content] returns is stripped: it
    neither starts nor ends with whitespace, stripping it again changes
    nothing, and it never holds three newlines in a row. *)
Theorem clean_html_content_normal_form :
  forall (html5 : pystr -> option pystr) (int_max_str_digits : nat)
         (x out : pystr),
    clean_html_content html5 int_max_str_digits x = Some out ->
    strip out = out
    /\ (forall c r, out = c :: r -> is_space c = false)
    /\ (forall r c, out = r ++ [c] -> is_space c = false)
    /\ (forall a b, out <> a ++ [nl; nl; nl] ++ b).
Proof.
  intros html5 limit x out H.
  apply clean_html_content_spec in H as [t Ht].
  set (z := collapse (re_sub re_tag [] t)) in *.
  split; [rewrite Ht; apply strip_idem|]. split; [|split].
  - intros c r E. rewrite Ht in E. unfold strip in E.
    destruct (rstrip_app (lstrip z)) as [w Hw]. rewrite E in Hw.
    now apply lstrip_head in Hw.
  - intros r c E. rewrite Ht in E. unfold strip, rstrip in E.
    apply (f_equal (@rev char)) in E.
    rewrite rev_involutive, rev_app_distr in E. cbn [rev app] in E.
    now apply lstrip_head in E.
  - intros a b E.
    assert (Hco : collapsed out).
    { rewrite Ht. apply collapsed_strip. apply collapsed_sub_go. }
    apply (collapsed_skipn (length a)) in Hco.
    rewrite E, skipn_app_length in Hco. cbn [app collapsed] in Hco.
    destruct Hco as [Hc _]. destruct (last_nl_two b) as [j Hj].
    destruct (Hc eq_refl) as [H|H]; rewrite Hj in H; discriminate.
Qed.

Lemma clean_html_content_normal_form_witness :
  let out := py "Hi" ++ [nl; nl] ++ py "there" in
  clean_html_content (fun _ => None) 4300
    (py " <P>Hi<BR><BR/><br>there</P> ") = Some out
  /\ strip out = out
  /\ (forall c r, out = c :: r -> is_space c = false)
  /\ (forall r c, out = r ++ [c] -> is_space c = false)
  /\ (forall a b, out <> a ++ [nl; nl; nl] ++ b).
Proof.
  intros out.
  assert (H : clean_html_content (fun _ => None) 4300
                (py " <P>Hi<BR><BR/><br>there</P> ") = Some out)
    by (vm_compute; reflexivity).
  split; [exact H|].
  exact (@clean_html_content_normal_form _ _ _ _ H).
Defined.

(* ================================================================== *)
(** * Further properties of the extractor *)

(** X8: the records that [parse_source_xml] returns for a sequence of
    entries are those of its parts, in order; the normalizer raising on one
    entry makes the whole extraction raise. *)
Theorem parse_source_xml_app :
  forall (html5 : pystr -> option pystr) (int_max_str_digits : nat)
         (r1 r2 : list Index),
    parse_source_xml html5 int_max_str_digits (r1 ++ r2)
    = match parse_source_xml html5 int_max_str_digits r1,
            parse_source_xml html5 int_max_str_digits r2 with
      | Some s1, Some s2 => Some (s1 ++ s2)
      | _, _ => None
      end.
Proof.
  intros html5 limit r1 r2. induction r1 as [|index r1 IH].
  - cbn [app parse_source_xml]. now destruct (parse_source_xml _ _ r2).
  - cbn [app parse_source_xml]. rewrite IH.
    destruct (parse_index html5 limit index) as [[s|]|]; [| |reflexivity];
      destruct (parse_source_xml html5 limit r1),
               (parse_source_xml html5 limit r2); reflexivity.
Qed.

(** X9: [parse_source_xml] skips an entry, whatever its content, when its
    level is neither 3 nor 4, when it has no caption text, or when its
    stripped caption has no three-part number. *)
Theorem parse_source_xml_skips :
  forall (html5 : pystr -> option pystr) (int_max_str_digits : nat)
         (index : Index) (rest : list Index),
    (Level index <> py "3" /\ Level index <> py "4")
    \/ Caption index = None \/ Caption index = Some None
    \/ Caption index = Some (Some [])
    \/ (exists caption, Caption index = Some (Some caption)
                        /\ re_search re_three_part (strip caption) = None) ->
    parse_source_xml html5 int_max_str_digits (index :: rest)
    = parse_source_xml html5 int_max_str_digits rest.
Proof.
  intros html5 limit index rest H.
  assert (E : parse_index html5 limit index = Some None).
  { unfold parse_index.
    destruct (str_eqb (Level index) (py "3")) eqn:E3;
      [apply str_eqb_eq in E3|];
      destruct (str_eqb (Level index) (py "4")) eqn:E4;
      try apply str_eqb_eq in E4; cbn [orb negb];
      try reflexivity;
      destruct H as [[H3 H4]|[->|[->|[->|(caption & -> & Hc)]]]];
      try congruence; try reflexivity;
      destruct (negb (truthy caption)); try reflexivity;
      now rewrite Hc. }
  cbn [parse_source_xml]. rewrite E.
  now destruct (parse_source_xml html5 limit rest).
Qed.

Lemma parse_source_xml_skips_witness :
  parse_source_xml (fun _ => None) 4300
    (mkIndex (py "2") (Some (Some (py "48-1-2"))) None None None
     :: example_root)
  = parse_source_xml (fun _ => None) 4300 example_root.
Proof.
  apply parse_source_xml_skips. left. split; vm_compute; discriminate.
Defined.

(* ================================================================== *)
(** * Every record with a chapter has its section in the document *)

(** The [section] elements of a document, in document order. *)
Definition document_sections (doc : ET.Element) : list ET.Element :=
  findall_path [akn "act"; akn "body"; akn "chapter"; akn "section"] doc.

Lemma findall_path_app (p q : list pystr) (e : ET.Element) :
  findall_path (p ++ q) e = flat_map (findall_path q) (findall_path p e).
Proof.
  revert e. induction p as [|t p IH]; intros e; cbn [app findall_path].
  - cbn [flat_map]. now rewrite app_nil_r.
  - induction (ET.findall t e) as [|c l IHl]; [reflexivity|].
    cbn [flat_map]. now rewrite flat_map_app, IH, IHl.
Qed.

Lemma tag_chapter_element (title_num : Z) (k : pystr)
    (chapter_sections : list SectionRecord) :
  ET.tag (chapter_element title_num k chapter_sections) = akn "chapter".
Proof.
  unfold chapter_element, add_section_element. rewrite fold_left_append.
  now destruct (truthy _).
Qed.

Lemma flat_map_map_elements {A B C} (f : A -> B) (g : B -> list C) (l : list A) :
  flat_map g (map f l) = flat_map (fun x => g (f x)) l.
Proof.
  induction l as [|x l IH]; [reflexivity|]. cbn [map flat_map]. now rewrite IH.
Qed.

Lemma map_flat_map_elements {A B C} (f : B -> C) (g : A -> list B) (l : list A) :
  flat_map (fun x => map f (g x)) l = map f (flat_map g l).
Proof.
  induction l as [|x l IH]; [reflexivity|].
  cbn [flat_map]. now rewrite map_app, IH.
Qed.

Lemma findall_mk (t tag0 : pystr) attrib0 text0 (children0 : list ET.Element) :
  ET.findall t (ET.mkElement tag0 attrib0 text0 children0)
  = filter (fun c => str_eqb (ET.tag c) t) children0.
Proof. reflexivity. Qed.

Lemma document_sections_spec (today : date) (title_num : Z)
    (sections : list SectionRecord) :
  document_sections (create_akn_document today title_num sections)
  = map section_element
      (flat_map snd (filter (fun item => truthy (fst item))
                            (sorted_items (group_by_chapter sections)))).
Proof.
  unfold document_sections.
  change [akn "act"; akn "body"; akn "chapter"; akn "section"]
    with ([akn "act"; akn "body"] ++ [akn "chapter"; akn "section"]).
  rewrite findall_path_app.
  change (findall_path [akn "act"; akn "body"] ?d) with (document_body d).
  rewrite document_body_spec, fold_add_chapter.
  cbn [flat_map findall_path ET.findall ET.children elem app].
  rewrite app_nil_r, findall_mk.
  rewrite (@filter_tag_map _ _ _ true)
    by (intros x; now rewrite tag_chapter_element, akn_eqb).
  rewrite flat_map_map_elements, <- map_flat_map_elements.
  apply flat_map_ext. intros [k l]. cbn [fst snd].
  rewrite chapter_element_sections.
  induction (map section_element l) as [|c r IH]; [reflexivity|].
  cbn [flat_map app]. now rewrite IH.
Qed.

Lemma filter_perm {A} (keep : A -> bool) (l l' : list A) :
  Permutation l l' -> Permutation (filter keep l) (filter keep l').
Proof.
  induction 1 as [|x l l' _ IH|x y l|l l' l'' _ IH1 _ IH2]; cbn [filter].
  - constructor.
  - destruct (keep x); [now constructor|exact IH].
  - destruct (keep x), (keep y); try reflexivity. constructor.
  - now transitivity (filter keep l').
Qed.

Lemma existsb_fresh (k : pystr) (ks : list pystr) :
  ~ In k ks -> existsb (str_eqb k) ks = false.
Proof.
  intros H. destruct (existsb _ ks) eqn:E; [|reflexivity].
  apply existsb_exists in E as (k' & Hin & E).
  apply str_eqb_eq in E. now subst.
Qed.

Lemma existsb_kept (keep : pystr -> bool) (k : pystr) (ks : list pystr) :
  In k ks -> existsb (str_eqb k) (filter keep ks) = keep k.
Proof.
  intros H. destruct (keep k) eqn:E.
  - apply existsb_exists. exists k. split; [|apply str_eqb_refl].
    apply filter_In. auto.
  - apply existsb_fresh. intros Hin. apply filter_In in Hin as [_ Hin].
    congruence.
Qed.

(** One record falls in the block of exactly one of the distinct keys. *)
Lemma one_block {A} (x : A) (kx : pystr) (F : pystr -> list A)
    (ks : list pystr) :
  NoDup ks ->
  Permutation
    (flat_map (fun k => (if str_eqb kx k then [x] else []) ++ F k) ks)
    ((if existsb (str_eqb kx) ks then [x] else []) ++ flat_map F ks).
Proof.
  induction 1 as [|k ks Hfresh _ IH]; [reflexivity|].
  cbn [flat_map existsb]. rewrite IH. clear IH.
  destruct (str_eqb kx k) eqn:E; cbn [orb app].
  - apply str_eqb_eq in E. subst k. now rewrite existsb_fresh.
  - destruct (existsb _ ks); cbn [app]; [|reflexivity].
    symmetry. apply Permutation_middle.
Qed.

Lemma blocks_perm (keep : pystr -> bool) (keys : list pystr)
    (sections : list SectionRecord) :
  NoDup keys ->
  (forall s, In s sections -> In (chapter s) keys) ->
  Permutation
    (flat_map (fun k => filter (in_chapter k) sections) (filter keep keys))
    (filter (fun s => keep (chapter s)) sections).
Proof.
  intros Hnd. induction sections as [|x sections IH]; intros Hin.
  - cbn [filter]. rewrite flat_map_nil; [constructor|reflexivity].
  - assert (E : flat_map (fun k => filter (in_chapter k) (x :: sections))
                         (filter keep keys)
                = flat_map (fun k => (if str_eqb (chapter x) k then [x] else [])
                                     ++ filter (in_chapter k) sections)
                           (filter keep keys)).
    { apply flat_map_ext. intros k. cbn [filter]. unfold in_chapter at 1.
      now destruct (str_eqb (chapter x) k). }
    rewrite E, one_block by now apply NoDup_filter.
    rewrite existsb_kept by (apply Hin; now left).
    rewrite IH by (intros s Hs; apply Hin; now right).
    cbn [filter]. now destruct (keep (chapter x)).
Qed.

(** The records the chapter loop visits are, up to order, the records
    whose chapter key is not empty. *)
Lemma chapter_records_perm (sections : list SectionRecord) :
  Permutation
    (flat_map snd (filter (fun item => truthy (fst item))
                          (sorted_items (group_by_chapter sections))))
    (filter (fun s => truthy (chapter s)) sections).
Proof.
  destruct (group_by_chapter_spec sections) as (Hnd & Hl & Hk).
  set (d := group_by_chapter sections) in *.
  rewrite (filter_perm _ (sorted_items_perm d)).
  match goal with
  | |- Permutation ?blocks _ =>
      assert (E : blocks
                  = flat_map (fun k => filter (in_chapter k) sections)
                             (filter (@truthy char) (map fst d)))
  end.
  { clear Hnd Hk. induction d as [|[k l] d IH]; [reflexivity|].
    cbn [filter map fst]. destruct (Hl k l (or_introl eq_refl)) as [El _].
    specialize (IH (fun k' l' H' => Hl k' l' (or_intror H'))).
    destruct (truthy k); [|exact IH]. cbn [flat_map snd].
    now rewrite IH, <- El. }
  rewrite E. now apply blocks_perm.
Qed.

(** X10: the [section] elements of the document that
    [create_akn_document] builds are, up to order, the
    elements of the records whose chapter key is not empty: no such record
    is lost or repeated, and a record with an empty chapter key has no
    element. *)
Theorem document_sections_conserved :
  forall (today : date) (title_num : Z) (sections : list SectionRecord),
    Permutation
      (document_sections (create_akn_document today title_num sections))
      (map section_element
           (filter (fun s => truthy (chapter s)) sections)).
Proof.
  intros today title_num sections.
  rewrite document_sections_spec. apply Permutation_map.
  apply chapter_records_perm.
Qed.

(* ================================================================== *)
(** * Identifiers within a document *)

Lemma eId_section_element (section : SectionRecord) :
  eId (section_element section) = Some (py "sec_" ++ section_number section).
Proof.
  unfold eId, ET.get. rewrite section_element_attrib.
  unfold attr. cbn [ET.lookup]. now rewrite str_eqb_refl.
Qed.

Lemma eId_subsection_element (sub : Node) (s : pystr) :
  eId (subsection_element sub s)
  = Some (py "sec_" ++ s ++ py "__subsec_" ++ identifier sub).
Proof.
  unfold eId, ET.get. rewrite subsection_element_spec.
  unfold attr. cbn [ET.lookup elem ET.attrib]. now rewrite str_eqb_refl.
Qed.

Lemma eId_chapter_element (title_num : Z) (k : pystr)
    (chapter_sections : list SectionRecord) :
  eId (chapter_element title_num k chapter_sections)
  = Some (py "chp_" ++ str_of_int title_num ++ py "-" ++ k).
Proof.
  unfold eId, ET.get, chapter_element, add_section_element.
  rewrite fold_left_append.
  destruct (truthy _); unfold attr;
    cbn [ET.lookup elem ET.attrib ET.append]; now rewrite str_eqb_refl.
Qed.

Lemma findall_subsection (section : SectionRecord) :
  ET.findall (akn "subsection") (section_element section)
  = map (fun sub => subsection_element sub (section_number section))
        (subsections section).
Proof.
  rewrite findall_section, section_element_children.
  unfold heading_part, intro_part, content_part, notes_part.
  destruct (truthy (title section)), (subsections section) as [|sub subs],
    (re_intro (body section)) as [[g e]|], (truthy (history section));
    cbn [truthy]; tag_tests; rewrite ?app_nil_r; try reflexivity;
    rewrite ?tag_subsection_element, ?akn_eqb;
    cbn [String.eqb Ascii.eqb Bool.eqb]; f_equal;
    (rewrite (@filter_tag_map _ _ _ true);
     [reflexivity | intros x; now rewrite tag_subsection_element, akn_eqb]).
Qed.

(** Identifiers that share a prefix are distinct exactly when the parts
    after the prefix are. *)
Lemma nodup_prefixed {A} (p : pystr) (f : A -> pystr) (l : list A) :
  NoDup (map (fun x => Some (p ++ f x)) l) <-> NoDup (map f l).
Proof.
  induction l as [|x l IH]; cbn [map]; [split; constructor|].
  rewrite !NoDup_cons_iff, IH, !in_map_iff.
  apply and_iff_compat_r. apply not_iff_compat. split.
  - intros (y & E & Hy). exists y. split; [|exact Hy].
    apply Some_inj in E. now apply app_inv_head in E.
  - intros (y & E & Hy). exists y. split; [now rewrite E|exact Hy].
Qed.

(** X11: within one document the chapter elements have pairwise distinct
    identifiers; the section elements have pairwise distinct identifiers
    exactly when no section number occurs twice among the records with a
    chapter key; and the subsection elements of a section have pairwise
    distinct identifiers exactly when no marker occurs twice among its
    subsections. *)
Theorem element_identifiers_distinct :
  forall (today : date) (title_num : Z) (sections : list SectionRecord),
    let doc := create_akn_document today title_num sections in
    NoDup (map eId (flat_map ET.children (document_body doc)))
    /\ (NoDup (map eId (document_sections doc))
        <-> NoDup (map section_number
                       (filter (fun s => truthy (chapter s)) sections)))
    /\ (forall section : SectionRecord,
          NoDup (map eId (ET.findall (akn "subsection")
                            (section_element section)))
          <-> NoDup (map identifier (subsections section))).
Proof.
  intros today title_num sections doc. subst doc. split; [|split].
  - rewrite document_body_spec, fold_add_chapter.
    cbn [flat_map ET.children elem app]. rewrite app_nil_r, map_map.
    set (items := filter _ _).
    assert (E : map (fun item : pystr * list SectionRecord =>
                       eId (chapter_element title_num (fst item) (snd item)))
                    items
                = map (fun k => Some ((py "chp_" ++ str_of_int title_num
                                       ++ py "-") ++ k))
                      (map fst items)).
    { rewrite map_map. apply map_ext. intros [k l].
      now rewrite eId_chapter_element, <- !app_assoc. }
    rewrite E, (nodup_prefixed _ (fun k : pystr => k)), map_id.
    apply keys_filter_nodup.
    apply (Permutation_NoDup
             (Permutation_map fst
                (Permutation_sym
                   (sorted_items_perm (group_by_chapter sections))))).
    apply group_by_chapter_spec.
  - rewrite document_sections_spec, map_map.
    rewrite (map_ext _ _ eId_section_element).
    rewrite <- (nodup_prefixed (py "sec_") section_number).
    split; apply Permutation_NoDup; apply Permutation_map;
      [|symmetry]; apply chapter_records_perm.
  - intros section. rewrite findall_subsection, map_map.
    rewrite (map_ext _ _ (fun sub => eId_subsection_element sub _)).
    rewrite <- (nodup_prefixed (py "sec_" ++ section_number section
                                ++ py "__subsec_") identifier).
    assert (E : forall sub : Node,
              Some (py "sec_" ++ section_number section ++ py "__subsec_"
                    ++ identifier sub)
              = Some ((py "sec_" ++ section_number section ++ py "__subsec_")
                      ++ identifier sub))
      by (intros sub; now rewrite <- !app_assoc).
    now rewrite (map_ext _ _ E).
Qed.

(* ================================================================== *)
(** * The intro block of a text that starts with its first marker *)

Lemma marker_at_lettered (t : pystr) :
  marker_at t = true -> re_lettered t <> [] /\ 4 <= length t.
Proof.
  intros H. pose proof (lettered_marker_cases t) as E. rewrite H in E.
  split.
  - intros En. unfold cat at 1 in E. now rewrite En in E.
  - destruct t as [|a [|x [|b [|w t]]]]; try discriminate. simpl. lia.
Qed.

Lemma findall_intro (section : SectionRecord) :
  subsections section <> [] ->
  ET.findall (akn "intro") (section_element section) = intro_part section.
Proof.
  intros Hs. rewrite findall_section, section_element_children.
  unfold heading_part, intro_part, content_part, notes_part.
  destruct (truthy (title section)), (subsections section) as [|sub subs],
    (re_intro (body section)) as [[g e]|], (truthy (history section));
    try congruence; cbn [truthy]; tag_tests;
    rewrite ?tag_subsection_element, ?akn_eqb;
    cbn [String.eqb Ascii.eqb Bool.eqb];
    rewrite (@filter_tag_map _ _ _ false)
      by (intros x; now rewrite tag_subsection_element, akn_eqb);
    reflexivity.
Qed.

(** X12: when the text of a record with subsections starts with its first
    marker and a further [(x)] follows, the section element still has an
    intro block: it holds the text from the first marker up to the next
    [(x)], that is the marker and text of the first subsection, stripped
    and cut to 500 characters. *)
Theorem intro_block_repeats_first_subsection :
  forall (section : SectionRecord) (pre rest : pystr),
    subsections section <> [] ->
    body section = pre ++ rest ->
    marker_at pre = true ->
    re_lettered rest <> [] ->
    (forall i, 1 <= i < length pre ->
               re_lettered (skipn i (body section)) = []) ->
    ET.findall (akn "intro") (section_element section) = [intro_block pre].
Proof.
  intros section pre rest Hs Hbody Hm Hrest Hno.
  rewrite (findall_intro _ Hs). unfold intro_part.
  rewrite (@re_intro_some (body section) pre rest Hbody); try assumption.
  - reflexivity.
  - apply marker_at_lettered in Hm as [_ Hlen]. intros ->. simpl in Hlen. lia.
Qed.

Lemma intro_block_repeats_first_subsection_witness :
  let section := example_section (py "(a) First. (b) Second.") in
  map identifier (subsections section) = [py "a"; py "b"]
  /\ ET.findall (akn "intro") (section_element section)
     = [elem "intro" [] None [elem "p" [] (Some (py "(a) First.")) []]].
Proof.
  intros section. split; [vm_compute; reflexivity|].
  apply (@intro_block_repeats_first_subsection section (py "(a) First. ")
           (py "(b) Second.")).
  - vm_compute. discriminate.
  - vm_compute. reflexivity.
  - vm_compute. reflexivity.
  - vm_compute. discriminate.
  - intros i Hi. change (length (py "(a) First. ")) with 11 in Hi.
    destruct i as [|i]; [lia|].
    do 10 (destruct i as [|i]; [vm_compute; reflexivity|]). lia.
Defined.

(* ================================================================== *)
(** * The batch driver *)

Lemma re_end_in (s : pystr) (n : nat) :
  In n (re_end s) -> s = [] \/ s = [nl].
Proof.
  destruct s as [|c [|c' s]]; cbn [re_end]; [now left| |intros []].
  destruct (N.eqb_spec c 10) as [->|_]; [now right|intros []].
Qed.

Lemma title_match (s g : pystr) (e : nat) :
  re_match_group (lit "title.") (plus is_digit) (lit ".xml" >> re_end) s
  = Some (g, e) ->
  Lplus is_digit g
  /\ exists tail, s = py "title." ++ g ++ py ".xml" ++ tail
                  /\ (tail = [] \/ tail = [nl]).
Proof.
  intros H. apply re_match_group_in in H
    as (n1 & n2 & n3 & H1 & H2 & H3 & -> & _).
  apply recognizes_lit in H1 as [_ H1].
  apply recognizes_plus in H2 as [_ H2].
  apply in_cat in H3 as (a & b & Ha & Hb & _).
  apply recognizes_lit in Ha as [_ Ha]. apply re_end_in in Hb.
  split; [exact H2|]. exists (skipn a (skipn (n1 + n2) s)).
  split; [|exact Hb]. unfold Llit in H1, Ha.
  rewrite <- H1, <- Ha, firstn_skipn.
  rewrite Nat.add_comm, <- skipn_skipn, firstn_skipn.
  symmetry. apply firstn_skipn.
Qed.

Lemma re_search_group_here (pre g post : matcher) (s t : pystr) (e : nat) :
  re_match_group pre g post s = Some (t, e) ->
  re_search_group pre g post s = Some t.
Proof. intros H. destruct s; cbn [re_search_group]; now rewrite H. Qed.

Lemma re_search_group_next (g post : matcher) (c : char) (s : pystr) :
  (c =? 116)%N = false ->
  re_search_group (lit "title.") g post (c :: s)
  = re_search_group (lit "title.") g post s.
Proof.
  intros H. cbn [re_search_group].
  assert (E : lit "title." (c :: s) = []).
  { unfold lit. change (py "title.") with (116%N :: py "itle.").
    cbn [prefix_by]. rewrite N.eqb_sym, H. reflexivity. }
  unfold re_match_group at 1. now rewrite E.
Qed.

Lemma prefix_by_app (w r : pystr) : prefix_by N.eqb w (w ++ r) = true.
Proof.
  induction w as [|c w IH]; [reflexivity|].
  cbn [app prefix_by]. now rewrite N.eqb_refl.
Qed.

Lemma run_app_stop (p : char -> bool) (ds r : pystr) :
  forallb p ds = true ->
  match r with c :: _ => p c = false | [] => True end ->
  run p (ds ++ r) = length ds.
Proof.
  intros Hds Hr. induction ds as [|d ds IH]; cbn [app].
  - destruct r as [|c r]; [reflexivity|]. cbn [run]. now rewrite Hr.
  - cbn [forallb] in Hds. apply andb_prop in Hds as [Hd Hds].
    cbn [run length]. rewrite Hd. f_equal. now apply IH.
Qed.

Lemma title_match_here (ds : pystr) :
  Lplus is_digit ds ->
  re_match_group (lit "title.") (plus is_digit) (lit ".xml" >> re_end)
    (py "title." ++ ds ++ py ".xml")
  = Some (ds, length (py "title.") + length ds + 4).
Proof.
  intros [Hne Hds]. unfold re_match_group.
  assert (E : lit "title." (py "title." ++ ds ++ py ".xml")
              = [length (py "title.")])
    by (unfold lit; now rewrite prefix_by_app).
  rewrite E. cbn [flat_map]. rewrite app_nil_r.
  rewrite (skipn_app_length (py "title.")).
  assert (Hrun : run is_digit (ds ++ py ".xml") = length ds)
    by (apply run_app_stop; [exact Hds|reflexivity]).
  rewrite plus_cons by (rewrite Hrun; destruct ds; [congruence|discriminate]).
  rewrite Hrun. cbn [flat_map].
  rewrite (Nat.add_comm (length (py "title.")) (length ds)).
  rewrite <- skipn_skipn, (skipn_app_length (py "title.")).
  rewrite skipn_app_length, firstn_app_length.
  reflexivity.
Qed.

(** X14: the title number of a source file is read from the end of its
    name.  When the pattern is found, the name ends with ["title."], the
    digits found, and [".xml"], followed at most by one newline; and in a
    name of the form ["gov.ga.ocga.2018.title.<digits>.xml"], which the
    directory scan accepts, the digits found are those between the two
    fixed parts. *)
Theorem title_group_spec :
  (forall n ds : pystr,
     title_group n = Some ds ->
     Lplus is_digit ds
     /\ exists pre tail,
          n = pre ++ py "title." ++ ds ++ py ".xml" ++ tail
          /\ (tail = [] \/ tail = [nl]))
  /\ (forall ds : pystr,
        Lplus is_digit ds ->
        let n := py "gov.ga.ocga.2018.title." ++ ds ++ py ".xml" in
        glob_title n = true /\ title_group n = Some ds).
Proof.
  split.
  - intros n ds. unfold title_group. induction n as [|c n IH].
    + cbn [re_search_group].
      destruct (re_match_group _ _ _ []) as [[g e]|] eqn:E; [|discriminate].
      intros [= ->]. apply title_match in E as (Hds & tail & E & Ht).
      split; [exact Hds|]. exists [], tail. auto.
    + cbn [re_search_group].
      destruct (re_match_group _ _ _ (c :: n)) as [[g e]|] eqn:E.
      * intros [= ->]. apply title_match in E as (Hds & tail & E & Ht).
        split; [exact Hds|]. exists [], tail. auto.
      * intros H. destruct (IH H) as (Hds & pre & tail & -> & Ht).
        split; [exact Hds|]. exists (c :: pre), tail. auto.
  - intros ds [Hne Hds] n. subst n. split.
    + unfold glob_title. rewrite prefix_by_app.
      rewrite !rev_app_distr, <- app_assoc, prefix_by_app.
      cbn [andb]. apply Nat.leb_le. rewrite !length_app. lia.
    + unfold title_group.
      change (py "gov.ga.ocga.2018.title.")
        with ([103; 111; 118; 46; 103; 97; 46; 111; 99; 103; 97; 46;
               50; 48; 49; 56; 46]%N ++ py "title.").
      rewrite <- app_assoc. cbn [app].
      rewrite !re_search_group_next by reflexivity.
      eapply re_search_group_here. apply title_match_here. now split.
Qed.

Lemma title_group_spec_witness :
  glob_title (py "gov.ga.ocga.2018.title.48.xml") = true
  /\ title_group (py "gov.ga.ocga.2018.title.48.xml") = Some (py "48").
Proof.
  apply (proj2 title_group_spec (py "48")).
  split; [discriminate|reflexivity].
Defined.

(** What the loop of [main] keeps true of a run: the two file counters
    equal the number of calls of [write_text] that succeeded, there were
    at most [bound] of them and no more than there are sections counted,
    and each of them wrote, under the name of a title number, a text that
    starts with an XML declaration. *)
Definition run_ok (bound : nat) (r : Run) : Prop :=
  titles_processed (stats r) = length (written r)
  /\ files_written (stats r) = length (written r)
  /\ length (written r) <= sections_converted (stats r)
  /\ length (written r) <= bound
  /\ Forall (fun w => (exists title_num, (0 <= title_num)%Z
                                         /\ fst w = output_name title_num)
                      /\ prefix_by N.eqb (py "<?xml") (snd w) = true)
            (written r).

Section DriverFacts.

Variable html5 : pystr -> option pystr.
Variable int_max_str_digits : nat.
Variable pretty_print_xml : ET.Element -> option pystr.
Variable write_text : pystr -> pystr -> bool.

Lemma int_title_nonneg (ds : pystr) (title_num : Z) :
  int_title int_max_str_digits ds = Some title_num -> (0 <= title_num)%Z.
Proof.
  unfold int_title. destruct (_ && _); [discriminate|].
  intros [= <-]. apply N2Z.is_nonneg.
Qed.

Lemma convert_file_wrote (f : SourceFile) (title_num : Z)
    (output_file xml_str : pystr) (count : nat) :
  convert_file html5 int_max_str_digits pretty_print_xml write_text f title_num
  = Wrote output_file xml_str count ->
  output_file = output_name title_num
  /\ prefix_by N.eqb (py "<?xml") xml_str = true
  /\ 1 <= count.
Proof.
  unfold convert_file.
  destruct (file_root f) as [root|]; [|discriminate].
  destruct (parse_source_xml _ _ root) as [sections|]; [|discriminate].
  destruct sections as [|s sections]; [discriminate|]. cbn [truthy negb].
  destruct (pretty_print_xml _) as [x|]; [|discriminate].
  destruct (prefix_by N.eqb (py "<?xml") x) eqn:E; cbn [negb];
    (destruct (write_text _ _); [|discriminate]); intros H;
    apply (f_equal (fun o => match o with
                             | Wrote a b c => Some (a, b, c)
                             | _ => None
                             end)) in H;
    apply Some_inj in H; inversion H; subst;
    (split; [reflexivity|]); (split; [|cbn [length]; lia]).
  - exact E.
  - reflexivity.
Qed.

Lemma main_loop_ok (xml_files : list SourceFile) (r : Run) (bound : nat) :
  run_ok bound r ->
  run_ok (bound + length xml_files)
         (fst (main_loop html5 int_max_str_digits pretty_print_xml write_text
                         xml_files r)).
Proof.
  revert r bound. induction xml_files as [|f rest IH]; intros r bound Hr.
  - cbn [main_loop fst length]. now rewrite Nat.add_0_r.
  - cbn [main_loop length].
    assert (Hkeep : run_ok (bound + S (length rest)) r).
    { destruct Hr as (H1 & H2 & H3 & H4 & H5). repeat split; auto. lia. }
    unfold process_file.
    destruct (title_group (file_name f)) as [group1|].
    + destruct (int_title int_max_str_digits group1) as [title_num|] eqn:En;
        [|exact Hkeep].
      replace (bound + S (length rest)) with (S bound + length rest) by lia.
      apply IH.
      destruct (convert_file _ _ _ _ f title_num)
        as [| | |output_file xml_str count] eqn:Ec; cbn [record_outcome];
        try (destruct Hr as (H1 & H2 & H3 & H4 & H5); repeat split; auto; lia).
      apply convert_file_wrote in Ec as (-> & Hx & Hc).
      destruct Hr as (H1 & H2 & H3 & H4 & H5).
      unfold run_ok. cbn [stats written titles_processed files_written
                          sections_converted].
      rewrite length_app. cbn [length].
      repeat split; try lia.
      apply Forall_app. split; [exact H5|]. constructor; [|constructor].
      cbn [fst snd]. split; [|exact Hx].
      exists title_num. split; [|reflexivity].
      now apply int_title_nonneg with group1.
    + replace (bound + S (length rest)) with (S bound + length rest) by lia.
      apply IH. cbn [record_outcome].
      destruct Hr as (H1 & H2 & H3 & H4 & H5). repeat split; auto.
Qed.

End DriverFacts.

(** X15: whatever the source directory holds and however the printer and
    the writes behave, when [main] stops the counters [titles_processed]
    and [files_written] both equal the number of calls of [write_text] that
    succeeded, which is at most the number of files in the source directory
    and at most [sections_converted]; each of these calls wrote, under a
    name ["us-ga-title-NN.akn.xml"] for a title number [NN >= 0], a text
    that starts with ["<?xml"].  The counters count writes, not files: for
    the two source files of title [07] and title [7], [files_written] is 2
    and both writes go to the one name of title 7. *)
Theorem main_counters :
  (forall (html5 : pystr -> option pystr) (int_max_str_digits : nat)
          (pretty_print_xml : ET.Element -> option pystr)
          (write_text : pystr -> pystr -> bool)
          (source_dir : list SourceFile),
     run_ok (length source_dir)
            (fst (main html5 int_max_str_digits pretty_print_xml write_text
                       source_dir)))
  /\ (let source_dir :=
        [ mkSourceFile (py "gov.ga.ocga.2018.title.7.xml")
                       (Some example_root) (mkDate 2026 11 3);
          mkSourceFile (py "gov.ga.ocga.2018.title.07.xml")
                       (Some example_root) (mkDate 2026 11 3) ] in
      let r := fst (main (fun _ => None) 4300
                         (fun _ => Some (py "<?xml?><akomaNtoso/>"))
                         (fun _ _ => true) source_dir) in
      files_written (stats r) = 2
      /\ map fst (written r) = [output_name 7; output_name 7]).
Proof.
  split; [|vm_compute; split; reflexivity].
  intros html5 limit pretty write source_dir. unfold main.
  set (globbed := filter _ source_dir).
  set (xml_files := map snd _).
  assert (Hlen : length xml_files <= length source_dir).
  { subst xml_files. rewrite length_map.
    rewrite (Permutation_length (sorted_items_perm _)), length_map.
    apply filter_length_le. }
  pose proof (@main_loop_ok html5 limit pretty write xml_files
                (mkRun (mkStats 0 0 0) []) 0) as H.
  destruct H as (H1 & H2 & H3 & H4 & H5).
  - repeat split; cbn; auto.
  - repeat split; auto. cbn [Nat.add] in H4. lia.
Qed.

(* ================================================================== *)
(** * From the extractor to the document *)

(** The chapter of an extracted record is not empty, and the extractor
    stores no chapter title. *)
Lemma extracted_chapter html5 limit (root : list Index)
    (sections : list SectionRecord) (r : SectionRecord) :
  parse_source_xml html5 limit root = Some sections ->
  In r sections ->
  truthy (chapter r) = true /\ chapter_title r = [].
Proof.
  intros Hparse Hr.
  eapply parse_source_xml_in in Hr as (index & _ & Hi); [|exact Hparse].
  apply parse_index_some in Hi as (caption & content & H3 & ->).
  cbn [chapter chapter_title]. split; [|reflexivity].
  pose proof (extract_section_number_shape _ (three_part_found _ H3))
    as (d1 & d2 & d3 & t & E & H1 & H2 & _).
  destruct (@split_section_number d1 d2 (d3 ++ t) H1 H2) as (tail & Hsplit).
  rewrite E, Hsplit. cbn -[py]. destruct H2 as [H2 _].
  destruct d2; [congruence|reflexivity].
Qed.

Lemma filter_all {A} (keep : A -> bool) (l : list A) :
  (forall x, In x l -> keep x = true) -> filter keep l = l.
Proof.
  induction l as [|x l IH]; intros H; [reflexivity|]. cbn [filter].
  rewrite (H x (or_introl eq_refl)). f_equal. apply IH.
  intros y Hy. apply H. now right.
Qed.

Lemma chapter_element_no_heading (title_num : Z) (k : pystr)
    (chapter_sections : list SectionRecord) :
  match chapter_sections with
  | s :: _ => chapter_title s = []
  | [] => True
  end ->
  ET.findall (akn "heading") (chapter_element title_num k chapter_sections)
  = [].
Proof.
  intros H. unfold chapter_element, add_section_element.
  rewrite fold_left_append.
  assert (E : truthy match chapter_sections with
                     | s :: _ => chapter_title s
                     | [] => []
                     end = false)
    by (destruct chapter_sections; [reflexivity|now rewrite H]).
  rewrite E. unfold ET.findall. cbn [ET.children elem]. rewrite filter_app.
  rewrite (@filter_tag_map _ _ _ false)
    by (intros x; now rewrite tag_section_element, akn_eqb).
  tag_tests. reflexivity.
Qed.

(** X13: every record the extractor returns has its section element in the
    document built from the records: the section elements of the document
    are those of the records, up to order, so none is dropped and none is
    repeated; and no chapter element of such a document has a heading. *)
Theorem extracted_sections_all_present :
  forall (html5 : pystr -> option pystr) (int_max_str_digits : nat)
         (root : list Index) (sections : list SectionRecord)
         (today : date) (title_num : Z),
    parse_source_xml html5 int_max_str_digits root = Some sections ->
    let doc := create_akn_document today title_num sections in
    Permutation (document_sections doc) (map section_element sections)
    /\ Forall (fun chapter_elem =>
                 ET.findall (akn "heading") chapter_elem = [])
              (flat_map ET.children (document_body doc)).
Proof.
  intros html5 limit root sections today title_num Hparse doc. subst doc.
  assert (Hrec := fun r => @extracted_chapter html5 limit root sections r Hparse).
  split.
  - rewrite document_sections_spec. apply Permutation_map.
    rewrite chapter_records_perm.
    rewrite filter_all; [reflexivity|]. intros r Hr. now apply Hrec.
  - rewrite document_body_spec, fold_add_chapter.
    cbn [flat_map ET.children elem app]. rewrite app_nil_r.
    apply Forall_forall. intros e He.
    apply in_map_iff in He as ([k l] & <- & Hin). cbn [fst snd].
    apply filter_In in Hin as [Hin _].
    apply (Permutation_in _ (sorted_items_perm _)) in Hin.
    destruct (group_by_chapter_spec sections) as (_ & Hl & _).
    destruct (Hl k l Hin) as [El _].
    apply chapter_element_no_heading.
    destruct l as [|s l]; [exact I|].
    assert (Hs : In s (filter (in_chapter k) sections))
      by (rewrite <- El; now left).
    apply filter_In in Hs as [Hs _]. now apply Hrec.
Qed.

Lemma extracted_sections_all_present_witness :
  let doc :=
    create_akn_document (mkDate 2026 11 3) 48
      [example_section (py "(a) Means this.")] in
  Permutation (document_sections doc)
    (map section_element [example_section (py "(a) Means this.")])
  /\ Forall (fun chapter_elem =>
               ET.findall (akn "heading") chapter_elem = [])
            (flat_map ET.children (document_body doc)).
Proof.
  apply (@extracted_sections_all_present (fun _ => None) 4300 example_root).
  vm_compute. reflexivity.
Defined.

(* ================================================================== *)
(** * The texts the normalizer leaves alone *)

(** X7: among the texts without an ampersand, [clean_html_content]
    returns a text unchanged exactly when no match of [<[^>]+>] starts in it, the
    blank-line substitution leaves it alone, and it is stripped. *)
Theorem clean_html_content_fixed_points :
  forall (html5 : pystr -> option pystr) (int_max_str_digits : nat)
         (x : pystr),
    contains 38%N x = false ->
    (clean_html_content html5 int_max_str_digits x = Some x
     <-> no_tag x /\ collapse x = x /\ strip x = x).
Proof.
  intros html5 limit x Hamp. split.
  - intros H. apply clean_html_content_spec in H as [t Ht].
    split; [rewrite Ht; apply no_tag_clean|]. split.
    + apply collapse_collapsed. rewrite Ht.
      apply collapsed_strip, collapsed_sub_go.
    + rewrite Ht. apply strip_idem.
  - intros (Hnt & Hco & Hst).
    assert (Hid : forall m r,
               (forall s, m s <> [] -> tag_at s = true) -> re_sub m r x = x).
    { intros m r Hm. apply re_sub_id. intros i.
      destruct (m (skipn i x)) eqn:E; [reflexivity|].
      specialize (Hm (skipn i x)). rewrite E, (Hnt i) in Hm.
      discriminate Hm. discriminate. }
    assert (Hw : forall m r,
               In m [re_br; re_p_open; re_p_close; re_strong; re_b; re_font] ->
               re_sub m r x = x).
    { intros m r Hm. apply Hid. intros s. now apply whitelist_tag_at. }
    unfold clean_html_content. rewrite unescape_no_ampersand by exact Hamp.
    cbv zeta.
    rewrite (Hw re_br), (Hw re_p_open), (Hw re_p_close), (Hw re_strong),
      (Hw re_b), (Hw re_font) by (simpl; tauto).
    rewrite (Hid re_tag)
      by (intros s Hs; destruct (tag_at s) eqn:E; [reflexivity|];
          now apply re_tag_nil in E).
    fold (collapse x). now rewrite Hco, Hst.
Qed.

Lemma clean_html_content_fixed_points_witness :
  let x := py "if a < b" ++ [nl; nl] ++ py "then c" in
  clean_html_content (fun _ => None) 4300 x = Some x
  <-> no_tag x /\ collapse x = x /\ strip x = x.
Proof.
  apply (@clean_html_content_fixed_points (fun _ => None) 4300).
  vm_compute. reflexivity.
Defined.
